(** * Apex Prime Club: data-access services over the record store

    A shallow embedding of the service modules of the repository
    ([leadsService], [analyticsService], [salesRepService], the report
    service and the deals, contacts and team members services) together
    with the properties that the specification states about them.

    The services are JavaScript [async] functions.  They are embedded as
    computations in a small state-and-exception monad [M]: the state holds
    the record-store backend, the lines written with [console.error] and
    the history of the calls made to the backend client; an exception is a
    JavaScript [throw].  Values that the code handles dynamically (fields of
    records, messages) are values of [JsVal]. *)

From Stdlib Require Import ZArith List String Ascii Bool Lia Permutation Sorted.
From stdpp Require Import strings list pretty.

Set Default Proof Using "Type".
Set Warnings "-register-all".
Local Open Scope Z_scope.
Local Open Scope list_scope.

(* ===================================================================== *)
(** ** JavaScript values *)
(* ===================================================================== *)

Module Js.

(** Dynamic values.  The numbers held in records are restricted to the
    integers plus [NaN] (the services count, compare with zero and pass
    numbers through; the quotients they compute are doubles, see [Double]);
    a string is held as the bytes of its UTF-8 form, so that a character
    outside ASCII takes two to four bytes; an object is the list of its own
    properties in insertion order. *)
Inductive JsVal : Type :=
| JUndef
| JNull
| JBool (b : bool)
| JNum (n : Z)
| JNaN
| JStr (s : string)
| JObj (fields : list (string * JsVal)).

(** A flat record of the store, or any plain object: its own properties. *)
Definition Rec : Type := list (string * JsVal).

(** [r.k]: the first binding of [k], [undefined] when there is none. *)
Fixpoint prop (r : Rec) (k : string) : JsVal :=
  match r with
  | [] => JUndef
  | (k', v) :: r' => if String.eqb k' k then v else prop r' k
  end.

(** [v?.k] for the property names the services ask for ([Id], [Name]):
    [undefined] on [undefined], [null] and on every primitive. *)
Definition optProp (v : JsVal) (k : string) : JsVal :=
  match v with
  | JObj f => prop f k
  | _ => JUndef
  end.

(** Truthiness: [undefined], [null], [false], [0], [NaN] and [''] are falsy. *)
Definition truthy (v : JsVal) : bool :=
  match v with
  | JUndef | JNull | JNaN => false
  | JBool b => b
  | JNum n => negb (n =? 0)
  | JStr s => negb (String.eqb s "")
  | JObj _ => true
  end.

(** [a || b] *)
Definition jsOr (a b : JsVal) : JsVal := if truthy a then a else b.

(** [a === b]; two objects obtained from separate responses are never the
    same reference, [NaN] is not equal to itself. *)
Definition strictEq (a b : JsVal) : bool :=
  match a, b with
  | JUndef, JUndef => true
  | JNull, JNull => true
  | JBool x, JBool y => Bool.eqb x y
  | JNum x, JNum y => x =? y
  | JStr x, JStr y => String.eqb x y
  | _, _ => false
  end.

(** [String(v)], also the conversion of a value used as a property key. *)
Definition toStr (v : JsVal) : string :=
  match v with
  | JUndef => "undefined"
  | JNull => "null"
  | JBool true => "true"
  | JBool false => "false"
  | JNum n => pretty n
  | JNaN => "NaN"
  | JStr s => s
  | JObj _ => "[object Object]"
  end.

(** *** Strings *)

(** The white space that [trim] and [parseInt] skip: the [WhiteSpace] and
    [LineTerminator] characters of ECMAScript, each as the bytes of its UTF-8
    form: [U+0009] to [U+000D], [U+0020], [U+00A0], [U+1680], [U+2000] to
    [U+200A], [U+2028], [U+2029], [U+202F], [U+205F], [U+3000], [U+FEFF]. *)
Definition whiteSpaceBytes : list (list nat) :=
  [ [9]; [10]; [11]; [12]; [13]; [32]; [194; 160]; [225; 154; 128];
    [226; 128; 128]; [226; 128; 129]; [226; 128; 130]; [226; 128; 131];
    [226; 128; 132]; [226; 128; 133]; [226; 128; 134]; [226; 128; 135];
    [226; 128; 136]; [226; 128; 137]; [226; 128; 138];
    [226; 128; 168]; [226; 128; 169]; [226; 128; 175]; [226; 129; 159];
    [227; 128; 128]; [239; 187; 191] ]%nat.

Definition ofBytes (l : list nat) : string :=
  fold_right (fun n s => String (ascii_of_nat n) s) EmptyString l.

Definition whiteSpace : list string := map ofBytes whiteSpaceBytes.

(** [s] without its prefix [p]; [None] when [p] is no prefix of [s]. *)
Fixpoint afterPrefix (p s : string) : option string :=
  match p, s with
  | EmptyString, _ => Some s
  | String a p', String b s' => if Ascii.eqb a b then afterPrefix p' s' else None
  | String _ _, EmptyString => None
  end.

(** [s] after one of the [units] at its start, the first that fits. *)
Fixpoint afterOneOf (units : list string) (s : string) : option string :=
  match units with
  | [] => None
  | u :: rest =>
      match afterPrefix u s with
      | Some s' => Some s'
      | None => afterOneOf rest s
      end
  end.

(** [s] without the [units] at its start; [n] bounds their number. *)
Fixpoint dropLeading (units : list string) (n : nat) (s : string) : string :=
  match n with
  | O => s
  | Datatypes.S n' =>
      match afterOneOf units s with
      | Some s' => dropLeading units n' s'
      | None => s
      end
  end.

(** [s.trimStart()] *)
Definition trimStart (s : string) : string :=
  dropLeading whiteSpace (String.length s) s.

(** [s.trimEnd()]: the same on the string read backwards. *)
Definition trimEnd (s : string) : string :=
  String.rev (dropLeading (map String.rev whiteSpace) (String.length s) (String.rev s)).

(** [s.trim()] *)
Definition trim (s : string) : string := trimEnd (trimStart s).

(** A string of ASCII characters. *)
Fixpoint isAscii (s : string) : bool :=
  match s with
  | EmptyString => true
  | String c s' => (nat_of_ascii c <? 128)%nat && isAscii s'
  end.

Definition lowerAscii (c : ascii) : ascii :=
  let n := nat_of_ascii c in
  if ((65 <=? n) && (n <=? 90))%nat then ascii_of_nat (n + 32) else c.

(** [s.toLowerCase()] on a string of ASCII characters: the letters [A] to
    [Z] are lowered.  (The bytes of the other characters are kept: a letter
    outside ASCII that has a lower-case form is outside the model.) *)
Fixpoint toLowerCase (s : string) : string :=
  match s with
  | EmptyString => EmptyString
  | String c s' => String (lowerAscii c) (toLowerCase s')
  end.

(** [s.replace(/\/$/, '')]: one trailing slash is removed. *)
Fixpoint dropTrailingSlash (s : string) : string :=
  match s with
  | EmptyString => EmptyString
  | String c s' =>
      match s' with
      | EmptyString => if Ascii.eqb c "/" then EmptyString else s
      | _ => String c (dropTrailingSlash s')
      end
  end.

(** [s.endsWith('/')] *)
Fixpoint endsWithSlash (s : string) : bool :=
  match s with
  | EmptyString => false
  | String c EmptyString => Ascii.eqb c "/"
  | String _ s' => endsWithSlash s'
  end.

(** [s.replace(/^https?:\/\//, '')] *)
Definition dropScheme (s : string) : string :=
  if String.prefix "https://" s then String.substring 8 (String.length s - 8) s
  else if String.prefix "http://" s then String.substring 7 (String.length s - 7) s
  else s.

(** [s.split(c)[0]]: the part before the first occurrence of [c]. *)
Fixpoint beforeChar (c : ascii) (s : string) : string :=
  match s with
  | EmptyString => EmptyString
  | String d s' => if Ascii.eqb d c then EmptyString else String d (beforeChar c s')
  end.

(** *** Numbers *)

Definition digitVal (c : ascii) : option Z :=
  let n := Z.of_nat (nat_of_ascii c) in
  if (48 <=? n) && (n <=? 57) then Some (n - 48) else None.

(** All of [s] read as decimal digits after the digits read so far. *)
Fixpoint digitsVal (acc : Z) (s : string) : option Z :=
  match s with
  | EmptyString => Some acc
  | String c s' =>
      match digitVal c with
      | Some d => digitsVal (10 * acc + d) s'
      | None => None
      end
  end.

(** The longest prefix of decimal digits of [s]; [None] when it is empty. *)
Fixpoint digitPrefix (acc : option Z) (s : string) : option Z :=
  match s with
  | EmptyString => acc
  | String c s' =>
      match digitVal c with
      | Some d => digitPrefix (Some (10 * default 0 acc + d)) s'
      | None => acc
      end
  end.

(** The decimal digits at the start of [s], and what follows them. *)
Fixpoint spanDigits (s : string) : string * string :=
  match s with
  | EmptyString => (EmptyString, EmptyString)
  | String c s' =>
      match digitVal c with
      | Some _ => let (ds, r) := spanDigits s' in (String c ds, r)
      | None => (EmptyString, s)
      end
  end.

Definition hexVal (c : ascii) : option Z :=
  let n := Z.of_nat (nat_of_ascii c) in
  if (48 <=? n) && (n <=? 57) then Some (n - 48)
  else if (97 <=? n) && (n <=? 102) then Some (n - 87)
  else if (65 <=? n) && (n <=? 70) then Some (n - 55)
  else None.

(** All of [s] read as digits in the base [b] after the digits read so
    far. *)
Fixpoint radixDigits (b acc : Z) (s : string) : option Z :=
  match s with
  | EmptyString => Some acc
  | String c s' =>
      match hexVal c with
      | Some d => if d <? b then radixDigits b (b * acc + d) s' else None
      | None => None
      end
  end.

(** The base of a literal that starts with [0x], [0o] or [0b] (in either
    case), and its digits. *)
Definition radixPrefix (s : string) : option (Z * string) :=
  match s with
  | String "0" (String c t) =>
      if Ascii.eqb c "x" || Ascii.eqb c "X" then Some (16, t)
      else if Ascii.eqb c "o" || Ascii.eqb c "O" then Some (8, t)
      else if Ascii.eqb c "b" || Ascii.eqb c "B" then Some (2, t)
      else None
  | _ => None
  end.

(** All of [s] read as decimal digits, one at least. *)
Definition someDigits (s : string) : option Z :=
  match s with
  | EmptyString => None
  | _ => digitsVal 0 s
  end.

(** The exponent part of a decimal literal: nothing, or [e] or [E], a sign
    maybe, and digits. *)
Definition exponentPart (s : string) : option Z :=
  match s with
  | EmptyString => Some 0
  | String c t =>
      if Ascii.eqb c "e" || Ascii.eqb c "E" then
        match t with
        | EmptyString => None
        | String d t' =>
            if Ascii.eqb d "-" then Z.opp <$> someDigits t'
            else if Ascii.eqb d "+" then someDigits t'
            else someDigits t
        end
      else None
  end.

(** [m * 10^k] when it is an integer. *)
Definition scaled (m k : Z) : option Z :=
  if 0 <=? k then Some (m * 10 ^ k)
  else if m mod 10 ^ (- k) =? 0 then Some (m / 10 ^ (- k))
  else None.

(** An unsigned decimal literal: digits, a fraction maybe, an exponent
    maybe, with one digit at least before the exponent ([12], [4.0], [5.],
    [.50e1], [1e3]). *)
Definition decimalLiteral (s : string) : option Z :=
  let (whole, r) := spanDigits s in
  let (fraction, r') :=
    match r with
    | String c t => if Ascii.eqb c "." then spanDigits t else (EmptyString, r)
    | EmptyString => (EmptyString, r)
    end in
  if String.eqb whole "" && String.eqb fraction "" then None
  else
    match exponentPart r', digitsVal 0 (whole +:+ fraction) with
    | Some e, Some m => scaled m (e - Z.of_nat (String.length fraction))
    | _, _ => None
    end.

(** [Number(s)]: the value of the numeric literal that [s] is, white space
    around it apart: a decimal literal with a sign maybe, or digits in
    base 16, 8 or 2 after [0x], [0o] or [0b].  [None] stands for [NaN], and
    also for a literal whose value is no integer ([4.5], [Infinity]), which
    the numbers of [JsVal] do not have. *)
Definition strToNumber (s : string) : option Z :=
  match trim s with
  | EmptyString => Some 0
  | String c t as u =>
      if Ascii.eqb c "-" then Z.opp <$> decimalLiteral t
      else if Ascii.eqb c "+" then decimalLiteral t
      else
        match radixPrefix u with
        | Some (b, ds) =>
            match ds with
            | EmptyString => None
            | _ => radixDigits b 0 ds
            end
        | None => decimalLiteral u
        end
  end.

(** [Number(v)]; [None] stands for [NaN]. *)
Definition toNumber (v : JsVal) : option Z :=
  match v with
  | JUndef | JNaN | JObj _ => None
  | JNull => Some 0
  | JBool b => Some (if b then 1 else 0)
  | JNum n => Some n
  | JStr s => strToNumber s
  end.

Definition ofNumber (o : option Z) : JsVal :=
  match o with Some n => JNum n | None => JNaN end.

(** The longest prefix of hexadecimal digits of [s]; [None] when it is
    empty. *)
Fixpoint hexPrefix (acc : option Z) (s : string) : option Z :=
  match s with
  | EmptyString => acc
  | String c s' =>
      match hexVal c with
      | Some d => hexPrefix (Some (16 * default 0 acc + d)) s'
      | None => acc
      end
  end.

(** The integer at the start of [s], after the sign: in base sixteen after
    [0x] or [0X], in base ten otherwise. *)
Definition integerPrefix (s : string) : option Z :=
  match s with
  | String a (String b t) =>
      if Ascii.eqb a "0" && (Ascii.eqb b "x" || Ascii.eqb b "X") then hexPrefix None t
      else digitPrefix None s
  | _ => digitPrefix None s
  end.

(** [parseInt(v)] *)
Definition parseInt (v : JsVal) : JsVal :=
  match trimStart (toStr v) with
  | EmptyString => JNaN
  | String c t as u =>
      if Ascii.eqb c "-" then ofNumber (Z.opp <$> integerPrefix t)
      else if Ascii.eqb c "+" then ofNumber (integerPrefix t)
      else ofNumber (integerPrefix u)
  end.

(** [a > b] on values: both sides are converted to numbers, a comparison
    with [NaN] is false.  (The services only compare with the number 0.) *)
Definition jsGt (a b : JsVal) : bool :=
  match toNumber a, toNumber b with
  | Some x, Some y => y <? x
  | _, _ => false
  end.

(** [2 ** k] for [k] at least 0, and 1 below. *)
Definition pow2 (k : Z) : Z := 2 ^ Z.max k 0.

(** The double nearest to [p / q] (ties to the even mantissa) for positive
    [p] and [q]: the pair [(m, k)] stands for [m * 2 ** k], with a mantissa
    of 53 bits.  (Overflow and subnormal numbers are outside the model.) *)
Definition nearestDouble (p q : Z) : Z * Z :=
  let b := Z.log2 p - Z.log2 q in
  let exponent := if p * pow2 (- b) >=? q * pow2 b then b else b - 1 in
  let k := exponent - 52 in
  let num := p * pow2 (- k) in
  let den := q * pow2 k in
  let m := num / den in
  let rest := 2 * (num mod den) in
  (if (rest >? den) || ((rest =? den) && Z.odd m) then m + 1 else m, k).

(** The result of an arithmetic operation: a double, held as the exact
    fraction [(n, d)] with [d] a power of two. *)
Definition Double : Type := (Z * Z)%type.

(** [p / q] on integers, [q] not 0. *)
Definition quotient (p q : Z) : Double :=
  if p =? 0 then (0, 1)
  else
    let '(m, k) := nearestDouble (Z.abs p) (Z.abs q) in
    (Z.sgn p * Z.sgn q * m * pow2 k, pow2 (- k)).

(** [x * 100] *)
Definition times100 (x : Double) : Double := quotient (100 * fst x) (snd x).

(** [Math.round(x)]: the nearest integer, the larger one on a tie. *)
Definition mathRound (x : Double) : Z := (2 * fst x + snd x) / (2 * snd x).

(** [Math.round((p / q) * 100)] on integers; the quotient by zero, an
    infinity or [NaN] in JavaScript, is [None]. *)
Definition roundPercentZ (p q : Z) : option Z :=
  if q =? 0 then None else Some (mathRound (times100 (quotient p q))).

(** [Math.round((a / b) * 100)] on values; [NaN] propagates from the
    operands, [None] is the quotient by zero. *)
Definition roundPercent (a b : JsVal) : option JsVal :=
  match toNumber a, toNumber b with
  | Some x, Some y => JNum <$> roundPercentZ x y
  | _, _ => Some JNaN
  end.

(** [a + b]: concatenation when a side is a string or an object, the sum
    of the two numbers otherwise.  (The sum is the exact one: the doubles
    of JavaScript give it as long as it stays below [2 ** 53], and round it
    beyond.) *)
Definition jsAdd (a b : JsVal) : JsVal :=
  match a, b with
  | (JStr _ | JObj _), _ | _, (JStr _ | JObj _) => JStr (toStr a +:+ toStr b)
  | _, _ =>
      match toNumber a, toNumber b with
      | Some x, Some y => JNum (x + y)
      | _, _ => JNaN
      end
  end.

(** [x.toFixed(1)]: of the tenths nearest to the magnitude of [x] the
    nearer is taken, the larger on a tie.  (A number of 10 ** 21 or more,
    printed with an exponent, is outside the model.) *)
Definition toFixed1 (x : Double) : string :=
  let tenths := (20 * Z.abs (fst x) + snd x) / (2 * snd x) in
  (if fst x <? 0 then "-" else "") +:+ pretty (tenths / 10) +:+ "." +:+ pretty (tenths mod 10).

(** [(v / 1000000).toFixed(1)] *)
Definition millions (v : JsVal) : string :=
  match toNumber v with
  | Some n => toFixed1 (quotient n 1000000)
  | None => "NaN"
  end.

(** [s.slice(0, -1)] *)
Fixpoint dropLast (s : string) : string :=
  match s with
  | EmptyString => EmptyString
  | String c EmptyString => EmptyString
  | String c s' => String c (dropLast s')
  end.

(** *** Errors *)

Inductive JsError : Type :=
| Error (message : string)
| TypeError (message : string)
| RangeError (message : string)
| SyntaxError (message : string).

Definition errMessage (e : JsError) : string :=
  match e with
  | Error m | TypeError m | RangeError m | SyntaxError m => m
  end.

(** [new Error(v)]: the message is [''] for [undefined], [String(v)] else. *)
Definition newError (v : JsVal) : JsError :=
  match v with
  | JUndef => Error ""
  | _ => Error (toStr v)
  end.

End Js.
Export Js.

(* ===================================================================== *)
(** ** Dates *)
(* ===================================================================== *)

Module Dates.

(** An instant is a number of milliseconds since the epoch; a [Date] object
    is an instant or the invalid date (time value [NaN]). *)
Definition Instant : Type := Z.
Definition JsDate : Type := option Instant.

Definition DAY : Z := 24 * 60 * 60 * 1000.

(** The time values of a [Date] lie within 100,000,000 days of the epoch. *)
Definition maxTime : Z := 8640000000000000.

(** [new Date(t)] on a number: the invalid date outside the range. *)
Definition timeClip (t : Z) : option Instant :=
  if Z.abs t <=? maxTime then Some t else None.

(** What the services use of the runtime's [Date]: parsing, the ISO form
    (always UTC) and the forms and calendar fields of the local time zone. *)
Record DateRuntime : Type := {
  dateParse : string -> option Instant;   (* [new Date(s)] on a string *)
  toISOString : Instant -> string;        (* [d.toISOString()] *)
  toDateString : Instant -> string;       (* [d.toDateString()] *)
  toLocaleShort : Instant -> string;      (* [d.toLocaleDateString('en-US', {month: 'short', day: 'numeric'})] *)
  toLocaleDateString : Instant -> string; (* [d.toLocaleDateString()], in the locale of the machine *)
  localMidnight : Instant -> Instant;     (* [new Date(d.getFullYear(), d.getMonth(), d.getDate())], [d.setHours(0, 0, 0, 0)] *)
  endOfLocalDay : Instant -> Instant;     (* [d.setHours(23, 59, 59, 999)] *)
  addLocalDays : Instant -> Z -> Instant; (* [d.setDate(d.getDate() + n)] *)
  getFullYear : Instant -> Z              (* [d.getFullYear()] *)
}.

(** [new Date(v)] *)
Definition newDate (rt : DateRuntime) (v : JsVal) : JsDate :=
  match v with
  | JUndef | JNaN | JObj _ => None
  | JNull => Some 0
  | JBool b => Some (if b then 1 else 0)
  | JNum n => timeClip n
  | JStr s => dateParse rt s
  end.

(** [d.toDateString()], also on the invalid date. *)
Definition dateString (rt : DateRuntime) (d : JsDate) : string :=
  match d with
  | Some t => toDateString rt t
  | None => "Invalid Date"
  end.

(** [d.toLocaleDateString()], also on the invalid date. *)
Definition localeDateString (rt : DateRuntime) (d : JsDate) : string :=
  match d with
  | Some t => toLocaleDateString rt t
  | None => "Invalid Date"
  end.

(** [d >= e] on dates; false when [d] is invalid. *)
Definition dateGe (d : JsDate) (e : Instant) : bool :=
  match d with
  | Some t => e <=? t
  | None => false
  end.

(** The part of an ISO string before the ['T']. *)
Definition isoDatePart (s : string) : string := beforeChar "T" s.

(** *** The runtime of a machine in the UTC time zone, locale [en-US] *)

(** Days since the epoch to proleptic Gregorian year, month, day. *)
Definition civilFromDays (z0 : Z) : Z * Z * Z :=
  let z := z0 + 719468 in
  let era := z / 146097 in
  let doe := z - era * 146097 in
  let yoe := (doe - doe / 1460 + doe / 36524 - doe / 146096) / 365 in
  let doy := doe - (365 * yoe + yoe / 4 - yoe / 100) in
  let mp := (5 * doy + 2) / 153 in
  let d := doy - (153 * mp + 2) / 5 + 1 in
  let m := if mp <? 10 then mp + 3 else mp - 9 in
  let y := yoe + era * 400 + (if m <=? 2 then 1 else 0) in
  (y, m, d).

Definition daysFromCivil (y0 m d : Z) : Z :=
  let y := if m <=? 2 then y0 - 1 else y0 in
  let era := y / 400 in
  let yoe := y - era * 400 in
  let doy := (153 * (if 2 <? m then m - 3 else m + 9) + 2) / 5 + d - 1 in
  let doe := yoe * 365 + yoe / 4 - yoe / 100 + doy in
  era * 146097 + doe - 719468.

Definition pad2 (n : Z) : string :=
  if n <? 10 then "0" +:+ pretty n else pretty n.
Definition pad3 (n : Z) : string :=
  if n <? 10 then "00" +:+ pretty n
  else if n <? 100 then "0" +:+ pretty n else pretty n.
Definition pad4 (n : Z) : string :=
  if n <? 10 then "000" +:+ pretty n
  else if n <? 100 then "00" +:+ pretty n
  else if n <? 1000 then "0" +:+ pretty n else pretty n.

Definition utcISODate (t : Instant) : string :=
  let '(y, m, d) := civilFromDays (t / DAY) in
  pad4 y +:+ "-" +:+ pad2 m +:+ "-" +:+ pad2 d.

Definition utcISOString (t : Instant) : string :=
  let ms := t mod DAY in
  utcISODate t +:+ "T" +:+ pad2 (ms / 3600000) +:+ ":" +:+
  pad2 (ms / 60000 mod 60) +:+ ":" +:+ pad2 (ms / 1000 mod 60) +:+ "." +:+
  pad3 (ms mod 1000) +:+ "Z".

Definition monthName (m : Z) : string :=
  nth (Z.to_nat (m - 1))
    ["Jan"; "Feb"; "Mar"; "Apr"; "May"; "Jun"; "Jul"; "Aug"; "Sep"; "Oct"; "Nov"; "Dec"] "".

Definition weekdayName (days : Z) : string :=
  nth (Z.to_nat ((days + 4) mod 7)) ["Sun"; "Mon"; "Tue"; "Wed"; "Thu"; "Fri"; "Sat"] "".

Definition utcDateString (t : Instant) : string :=
  let '(y, m, d) := civilFromDays (t / DAY) in
  weekdayName (t / DAY) +:+ " " +:+ monthName m +:+ " " +:+ pad2 d +:+ " " +:+ pad4 y.

Definition utcLocaleShort (t : Instant) : string :=
  let '(y, m, d) := civilFromDays (t / DAY) in
  monthName m +:+ " " +:+ pretty d.

Definition utcLocaleDateString (t : Instant) : string :=
  let '(y, m, d) := civilFromDays (t / DAY) in
  pretty m +:+ "/" +:+ pretty d +:+ "/" +:+ pretty y.

(** Two, three or four decimal digits at a position of a string. *)
Definition digitsAt (pos len : nat) (s : string) : option Z :=
  let u := String.substring pos len s in
  if (String.length u =? len)%nat then digitsVal 0 u else None.

Definition charAt (pos : nat) (s : string) : string := String.substring pos 1 s.

(** The ISO forms [YYYY-MM-DD], [YYYY-MM-DDTHH:mm:ssZ] and
    [YYYY-MM-DDTHH:mm:ss.sssZ]; every other string is an invalid date. *)
Definition utcParse (s : string) : option Instant :=
  y ← digitsAt 0 4 s;
  m ← digitsAt 5 2 s;
  d ← digitsAt 8 2 s;
  if negb (String.eqb (charAt 4 s) "-" && String.eqb (charAt 7 s) "-"
           && (1 <=? m) && (m <=? 12) && (1 <=? d) && (d <=? 31)) then None
  else
    let day := daysFromCivil y m d * DAY in
    if (String.length s =? 10)%nat then Some day
    else
      hh ← digitsAt 11 2 s;
      mi ← digitsAt 14 2 s;
      ss ← digitsAt 17 2 s;
      if negb (String.eqb (charAt 10 s) "T" && String.eqb (charAt 13 s) ":"
               && String.eqb (charAt 16 s) ":"
               && (hh <=? 23) && (mi <=? 59) && (ss <=? 59)) then None
      else
        let secs := day + hh * 3600000 + mi * 60000 + ss * 1000 in
        if String.eqb (String.substring 19 5 s) "Z" then Some secs
        else
          ms ← digitsAt 20 3 s;
          if String.eqb (charAt 19 s) "." && String.eqb (String.substring 23 5 s) "Z"
          then Some (secs + ms) else None.

Definition utcRuntime : DateRuntime := {|
  dateParse := utcParse;
  toISOString := utcISOString;
  toDateString := utcDateString;
  toLocaleShort := utcLocaleShort;
  toLocaleDateString := utcLocaleDateString;
  localMidnight := fun t => t - t mod DAY;
  endOfLocalDay := fun t => t - t mod DAY + DAY - 1;
  addLocalDays := fun t n => t + n * DAY;
  getFullYear := fun t => fst (fst (civilFromDays (t / DAY)))
|}.

End Dates.
Export Dates.

(* ===================================================================== *)
(** ** The record-store client and the effects of a service call *)
(* ===================================================================== *)

Module Backend.

Inductive Operator : Type :=
| EqualTo | NotEqualTo | Contains
| LessThan | LessThanOrEqualTo | GreaterThanOrEqualTo.

(** One entry of [where]: [{FieldName, Operator, Values}]. *)
Record Filter : Type := {
  FieldName : string;
  Op : Operator;
  Values : list JsVal
}.

Inductive SortType : Type := ASC | DESC.

(** The second argument of [fetchRecords] and [getRecordById]; [where_] is
    [None] when the key is missing or [undefined]. *)
Record Params : Type := {
  fields : list string;
  where_ : option (list Filter);
  orderBy : list (string * SortType)
}.

(** One entry of [response.results]. *)
Record RowResult : Type := {
  r_success : bool;
  r_data : option Rec;
  r_message : JsVal
}.

(** The envelope [{success, data, results, message}]; [data] is an array of
    records for [fetchRecords] and one record for [getRecordById]; a key
    that is missing, [undefined] or [null] is [None]. *)
Record Response (D : Type) : Type := {
  success : bool;
  data : option D;
  results : option (list RowResult);
  message : JsVal
}.
Arguments success {D} _.
Arguments data {D} _.
Arguments results {D} _.
Arguments message {D} _.

(** The result of running JavaScript code: a value or a thrown error. *)
Inductive Outcome (A : Type) : Type :=
| Return (a : A)
| Throw (e : JsError).
Arguments Return {A} a.
Arguments Throw {A} e.

(** The client of the record store, over a backend state [S].  A call that
    rejects, or that resolves to no envelope at all (the services read
    [response.success] at once), is a [Throw]. *)
Record Client (S : Type) : Type := {
  fetchRecords : string -> Params -> S -> Outcome (Response (list Rec)) * S;
  getRecordById : string -> JsVal -> Params -> S -> Outcome (Response Rec) * S;
  createRecord : string -> list Rec -> S -> Outcome (Response unit) * S;
  updateRecord : string -> list Rec -> S -> Outcome (Response unit) * S;
  deleteRecord : string -> list JsVal -> S -> Outcome (Response unit) * S
}.
Arguments fetchRecords {S} _ _ _ _.
Arguments getRecordById {S} _ _ _ _ _.
Arguments createRecord {S} _ _ _ _.
Arguments updateRecord {S} _ _ _ _.
Arguments deleteRecord {S} _ _ _ _.

(** The calls a service makes, with their arguments. *)
Inductive Call : Type :=
| CFetch (entity : string) (p : Params)
| CGet (entity : string) (id : JsVal) (p : Params)
| CCreate (entity : string) (records : list Rec)
| CUpdate (entity : string) (records : list Rec)
| CDelete (entity : string) (ids : list JsVal).

(** What a service call can observe and change: the backend, the clock
    (taken as constant during one call; it is the time that [new Date()]
    gives, and the dates that the services compute from it, a few days or
    weeks away, are dates of the range), the [console.error] lines in the
    order written, and the calls made to the client in the order made. *)
Record World (S : Type) : Type := {
  backend : S;
  clock : Instant;
  console : list (string * JsVal);
  history : list Call
}.
Arguments backend {S} _.
Arguments clock {S} _.
Arguments console {S} _.
Arguments history {S} _.

Definition M (S A : Type) : Type := World S -> Outcome A * World S.

Section Monad.
Context {S : Type}.

Definition ret {A} (a : A) : M S A := fun w => (Return a, w).

Definition bind {A B} (m : M S A) (k : A -> M S B) : M S B :=
  fun w =>
    match m w with
    | (Return a, w') => k a w'
    | (Throw e, w') => (Throw e, w')
    end.

(** [throw e] *)
Definition throw {A} (e : JsError) : M S A := fun w => (Throw e, w).

(** [try { body } catch (error) { handler }] *)
Definition tryCatch {A} (body : M S A) (handler : JsError -> M S A) : M S A :=
  fun w =>
    match body w with
    | (Return a, w') => (Return a, w')
    | (Throw e, w') => handler e w'
    end.

(** [console.error(label, v)] *)
Definition consoleError (label : string) (v : JsVal) : M S unit :=
  fun w => (Return tt,
            {| backend := backend w; clock := clock w;
               console := console w ++ [(label, v)]; history := history w |}).

(** [new Date()] *)
Definition newDateNow : M S Instant := fun w => (Return (clock w), w).

(** [await simulateAPICall(delay)]: a pause, nothing else. *)
Definition simulateAPICall (delay : Z) : M S unit := ret tt.

(** [await apperClient.f(...)]: the call is recorded, the backend moves. *)
Definition perform {A} (c : Call) (f : S -> Outcome A * S) : M S A :=
  fun w =>
    let '(o, s') := f (backend w) in
    (o, {| backend := s'; clock := clock w;
           console := console w; history := history w ++ [c] |}).

(** [for (const x of l) { body }] with an accumulator. *)
Fixpoint forOf {A B} (l : list A) (acc : B) (body : B -> A -> M S B) : M S B :=
  match l with
  | [] => ret acc
  | x :: l' => bind (body acc x) (fun acc' => forOf l' acc' body)
  end.
End Monad.

Declare Scope js_scope.
Delimit Scope js_scope with js.
Notation "x <- m ;; k" := (bind m (fun x => k))
  (at level 100, m at next level, right associativity) : js_scope.
Notation "m ;; k" := (bind m (fun _ => k))
  (at level 100, right associativity) : js_scope.

Section Calls.
Context {S : Type} (client : Client S).

Definition callFetch (entity : string) (p : Params) : M S (Response (list Rec)) :=
  perform (CFetch entity p) (fetchRecords client entity p).
Definition callGet (entity : string) (id : JsVal) (p : Params) : M S (Response Rec) :=
  perform (CGet entity id p) (getRecordById client entity id p).
Definition callCreate (entity : string) (records : list Rec) : M S (Response unit) :=
  perform (CCreate entity records) (createRecord client entity records).
Definition callUpdate (entity : string) (records : list Rec) : M S (Response unit) :=
  perform (CUpdate entity records) (updateRecord client entity records).
Definition callDelete (entity : string) (ids : list JsVal) : M S (Response unit) :=
  perform (CDelete entity ids) (deleteRecord client entity ids).
End Calls.

(** [x.length] on an array that may be [undefined]: a [TypeError] then. *)
Definition required {S A} (what : string) (o : option A) : M S A :=
  match o with
  | Some a => ret a
  | None => throw (TypeError ("Cannot read properties of undefined (" +:+ what +:+ ")"))
  end.

(** [d.toISOString()]: a [RangeError] on the invalid date, which a date
    computed out of the range of dates is as well. *)
Definition isoOf {S} (rt : DateRuntime) (d : JsDate) : M S string :=
  match d with
  | Some t =>
      match timeClip t with
      | Some t' => ret (toISOString rt t')
      | None => throw (RangeError "Invalid time value")
      end
  | None => throw (RangeError "Invalid time value")
  end.

(** [s.m()] for a method of strings: a [TypeError] on any other value. *)
Definition stringMethod {S} (m : string) (f : string -> string) (v : JsVal) : M S string :=
  match v with
  | JStr s => ret (f s)
  | _ => throw (TypeError (m +:+ " is not a function"))
  end.

(** [l.map(f)] for a callback that may throw. *)
Fixpoint mapM {S A B} (f : A -> M S B) (l : list A) : M S (list B) :=
  match l with
  | [] => ret []
  | x :: l' => bind (f x) (fun y => bind (mapM f l') (fun ys => ret (y :: ys)))
  end.

(** [if (updates.k !== undefined) recordData.c = updates.k] *)
Definition whenDefined (updates : Rec) (k c : string) : Rec :=
  match prop updates k with
  | JUndef => []
  | v => [(c, v)]
  end.

(** [response.data && response.data.length > 0] *)
Definition hasRows (d : option (list Rec)) : bool :=
  match d with
  | Some l => (0 <? length l)%nat
  | None => false
  end.

(** A parameter with a default value: the default replaces [undefined]. *)
Definition orDefault (v d : JsVal) : JsVal :=
  match v with JUndef => d | _ => v end.

(** [response.success ? response.data : []] *)
Definition rowsOrEmpty (response : Response (list Rec)) : option (list Rec) :=
  if success response then data response else Some [].

(** The calls made to the client between two worlds of one run. *)
Definition callsSince {S} (w w' : World S) : list Call :=
  drop (length (history w)) (history w').

(** The lines written to the console between two worlds of one run. *)
Definition linesSince {S} (w w' : World S) : list (string * JsVal) :=
  drop (length (console w)) (console w').

(** A computation that writes nothing to the console. *)
Definition quiet {S A} (m : M S A) : Prop :=
  forall w o w', m w = (o, w') -> console w' = console w.

(** A computation that either writes one line and returns [dflt], or throws
    and writes nothing. *)
Definition failsSoftly {S A} (dflt : A) (m : M S A) : Prop :=
  forall w, exists o w',
    m w = (o, w')
    /\ ((o = Return dflt /\ exists line, console w' = console w ++ [line])
        \/ ((exists e, o = Throw e) /\ console w' = console w)).

(** A computation that throws in every world. *)
Definition throws {S A} (m : M S A) : Prop :=
  forall w, exists e w', m w = (Throw e, w').

(** [{fields: [{field: {Name: f}}, ...]}] *)
Definition fieldsOnly (fs : list string) : Params :=
  {| fields := fs; where_ := None; orderBy := [] |}.

Definition initialWorld {S} (s : S) (now : Instant) : World S :=
  {| backend := s; clock := now; console := []; history := [] |}.

End Backend.
Export Backend.

(* ===================================================================== *)
(** ** Objects used as dictionaries, and sorting *)
(* ===================================================================== *)

Module Collections.

(** The own properties of an object that the code fills key by key, in
    insertion order. *)
Definition Dict (A : Type) : Type := list (string * A).

(** The names that a plain object [{}] inherits from [Object.prototype]:
    [o[k]] is a function for each of them, and [Object.prototype] itself
    for [__proto__], whether [o] has properties of its own or not. *)
Definition objectPrototypeKeys : list string :=
  [ "constructor"; "__defineGetter__"; "__defineSetter__"; "hasOwnProperty";
    "__lookupGetter__"; "__lookupSetter__"; "isPrototypeOf"; "propertyIsEnumerable";
    "toString"; "valueOf"; "__proto__"; "toLocaleString" ].

Definition inherited (k : string) : bool :=
  existsb (String.eqb k) objectPrototypeKeys.

(** [o[k]], [None] for [undefined]. *)
Fixpoint dictGet {A} (o : Dict A) (k : string) : option A :=
  match o with
  | [] => None
  | (k', v) :: o' => if String.eqb k' k then Some v else dictGet o' k
  end.

(** The truthiness of [o[k]] for an object of objects. *)
Definition present {A} (o : option A) : bool :=
  match o with Some _ => true | None => false end.

(** [o[k] = v]: an existing key keeps its place. *)
Fixpoint dictSet {A} (o : Dict A) (k : string) (v : A) : Dict A :=
  match o with
  | [] => [(k, v)]
  | (k', v') :: o' =>
      if String.eqb k' k then (k', v) :: o' else (k', v') :: dictSet o' k v
  end.

(** [a.sort(cmp)]: the sort is stable; [cmp x y <= 0] keeps [x] before [y].
    An insertion sort, from the right. *)
Fixpoint insertBy {A} (cmp : A -> A -> Z) (x : A) (l : list A) : list A :=
  match l with
  | [] => [x]
  | y :: l' => if cmp x y <=? 0 then x :: y :: l' else y :: insertBy cmp x l'
  end.

Fixpoint jsSort {A} (cmp : A -> A -> Z) (l : list A) : list A :=
  match l with
  | [] => []
  | x :: l' => insertBy cmp x (jsSort cmp l')
  end.

(** The comparator [(a, b) => key(b) - key(a)]. *)
Definition descending {A} (key : A -> nat) (a b : A) : Z :=
  Z.of_nat (key b) - Z.of_nat (key a).

(** A list whose keys never increase from left to right. *)
Definition nonIncreasing {A} (key : A -> nat) : list A -> Prop :=
  StronglySorted (fun a b => (key b <= key a)%nat).

(** A key that is a canonical array index ([0], [1], ..., below [2^32 - 1]):
    such keys are listed first, in ascending order. *)
Definition arrayIndex (k : string) : option Z :=
  match k with
  | EmptyString => None
  | _ =>
      match digitsVal 0 k with
      | Some n => if String.eqb (pretty n) k && (n <? 4294967295) then Some n else None
      | None => None
      end
  end.

Definition isIndexKey {A} (e : string * A) : bool :=
  match arrayIndex (fst e) with Some _ => true | None => false end.

Definition indexOf {A} (e : string * A) : Z := default 0 (arrayIndex (fst e)).

(** The own properties in the order of [Object.keys]. *)
Definition ownEntries {A} (o : Dict A) : Dict A :=
  jsSort (fun a b => indexOf a - indexOf b) (List.filter isIndexKey o)
  ++ List.filter (fun e => negb (isIndexKey e)) o.

(** [Object.values(o)] *)
Definition objectValues {A} (o : Dict A) : list A := map snd (ownEntries o).

(** The value of a property of an object of counters: a number, or a
    text.  [acc[k]] for a name [k] inherited from [Object.prototype] is a
    function, and [(acc[k] || 0) + 1] is then the text of that function
    followed by [1]; [Text k ones] is [String(Object.prototype[k])]
    followed by [ones] characters [1]. *)
Inductive Counter : Type :=
| Count (n : nat)
| Text (k : string) (ones : nat).

(** [acc[k] = (acc[k] || 0) + 1] on a plain object of counters.  The
    assignment to [__proto__] of a value that is no object changes
    nothing. *)
Definition bump (acc : Dict Counter) (k : string) : Dict Counter :=
  if String.eqb k "__proto__" then acc
  else
    match dictGet acc k with
    | Some (Count n) => dictSet acc k (Count (n + 1))
    | Some (Text m ones) => dictSet acc k (Text m (ones + 1))
    | None => dictSet acc k (if inherited k then Text k 1 else Count 1)
    end.

(** The number held by a counter, 0 for a text. *)
Definition countOf (c : Counter) : nat :=
  match c with
  | Count n => n
  | Text _ _ => 0
  end.

Definition isCount (c : Counter) : bool :=
  match c with
  | Count _ => true
  | Text _ _ => false
  end.

(** What [n] increments leave under a key that is not inherited: nothing
    when there is none, the number [n] otherwise. *)
Definition counterOf (n : nat) : option Counter :=
  match n with
  | O => None
  | _ => Some (Count n)
  end.

(** The sum of the counters of an object. *)
Definition totalCount (acc : Dict Counter) : nat :=
  list_sum (map (fun e => countOf (snd e)) acc).

End Collections.
Export Collections.

(* ===================================================================== *)
(** ** leadsService.js *)
(* ===================================================================== *)

Module LeadsService.

(** The result of [getLeads]. *)
Record LeadsResult : Type := {
  leads : list Rec;
  deduplicationResult : JsVal
}.

(** One group of the daily report. *)
Record RepReport : Type := {
  salesRep : JsVal;
  salesRepId : JsVal;
  repLeads : list Rec;        (* [leads] *)
  leadCount : nat;
  lowPerformance : bool
}.

Definition leadFields : list string :=
  ["Name"; "website_url_c"; "team_size_c"; "arr_c"; "category_c"; "linkedin_url_c";
   "status_c"; "funding_type_c"; "edition_c"; "follow_up_date_c"; "added_by_c";
   "created_at_c"].

(** [params] of [getLeads]. *)
Definition getLeadsParams : Params :=
  {| fields := leadFields; where_ := None; orderBy := [("created_at_c", DESC)] |}.

(** The object literal that [getLeads], [getLeadById] and [updateLead] build
    from a record of the store; [nowIso] is [new Date().toISOString()]. *)
Definition leadView (nowIso : string) (lead : Rec) : Rec :=
  [ ("Id", prop lead "Id");
    ("websiteUrl", jsOr (prop lead "website_url_c") (JStr ""));
    ("teamSize", jsOr (prop lead "team_size_c") (JStr "1-3"));
    ("arr", jsOr (prop lead "arr_c") (JNum 0));
    ("category", jsOr (prop lead "category_c") (JStr ""));
    ("linkedinUrl", jsOr (prop lead "linkedin_url_c") (JStr ""));
    ("status", jsOr (prop lead "status_c") (JStr "Keep an Eye"));
    ("fundingType", jsOr (prop lead "funding_type_c") (JStr "Bootstrapped"));
    ("edition", jsOr (prop lead "edition_c") (JStr "Select Edition"));
    ("followUpDate", jsOr (prop lead "follow_up_date_c") JNull);
    ("addedBy", jsOr (optProp (prop lead "added_by_c") "Id") (prop lead "added_by_c"));
    ("addedByName", jsOr (optProp (prop lead "added_by_c") "Name") (JStr "Unknown"));
    ("createdAt", jsOr (prop lead "created_at_c") (JStr nowIso)) ].

(** The object literal that [createLead] returns. *)
Definition createdLeadView (nowIso : string) (leadData createdLead : Rec) : Rec :=
  [ ("Id", prop createdLead "Id");
    ("websiteUrl", jsOr (prop createdLead "website_url_c") (prop leadData "websiteUrl"));
    ("teamSize", jsOr (prop createdLead "team_size_c") (prop leadData "teamSize"));
    ("arr", jsOr (prop createdLead "arr_c") (prop leadData "arr"));
    ("category", jsOr (prop createdLead "category_c") (prop leadData "category"));
    ("linkedinUrl", jsOr (prop createdLead "linkedin_url_c") (prop leadData "linkedinUrl"));
    ("status", jsOr (prop createdLead "status_c") (prop leadData "status"));
    ("fundingType", jsOr (prop createdLead "funding_type_c") (prop leadData "fundingType"));
    ("edition", jsOr (prop createdLead "edition_c") (prop leadData "edition"));
    ("followUpDate", jsOr (prop createdLead "follow_up_date_c") (prop leadData "followUpDate"));
    ("addedBy", jsOr (optProp (prop createdLead "added_by_c") "Id") (prop createdLead "added_by_c"));
    ("addedByName", jsOr (optProp (prop createdLead "added_by_c") "Name") (JStr "Unknown"));
    ("createdAt", jsOr (prop createdLead "created_at_c") (JStr nowIso)) ].

Definition dquote : string := String (ascii_of_nat 34) EmptyString.

(** [`A lead with website URL "${url}" already exists`] *)
Definition alreadyExistsMessage (url : JsVal) : string :=
  "A lead with website URL " +:+ dquote +:+ toStr url +:+ dquote +:+ " already exists".

(** The query of [createLead] for an existing lead with the same URL. *)
Definition duplicateQuery (websiteUrl : JsVal) : Params :=
  {| fields := ["website_url_c"];
     where_ := Some [ {| FieldName := "website_url_c"; Op := EqualTo;
                         Values := [websiteUrl] |} ];
     orderBy := [] |}.

(** The query of [getFreshLeadsOnly] for earlier records of a URL. *)
Definition earlierQuery (rt : DateRuntime) (today : Instant) (url : JsVal) : Params :=
  {| fields := ["created_at_c"];
     where_ := Some [ {| FieldName := "website_url_c"; Op := EqualTo; Values := [url] |};
                      {| FieldName := "created_at_c"; Op := LessThan;
                         Values := [JStr (isoDatePart (toISOString rt today) +:+ "T00:00:00Z")] |} ];
     orderBy := [] |}.

(** The query of [getDailyLeadsReport] for the leads created today;
    [today] is [new Date().toISOString().split('T')[0]]. *)
Definition todaysLeadsQuery (rt : DateRuntime) (today : string) (tomorrow : Instant) : Params :=
  {| fields := ["Name"; "website_url_c"; "added_by_c"; "created_at_c"];
     where_ := Some
       [ {| FieldName := "created_at_c"; Op := GreaterThanOrEqualTo;
            Values := [JStr (today +:+ "T00:00:00Z")] |};
         {| FieldName := "created_at_c"; Op := LessThan;
            Values := [JStr (isoDatePart (toISOString rt tomorrow) +:+ "T00:00:00Z")] |} ];
     orderBy := [] |}.

(** [{Id: lead.Id, websiteUrl: lead.website_url_c, createdAt: lead.created_at_c}] *)
Definition reportItem (lead : Rec) : Rec :=
  [ ("Id", prop lead "Id");
    ("websiteUrl", prop lead "website_url_c");
    ("createdAt", prop lead "created_at_c") ].

(** [lead.added_by_c?.Name || 'Unknown'] *)
Definition repNameOf (lead : Rec) : JsVal :=
  jsOr (optProp (prop lead "added_by_c") "Name") (JStr "Unknown").

Definition emptyGroup (name id : JsVal) : RepReport :=
  {| salesRep := name; salesRepId := id; repLeads := []; leadCount := 0;
     lowPerformance := false |}.

(** [g.leads.push(item)] *)
Definition pushLead (g : RepReport) (item : Rec) : RepReport :=
  {| salesRep := salesRep g; salesRepId := salesRepId g;
     repLeads := repLeads g ++ [item]; leadCount := leadCount g;
     lowPerformance := lowPerformance g |}.

(** [reportData], a plain object that is filled with groups: [groups] are
    its own properties; [parent] is the group that an assignment to the key
    [__proto__] has made its prototype, [None] as long as the prototype is
    [Object.prototype]. *)
Record ReportData : Type := {
  groups : Dict RepReport;
  parent : option RepReport
}.

(** [reportData[k] = g]: the key [__proto__] sets the prototype and adds no
    property. *)
Definition assign (reportData : ReportData) (k : string) (g : RepReport) : ReportData :=
  if String.eqb k "__proto__" then {| groups := groups reportData; parent := Some g |}
  else {| groups := dictSet (groups reportData) k g; parent := parent reportData |}.

(** What [reportData[k]] is. *)
Inductive Slot : Type :=
| OwnGroup (g : RepReport)      (* a group held under the key *)
| ParentGroup (g : RepReport)   (* [reportData.__proto__] after an assignment to it *)
| ParentLeads                   (* the [leads] array of the prototype group *)
| ParentValue (v : JsVal)       (* another property of the prototype group *)
| Builtin                       (* a member of [Object.prototype]: a function, or the
                                   prototype itself for [__proto__] *)
| Missing.                      (* [undefined] *)

Definition lookup (reportData : ReportData) (k : string) : Slot :=
  match dictGet (groups reportData) k with
  | Some g => OwnGroup g
  | None =>
      match parent reportData with
      | Some g =>
          if String.eqb k "__proto__" then ParentGroup g
          else if String.eqb k "salesRep" then ParentValue (salesRep g)
          else if String.eqb k "salesRepId" then ParentValue (salesRepId g)
          else if String.eqb k "leads" then ParentLeads
          else if String.eqb k "leadCount" then ParentValue (JNum (Z.of_nat (leadCount g)))
          else if String.eqb k "lowPerformance" then ParentValue (JBool (lowPerformance g))
          else if inherited k then Builtin
          else Missing
      | None => if inherited k then Builtin else Missing
      end
  end.

(** The truthiness of [reportData[k]]. *)
Definition found (slot : Slot) : bool :=
  match slot with
  | OwnGroup _ | ParentGroup _ | ParentLeads | Builtin => true
  | ParentValue v => truthy v
  | Missing => false
  end.

(** [v.leads.push] for a value [v] of the records, which is no array: a
    [TypeError], whatever [v.leads] is. *)
Definition noPush (v : JsVal) : JsError :=
  match optProp v "leads" with
  | JUndef => TypeError "Cannot read properties of undefined (reading 'push')"
  | JNull => TypeError "Cannot read properties of null (reading 'push')"
  | _ => TypeError "reportData[repName].leads.push is not a function"
  end.

(** [reportData[k].leads.push(item)], for a slot that is truthy: only a
    group has a [leads] array. *)
Definition pushInto (reportData : ReportData) (k : string) (item : Rec)
    : Outcome ReportData :=
  match lookup reportData k with
  | OwnGroup g =>
      Return {| groups := dictSet (groups reportData) k (pushLead g item);
                parent := parent reportData |}
  | ParentGroup g =>
      Return {| groups := groups reportData; parent := Some (pushLead g item) |}
  | ParentValue v => Throw (noPush v)
  | ParentLeads | Builtin | Missing =>
      Throw (TypeError "Cannot read properties of undefined (reading 'push')")
  end.

(** [reportData[rep.Name] = {salesRep: rep.Name, salesRepId: rep.Id, ...}] *)
Definition initStep (reportData : ReportData) (rep : Rec) : ReportData :=
  assign reportData (toStr (prop rep "Name"))
    (emptyGroup (prop rep "Name") (prop rep "Id")).

(** [salesReps.forEach(rep => { reportData[rep.Name] = {...} })] *)
Definition initGroups (salesReps : list Rec) : ReportData :=
  fold_left initStep salesReps {| groups := []; parent := None |}.

(** One step of [todaysLeads.forEach(lead => ...)]. *)
Definition addLead (reportData : ReportData) (lead : Rec) : Outcome ReportData :=
  let repName := repNameOf lead in
  if found (lookup reportData (toStr repName)) then
    pushInto reportData (toStr repName) (reportItem lead)
  else if strictEq repName (JStr "Unknown") then
    let reportData' :=
      if found (lookup reportData "Unknown") then reportData
      else assign reportData "Unknown" (emptyGroup (JStr "Unknown") JNull) in
    pushInto reportData' "Unknown" (reportItem lead)
  else Return reportData.

(** [todaysLeads.forEach(lead => ...)]: the first error ends the loop. *)
Fixpoint addLeads (todaysLeads : list Rec) (reportData : ReportData) : Outcome ReportData :=
  match todaysLeads with
  | [] => Return reportData
  | lead :: rest =>
      match addLead reportData lead with
      | Return reportData' => addLeads rest reportData'
      | Throw e => Throw e
      end
  end.

(** [repData.leadCount = repData.leads.length;
     repData.lowPerformance = repData.leadCount < 5] *)
Definition countGroup (g : RepReport) : RepReport :=
  {| salesRep := salesRep g; salesRepId := salesRepId g; repLeads := repLeads g;
     leadCount := length (repLeads g);
     lowPerformance := (length (repLeads g) <? 5)%nat |}.

(** The leads of all the groups of an object, group after group. *)
Definition groupedItems (o : Dict RepReport) : list Rec :=
  flat_map (fun e => repLeads (snd e)) o.

(** The leads of all the entries of a report. *)
Definition reportedItems (report : list RepReport) : list Rec :=
  flat_map repLeads report.

(** The sum of [leadCount] over the entries of a report. *)
Definition totalLeadCount (report : list RepReport) : nat :=
  list_sum (map leadCount report).

(** The condition under which a fetched lead is reported: its rep name is
    the [Name] of a fetched sales rep (as a property key), or it is
    ['Unknown']. *)
Definition namesRep (lead rep : Rec) : bool :=
  String.eqb (toStr (prop rep "Name")) (toStr (repNameOf lead)).

Definition hasGroup (salesReps : list Rec) (lead : Rec) : bool :=
  existsb (namesRep lead) salesReps || strictEq (repNameOf lead) (JStr "Unknown").

(** The leads of one rep name, as the report lists them: the fetched leads
    whose rep name is that name (as a property key), in the order
    fetched. *)
Definition leadsNamed (name : JsVal) (todaysLeads : list Rec) : list Rec :=
  map reportItem
    (List.filter (fun lead => String.eqb (toStr (repNameOf lead)) (toStr name))
       todaysLeads).

(** A lead that makes the report fail: its rep name is a member of
    [Object.prototype] and is not the [Name] of a fetched sales rep. *)
Definition trips (salesReps : list Rec) (lead : Rec) : bool :=
  inherited (toStr (repNameOf lead)) && negb (existsb (namesRep lead) salesReps).

(** A sales rep whose [Name] is not the key [__proto__]. *)
Definition plainRep (rep : Rec) : bool :=
  negb (String.eqb (toStr (prop rep "Name")) "__proto__").

(** Whether [addLead] puts the lead into a group of [o]. *)
Definition keptIn (o : Dict RepReport) (lead : Rec) : bool :=
  present (dictGet o (toStr (repNameOf lead)))
  || strictEq (repNameOf lead) (JStr "Unknown").

(** The keys of [rd] are those of [init] and maybe ['Unknown']: what holds
    of the own properties of [reportData] while the leads are added. *)
Definition sameGroups (init rd : Dict RepReport) : Prop :=
  (forall k, present (dictGet init k) = true -> present (dictGet rd k) = true)
  /\ (forall k, present (dictGet rd k) = true ->
                  present (dictGet init k) = true \/ k = "Unknown").

(** The report computed from the two fetched arrays; the groups are the own
    properties of [reportData]. *)
Definition buildReport (todaysLeads salesReps : list Rec) : Outcome (list RepReport) :=
  match addLeads todaysLeads (initGroups salesReps) with
  | Return reportData =>
      let counted := map (fun e => (fst e, countGroup (snd e))) (groups reportData) in
      Return (jsSort (fun a b => Z.of_nat (length (repLeads b)) - Z.of_nat (length (repLeads a)))
                (objectValues counted))
  | Throw e => Throw e
  end.

Section Service.
Context {S : Type} (client : Client S) (rt : DateRuntime).
Local Open Scope js_scope.

Definition normalizeUrl (url : JsVal) : M S string :=
  if negb (truthy url) then ret ""
  else s <- stringMethod "url.toLowerCase" toLowerCase url ;;
       ret (dropTrailingSlash s).

Definition getLeads : M S LeadsResult :=
  simulateAPICall 400 ;;
  tryCatch
    (response <- callFetch client "lead_c" getLeadsParams ;;
     if negb (success response) then
       consoleError "Failed to fetch leads:" (message response) ;;
       ret {| leads := []; deduplicationResult := JNull |}
     else
       let leads := default [] (data response) in
       now <- newDateNow ;;
       let transformedLeads := map (leadView (toISOString rt now)) leads in
       ret {| leads := transformedLeads; deduplicationResult := JNull |})
    (fun error =>
       consoleError "Error fetching leads:" (JStr (errMessage error)) ;;
       ret {| leads := []; deduplicationResult := JNull |}).

Definition getLeadById (id : JsVal) : M S Rec :=
  simulateAPICall 200 ;;
  tryCatch
    (let params := fieldsOnly leadFields in
     response <- callGet client "lead_c" id params ;;
     if negb (success response) then throw (Error "Lead not found")
     else
       lead <- required "reading 'Id'" (data response) ;;
       now <- newDateNow ;;
       ret (leadView (toISOString rt now) lead))
    (fun error =>
       consoleError "Error fetching lead by ID:" (JStr (errMessage error)) ;;
       throw (Error "Lead not found")).

(** The part of [createLead] after the duplicate check: the record is
    prepared, [createRecord] is called and its response is read. *)
Definition insertLead (leadData : Rec) : M S Rec :=
  let websiteUrl := prop leadData "websiteUrl" in
  name <- stringMethod "leadData.websiteUrl.replace"
            (fun s => dropTrailingSlash (dropScheme s)) websiteUrl ;;
  now <- newDateNow ;;
  let recordData : Rec :=
    [ ("Name", JStr name);
      ("website_url_c", websiteUrl);
      ("team_size_c", jsOr (prop leadData "teamSize") (JStr "1-3"));
      ("arr_c", jsOr (prop leadData "arr") (JNum 0));
      ("category_c", jsOr (prop leadData "category") (JStr "Other"));
      ("linkedin_url_c", jsOr (prop leadData "linkedinUrl") (JStr ""));
      ("status_c", jsOr (prop leadData "status") (JStr "Keep an Eye"));
      ("funding_type_c", jsOr (prop leadData "fundingType") (JStr "Bootstrapped"));
      ("edition_c", jsOr (prop leadData "edition") (JStr "Select Edition"));
      ("follow_up_date_c", jsOr (prop leadData "followUpDate") JNull);
      ("added_by_c", jsOr (prop leadData "addedBy") JNull);
      ("created_at_c", JStr (toISOString rt now)) ] in
  response <- callCreate client "lead_c" [recordData] ;;
  if negb (success response) then
    consoleError "Failed to create lead:" (message response) ;;
    throw (newError (message response))
  else
    match results response with
    | Some (result :: _) =>
        if r_success result then
          createdLead <- required "reading 'Id'" (r_data result) ;;
          now' <- newDateNow ;;
          ret (createdLeadView (toISOString rt now') leadData createdLead)
        else
          throw (newError (jsOr (r_message result) (JStr "Failed to create lead")))
    | _ => throw (Error "No response data received")
    end.

(** [!leadData.websiteUrl || !leadData.websiteUrl.trim()] *)
Definition isBlank (websiteUrl : JsVal) : M S bool :=
  if negb (truthy websiteUrl) then ret true
  else t <- stringMethod "leadData.websiteUrl.trim" trim websiteUrl ;;
       ret (negb (truthy (JStr t))).

Definition createLead (leadData : Rec) : M S Rec :=
  simulateAPICall 300 ;;
  tryCatch
    (let websiteUrl := prop leadData "websiteUrl" in
     blank <- isBlank websiteUrl ;;
     if (blank : bool) then throw (Error "Website URL is required")
     else
       normalizedUrl <- normalizeUrl websiteUrl ;;
       existingResponse <- callFetch client "lead_c" (duplicateQuery websiteUrl) ;;
       if success existingResponse && hasRows (data existingResponse) then
         throw (Error (alreadyExistsMessage websiteUrl))
       else insertLead leadData)
    (fun error =>
       consoleError "Error creating lead:" (JStr (errMessage error)) ;;
       throw error).

Definition updateLead (id : JsVal) (updates : Rec) : M S Rec :=
  simulateAPICall 300 ;;
  tryCatch
    (let recordData : Rec :=
       [("Id", id)]
       ++ whenDefined updates "websiteUrl" "website_url_c"
       ++ whenDefined updates "teamSize" "team_size_c"
       ++ whenDefined updates "arr" "arr_c"
       ++ whenDefined updates "category" "category_c"
       ++ whenDefined updates "linkedinUrl" "linkedin_url_c"
       ++ whenDefined updates "status" "status_c"
       ++ whenDefined updates "fundingType" "funding_type_c"
       ++ whenDefined updates "edition" "edition_c"
       ++ whenDefined updates "followUpDate" "follow_up_date_c"
       ++ whenDefined updates "addedBy" "added_by_c" in
     response <- callUpdate client "lead_c" [recordData] ;;
     if negb (success response) then
       consoleError "Failed to update lead:" (message response) ;;
       throw (newError (message response))
     else
       match results response with
       | Some (result :: _) =>
           if r_success result then
             updatedLead <- required "reading 'Id'" (r_data result) ;;
             now <- newDateNow ;;
             ret (leadView (toISOString rt now) updatedLead)
           else
             throw (newError (jsOr (r_message result) (JStr "Failed to update lead")))
       | _ => throw (Error "No response data received")
       end)
    (fun error =>
       consoleError "Error updating lead:" (JStr (errMessage error)) ;;
       throw error).

(** The result [{success: true}] is [tt]. *)
Definition deleteLead (id : JsVal) : M S unit :=
  simulateAPICall 300 ;;
  tryCatch
    (response <- callDelete client "lead_c" [id] ;;
     if negb (success response) then
       consoleError "Failed to delete lead:" (message response) ;;
       throw (newError (message response))
     else
       match results response with
       | Some (result :: _) =>
           if r_success result then ret tt
           else throw (newError (jsOr (r_message result) (JStr "Failed to delete lead")))
       | _ => ret tt
       end)
    (fun error =>
       consoleError "Error deleting lead:" (JStr (errMessage error)) ;;
       throw error).

Definition getDailyLeadsReport : M S (list RepReport) :=
  simulateAPICall 300 ;;
  tryCatch
    (now <- newDateNow ;;
     let today := isoDatePart (toISOString rt now) in
     let tomorrow := addLocalDays rt now 1 in
     leadsResponse <- callFetch client "lead_c" (todaysLeadsQuery rt today tomorrow) ;;
     salesRepsResponse <- callFetch client "sales_rep_c" (fieldsOnly ["Name"]) ;;
     let todaysLeads := rowsOrEmpty leadsResponse in
     let salesReps := rowsOrEmpty salesRepsResponse in
     salesReps' <- required "reading 'forEach'" salesReps ;;
     todaysLeads' <- required "reading 'forEach'" todaysLeads ;;
     match buildReport todaysLeads' salesReps' with
     | Return report => ret report
     | Throw e => throw e
     end)
    (fun error =>
       consoleError "Error fetching daily leads report:" (JStr (errMessage error)) ;;
       ret []).

Definition getPendingFollowUps : M S (list Rec) :=
  simulateAPICall 300 ;;
  tryCatch
    (now <- newDateNow ;;
     let sevenDaysFromNow := addLocalDays rt now 7 in
     response <- callFetch client "lead_c"
       {| fields := ["Name"; "website_url_c"; "category_c"; "follow_up_date_c"; "added_by_c"];
          where_ := Some
            [ {| FieldName := "follow_up_date_c"; Op := GreaterThanOrEqualTo;
                 Values := [JStr (toISOString rt now)] |};
              {| FieldName := "follow_up_date_c"; Op := LessThanOrEqualTo;
                 Values := [JStr (toISOString rt sevenDaysFromNow)] |} ];
          orderBy := [("follow_up_date_c", ASC)] |} ;;
     if negb (success response) then
       consoleError "Failed to fetch pending follow-ups:" (message response) ;;
       ret []
     else
       let leads := default [] (data response) in
       ret (map (fun lead =>
                   [ ("Id", prop lead "Id");
                     ("websiteUrl", jsOr (prop lead "website_url_c") (JStr ""));
                     ("category", jsOr (prop lead "category_c") (JStr ""));
                     ("followUpDate", prop lead "follow_up_date_c");
                     ("addedBy", jsOr (optProp (prop lead "added_by_c") "Id")
                                      (prop lead "added_by_c"));
                     ("addedByName", jsOr (optProp (prop lead "added_by_c") "Name")
                                          (JStr "Unknown")) ])
                leads))
    (fun error =>
       consoleError "Error fetching pending follow-ups:" (JStr (errMessage error)) ;;
       ret []).

(** [new Date(lead.createdAt || lead.created_at_c).toDateString()
     === today.toDateString()] *)
Definition createdOn (today : Instant) (lead : Rec) : bool :=
  String.eqb
    (dateString rt (newDate rt (jsOr (prop lead "createdAt") (prop lead "created_at_c"))))
    (toDateString rt today).

(** [lead.websiteUrl || lead.website_url_c] *)
Definition urlOf (lead : Rec) : JsVal :=
  jsOr (prop lead "websiteUrl") (prop lead "website_url_c").

(** [!r.success || !r.data || r.data.length === 0] *)
Definition noEarlierRecord (r : Response (list Rec)) : bool :=
  negb (success r) || negb (hasRows (data r)).

(** The body of the loop [for (const lead of todaysLeads)]. *)
Definition keepIfFresh (today : Instant) (freshLeads : list Rec) (lead : Rec)
    : M S (list Rec) :=
  normalizedUrl <- normalizeUrl (urlOf lead) ;;
  existingResponse <- callFetch client "lead_c" (earlierQuery rt today (urlOf lead)) ;;
  if noEarlierRecord existingResponse then ret (freshLeads ++ [lead])
  else ret freshLeads.

Definition getFreshLeadsOnly (leadsArray : list Rec) : M S (list Rec) :=
  simulateAPICall 100 ;;
  tryCatch
    (today <- newDateNow ;;
     let todaysLeads := List.filter (createdOn today) leadsArray in
     forOf todaysLeads [] (keepIfFresh today))
    (fun error =>
       consoleError "Error filtering fresh leads:" (JStr (errMessage error)) ;;
       now <- newDateNow ;;
       ret (List.filter (createdOn now) leadsArray)).
End Service.

End LeadsService.

(* ===================================================================== *)
(** ** analyticsService.js *)
(* ===================================================================== *)

Module AnalyticsService.

Record AnalyticsResult : Type := {
  leads : list Rec;
  totalCount : nat
}.

(** One entry of [chartData]. *)
Record ChartPoint : Type := {
  date : string;
  count : nat;
  formattedDate : string
}.

(** One entry of [series]: [{name, data}]. *)
Record Series : Type := {
  name : string;
  seriesData : list nat
}.

Record Chart : Type := {
  chartData : list ChartPoint;
  categories : list string;
  series : list Series
}.

(** The entry [metrics.today]; [trend] is [None] for the quotient of a
    division by zero. *)
Record TodayMetric : Type := {
  tm_count : nat;
  trend : option Z;
  tm_label : string
}.

(** The entries of [metrics] for the other periods. *)
Record PeriodMetric : Type := {
  pm_count : nat;
  pm_label : string
}.

(** The result of [getLeadsMetrics]: the four entries of [metrics] and the
    three other properties. *)
Record Metrics : Type := {
  today : TodayMetric;
  yesterday : PeriodMetric;
  week : PeriodMetric;
  month : PeriodMetric;
  statusDistribution : Dict Counter;
  categoryDistribution : Dict Counter;
  totalLeads : nat
}.

(** One entry of the result of [getUserPerformance]. *)
Record UserStat : Type := {
  us_Id : JsVal;
  us_name : JsVal;
  leadsContacted : JsVal;
  meetingsBooked : JsVal;
  dealsClosed : JsVal;
  totalRevenue : JsVal;
  us_totalLeads : nat;
  todayLeads : nat;
  weekLeads : nat;
  monthLeads : nat;
  conversionRate : option JsVal   (* [None]: the quotient of a division by zero *)
}.

Definition emptyChart : Chart := {| chartData := []; categories := []; series := [] |}.

Definition defaultMetrics : Metrics :=
  {| today := {| tm_count := 0; trend := Some 0; tm_label := "Today" |};
     yesterday := {| pm_count := 0; pm_label := "Yesterday" |};
     week := {| pm_count := 0; pm_label := "This Week" |};
     month := {| pm_count := 0; pm_label := "This Month" |};
     statusDistribution := [];
     categoryDistribution := [];
     totalLeads := 0 |}.

(** [getDateRange(period)]: [(start, end)]. *)
Definition getDateRange (rt : DateRuntime) (now : Instant) (period : JsVal) : Instant * Instant :=
  let today := localMidnight rt now in
  if strictEq period (JStr "today") then (today, today + 24 * 60 * 60 * 1000)
  else if strictEq period (JStr "yesterday") then (today - 24 * 60 * 60 * 1000, today)
  else if strictEq period (JStr "week") then
    (today - 7 * 24 * 60 * 60 * 1000, today + 24 * 60 * 60 * 1000)
  else if strictEq period (JStr "month") then
    (today - 30 * 24 * 60 * 60 * 1000, today + 24 * 60 * 60 * 1000)
  else (0, now).

(** The two filters on [created_at_c] for a period. *)
Definition periodFilters (rt : DateRuntime) (now : Instant) (period : JsVal) : list Filter :=
  let '(start, end_) := getDateRange rt now period in
  [ {| FieldName := "created_at_c"; Op := GreaterThanOrEqualTo;
       Values := [JStr (toISOString rt start)] |};
    {| FieldName := "created_at_c"; Op := LessThan;
       Values := [JStr (toISOString rt end_)] |} ].

(** The filter on [added_by_c] for a user. *)
Definition userFilter (userId : JsVal) : list Filter :=
  [ {| FieldName := "added_by_c"; Op := EqualTo; Values := [parseInt userId] |} ].

(** [params] of [getLeadsMetrics] for one period. *)
Definition periodParams (rt : DateRuntime) (now : Instant) (userId period : JsVal) : Params :=
  let filters :=
    (if negb (strictEq userId (JStr "all")) then userFilter userId else [])
    ++ (if negb (strictEq period (JStr "all")) then periodFilters rt now period else []) in
  {| fields := ["status_c"; "category_c"; "created_at_c"];
     where_ := Some filters; orderBy := [] |}.

(** [params] of [getDailyLeadsChart]. *)
Definition chartParams (userId : JsVal) : Params :=
  let filters := if negb (strictEq userId (JStr "all")) then userFilter userId else [] in
  {| fields := ["created_at_c"; "added_by_c"]; where_ := Some filters;
     orderBy := [("created_at_c", DESC)] |}.

(** [{...lead, k1: v1, ...}] *)
Definition spreadWith (lead : Rec) (extra : list (string * JsVal)) : Rec :=
  fold_left (fun o kv => dictSet o (fst kv) (snd kv)) extra lead.

Definition analyticsLead (lead : Rec) : Rec :=
  spreadWith lead
    [ ("websiteUrl", prop lead "website_url_c");
      ("teamSize", prop lead "team_size_c");
      ("arr", prop lead "arr_c");
      ("category", prop lead "category_c");
      ("linkedinUrl", prop lead "linkedin_url_c");
      ("status", prop lead "status_c");
      ("fundingType", prop lead "funding_type_c");
      ("edition", prop lead "edition_c");
      ("followUpDate", prop lead "follow_up_date_c");
      ("addedBy", jsOr (optProp (prop lead "added_by_c") "Id") (prop lead "added_by_c"));
      ("addedByName", jsOr (optProp (prop lead "added_by_c") "Name") (JStr "Unknown"));
      ("createdAt", prop lead "created_at_c") ].

(** [yesterdayCount === 0 ? 100
     : Math.round(((todayCount - yesterdayCount) / yesterdayCount) * 100)] *)
Definition todayTrendOf (todayCount yesterdayCount : nat) : option Z :=
  if (yesterdayCount =? 0)%nat then Some 100
  else roundPercentZ (Z.of_nat todayCount - Z.of_nat yesterdayCount)
                     (Z.of_nat yesterdayCount).

(** [all.reduce((acc, lead) => { const k = lead.f || 'Unknown';
     acc[k] = (acc[k] || 0) + 1; return acc }, {})] *)
Definition distribution (field : string) (all : list Rec) : Dict Counter :=
  fold_left
    (fun acc lead => bump acc (toStr (jsOr (prop lead field) (JStr "Unknown"))))
    all [].

(** [rep.meetings_booked_c > 0
     ? Math.round((rep.deals_closed_c / rep.meetings_booked_c) * 100) : 0] *)
Definition conversionRateOf (rep : Rec) : option JsVal :=
  if jsGt (prop rep "meetings_booked_c") (JNum 0) then
    roundPercent (prop rep "deals_closed_c") (prop rep "meetings_booked_c")
  else Some (JNum 0).

(** The entry of [userStats] for one sales rep. *)
Definition userStat (rt : DateRuntime) (now : Instant) (leads : list Rec) (rep : Rec) : UserStat :=
  let userLeads :=
    List.filter
      (fun lead =>
         let addedBy := jsOr (optProp (prop lead "added_by_c") "Id") (prop lead "added_by_c") in
         strictEq addedBy (prop rep "Id"))
      leads in
  let today := localMidnight rt now in
  let weekStart := today - 7 * 24 * 60 * 60 * 1000 in
  let monthStart := today - 30 * 24 * 60 * 60 * 1000 in
  let since (start : Instant) :=
    List.filter (fun lead => dateGe (newDate rt (prop lead "created_at_c")) start) userLeads in
  {| us_Id := prop rep "Id";
     us_name := prop rep "Name";
     leadsContacted := jsOr (prop rep "leads_contacted_c") (JNum 0);
     meetingsBooked := jsOr (prop rep "meetings_booked_c") (JNum 0);
     dealsClosed := jsOr (prop rep "deals_closed_c") (JNum 0);
     totalRevenue := jsOr (prop rep "total_revenue_c") (JNum 0);
     us_totalLeads := length userLeads;
     todayLeads := length (since today);
     weekLeads := length (since weekStart);
     monthLeads := length (since monthStart);
     conversionRate := conversionRateOf rep |}.

(** [userStats.sort((a, b) => b.totalLeads - a.totalLeads)] *)
Definition byTotalLeadsDesc (a b : UserStat) : Z :=
  Z.of_nat (us_totalLeads b) - Z.of_nat (us_totalLeads a).

Section Service.
Context {S : Type} (client : Client S) (rt : DateRuntime).
Local Open Scope js_scope.

Definition getLeadsAnalytics (period userId : JsVal) : M S AnalyticsResult :=
  let period := orDefault period (JStr "all") in
  let userId := orDefault userId (JStr "all") in
  simulateAPICall 300 ;;
  tryCatch
    (now <- newDateNow ;;
     let filters :=
       (if negb (strictEq period (JStr "all")) then periodFilters rt now period else [])
       ++ (if negb (strictEq userId (JStr "all")) then userFilter userId else []) in
     let params := {| fields := LeadsService.leadFields; where_ := Some filters;
                      orderBy := [("created_at_c", DESC)] |} in
     response <- callFetch client "lead_c" params ;;
     if negb (success response) then
       consoleError "Failed to fetch leads for analytics:" (message response) ;;
       ret {| leads := []; totalCount := 0 |}
     else
       let leads := default [] (data response) in
       salesRepsResponse <- callFetch client "sales_rep_c" (fieldsOnly ["Name"]) ;;
       let salesReps := rowsOrEmpty salesRepsResponse in
       let leadsWithRepNames := map analyticsLead leads in
       ret {| leads := leadsWithRepNames; totalCount := length leads |})
    (fun error =>
       consoleError "Error fetching leads analytics:" (JStr (errMessage error)) ;;
       ret {| leads := []; totalCount := 0 |}).

(** [lead.created_at_c ? lead.created_at_c.split('T')[0] : null]; [None]
    is [null]. *)
Definition leadDateOf (lead : Rec) : M S (option string) :=
  let created := prop lead "created_at_c" in
  if truthy created then
    d <- stringMethod "lead.created_at_c.split" isoDatePart created ;;
    ret (Some d)
  else ret None.

(** [leads.filter(lead => leadDate(lead) === dateStr)] *)
Fixpoint dayLeadsOf (dateStr : string) (leads : list Rec) : M S (list Rec) :=
  match leads with
  | [] => ret []
  | lead :: rest =>
      leadDate <- leadDateOf lead ;;
      kept <- dayLeadsOf dateStr rest ;;
      ret (if decide (leadDate = Some dateStr) then lead :: kept else kept)
  end.

(** The loop [for (let i = days - 1; i >= 0; i--)]; [n] is [i + 1], the
    number of iterations that remain.  The date [i] days ago is the
    invalid date when it is out of range, and [toISOString] throws. *)
Fixpoint chartLoop (now : Instant) (leads : list Rec) (n : nat)
    (chartData : list ChartPoint) : M S (list ChartPoint) :=
  match n with
  | O => ret chartData
  | Datatypes.S i =>
      match timeClip (now - Z.of_nat i * 24 * 60 * 60 * 1000) with
      | None => throw (RangeError "Invalid time value")
      | Some date =>
          let dateStr := isoDatePart (toISOString rt date) in
          dayLeads <- dayLeadsOf dateStr leads ;;
          chartLoop now leads i
            (chartData ++ [ {| date := dateStr; count := length dayLeads;
                               formattedDate := toLocaleShort rt date |} ])
      end
  end.

(** [days] is [None] when the argument is left out. *)
Definition getDailyLeadsChart (userId : JsVal) (days : option Z) : M S Chart :=
  let userId := orDefault userId (JStr "all") in
  let days := default 30 days in
  simulateAPICall 400 ;;
  tryCatch
    (now <- newDateNow ;;
     response <- callFetch client "lead_c" (chartParams userId) ;;
     if negb (success response) then
       consoleError "Failed to fetch leads for chart:" (message response) ;;
       ret emptyChart
     else
       let leads := default [] (data response) in
       chartData <- chartLoop now leads (Z.to_nat days) [] ;;
       ret {| chartData := chartData;
              categories := map formattedDate chartData;
              series := [ {| name := "New Leads"; seriesData := map count chartData |} ] |})
    (fun error =>
       consoleError "Error fetching daily leads chart:" (JStr (errMessage error)) ;;
       ret emptyChart).

(** One iteration of [for (const period of periods)]: the value stored in
    [results[period]]. *)
Definition fetchPeriod (userId period : JsVal) : M S (option (list Rec)) :=
  now <- newDateNow ;;
  response <- callFetch client "lead_c" (periodParams rt now userId period) ;;
  ret (rowsOrEmpty response).

Definition getLeadsMetrics (userId : JsVal) : M S Metrics :=
  let userId := orDefault userId (JStr "all") in
  simulateAPICall 250 ;;
  tryCatch
    (r_today <- fetchPeriod userId (JStr "today") ;;
     r_yesterday <- fetchPeriod userId (JStr "yesterday") ;;
     r_week <- fetchPeriod userId (JStr "week") ;;
     r_month <- fetchPeriod userId (JStr "month") ;;
     r_all <- fetchPeriod userId (JStr "all") ;;
     today' <- required "reading 'length'" r_today ;;
     yesterday' <- required "reading 'length'" r_yesterday ;;
     week' <- required "reading 'length'" r_week ;;
     month' <- required "reading 'length'" r_month ;;
     let todayCount := length today' in
     let yesterdayCount := length yesterday' in
     let weekCount := length week' in
     let monthCount := length month' in
     let todayTrend := todayTrendOf todayCount yesterdayCount in
     all <- required "reading 'reduce'" r_all ;;
     let statusCounts := distribution "status_c" all in
     let categoryCounts := distribution "category_c" all in
     ret {| today := {| tm_count := todayCount; trend := todayTrend;
                        tm_label := "Today" |};
            yesterday := {| pm_count := yesterdayCount; pm_label := "Yesterday" |};
            week := {| pm_count := weekCount; pm_label := "This Week" |};
            month := {| pm_count := monthCount; pm_label := "This Month" |};
            statusDistribution := statusCounts;
            categoryDistribution := categoryCounts;
            totalLeads := length all |})
    (fun error =>
       consoleError "Error fetching leads metrics:" (JStr (errMessage error)) ;;
       ret defaultMetrics).

Definition getUserPerformance : M S (list UserStat) :=
  simulateAPICall 300 ;;
  tryCatch
    (salesRepsResponse <- callFetch client "sales_rep_c"
       (fieldsOnly ["Name"; "leads_contacted_c"; "meetings_booked_c"; "deals_closed_c";
                    "total_revenue_c"]) ;;
     if negb (success salesRepsResponse) then
       consoleError "Failed to fetch sales reps:" (message salesRepsResponse) ;;
       ret []
     else
       let salesReps := default [] (data salesRepsResponse) in
       leadsResponse <- callFetch client "lead_c" (fieldsOnly ["added_by_c"; "created_at_c"]) ;;
       let leads := rowsOrEmpty leadsResponse in
       now <- newDateNow ;;
       (* [salesReps.map(rep => ... leads.filter ...)]: [leads] is read in
          the callback, so only when there is a sales rep *)
       userStats <- match salesReps with
                    | [] => ret []
                    | _ => leads' <- required "reading 'filter'" leads ;;
                           ret (map (userStat rt now leads') salesReps)
                    end ;;
       ret (jsSort byTotalLeadsDesc userStats))
    (fun error =>
       consoleError "Error fetching user performance:" (JStr (errMessage error)) ;;
       ret []).
End Service.

End AnalyticsService.

(* ===================================================================== *)
(** ** salesRepService.js *)
(* ===================================================================== *)

Module SalesRepService.

Definition repFields : list string :=
  ["Name"; "leads_contacted_c"; "meetings_booked_c"; "deals_closed_c"; "total_revenue_c"].

(** [params] of [getSalesReps]. *)
Definition getSalesRepsParams : Params :=
  {| fields := repFields; where_ := None; orderBy := [("Name", ASC)] |}.

(** The object literal built from a record of [sales_rep_c]. *)
Definition repView (rep : Rec) : Rec :=
  [ ("Id", prop rep "Id");
    ("name", prop rep "Name");
    ("leadsContacted", jsOr (prop rep "leads_contacted_c") (JNum 0));
    ("meetingsBooked", jsOr (prop rep "meetings_booked_c") (JNum 0));
    ("dealsClosed", jsOr (prop rep "deals_closed_c") (JNum 0));
    ("totalRevenue", jsOr (prop rep "total_revenue_c") (JNum 0)) ].

Section Service.
Context {S : Type} (client : Client S).
Local Open Scope js_scope.

Definition getSalesReps : M S (list Rec) :=
  simulateAPICall 300 ;;
  tryCatch
    (response <- callFetch client "sales_rep_c" getSalesRepsParams ;;
     if negb (success response) then
       consoleError "Failed to fetch sales reps:" (message response) ;;
       ret []
     else
       let salesReps := default [] (data response) in
       ret (map repView salesReps))
    (fun error =>
       consoleError "Error fetching sales reps:" (JStr (errMessage error)) ;;
       ret []).

Definition getSalesRepById (id : JsVal) : M S Rec :=
  simulateAPICall 200 ;;
  tryCatch
    (response <- callGet client "sales_rep_c" id (fieldsOnly repFields) ;;
     if negb (success response) then throw (Error "Sales rep not found")
     else
       rep <- required "reading 'Id'" (data response) ;;
       ret (repView rep))
    (fun error =>
       consoleError "Error fetching sales rep by ID:" (JStr (errMessage error)) ;;
       throw (Error "Sales rep not found")).

Definition createSalesRep (repData : Rec) : M S Rec :=
  simulateAPICall 300 ;;
  tryCatch
    (let recordData : Rec :=
       [ ("Name", prop repData "name");
         ("leads_contacted_c", jsOr (prop repData "leadsContacted") (JNum 0));
         ("meetings_booked_c", jsOr (prop repData "meetingsBooked") (JNum 0));
         ("deals_closed_c", jsOr (prop repData "dealsClosed") (JNum 0));
         ("total_revenue_c", jsOr (prop repData "totalRevenue") (JNum 0)) ] in
     response <- callCreate client "sales_rep_c" [recordData] ;;
     if negb (success response) then
       consoleError "Failed to create sales rep:" (message response) ;;
       throw (newError (message response))
     else
       match results response with
       | Some (result :: _) =>
           if r_success result then
             createdRep <- required "reading 'Id'" (r_data result) ;;
             ret (repView createdRep)
           else
             throw (newError (jsOr (r_message result) (JStr "Failed to create sales rep")))
       | _ => throw (Error "No response data received")
       end)
    (fun error =>
       consoleError "Error creating sales rep:" (JStr (errMessage error)) ;;
       throw error).

Definition updateSalesRep (id : JsVal) (updates : Rec) : M S Rec :=
  simulateAPICall 300 ;;
  tryCatch
    (let recordData : Rec :=
       [("Id", id)]
       ++ whenDefined updates "name" "Name"
       ++ whenDefined updates "leadsContacted" "leads_contacted_c"
       ++ whenDefined updates "meetingsBooked" "meetings_booked_c"
       ++ whenDefined updates "dealsClosed" "deals_closed_c"
       ++ whenDefined updates "totalRevenue" "total_revenue_c" in
     response <- callUpdate client "sales_rep_c" [recordData] ;;
     if negb (success response) then
       consoleError "Failed to update sales rep:" (message response) ;;
       throw (newError (message response))
     else
       match results response with
       | Some (result :: _) =>
           if r_success result then
             updatedRep <- required "reading 'Id'" (r_data result) ;;
             ret (repView updatedRep)
           else
             throw (newError (jsOr (r_message result) (JStr "Failed to update sales rep")))
       | _ => throw (Error "No response data received")
       end)
    (fun error =>
       consoleError "Error updating sales rep:" (JStr (errMessage error)) ;;
       throw error).

Definition deleteSalesRep (id : JsVal) : M S unit :=
  simulateAPICall 300 ;;
  tryCatch
    (response <- callDelete client "sales_rep_c" [id] ;;
     if negb (success response) then
       consoleError "Failed to delete sales rep:" (message response) ;;
       throw (newError (message response))
     else
       match results response with
       | Some (result :: _) =>
           if r_success result then ret tt
           else throw (newError (jsOr (r_message result) (JStr "Failed to delete sales rep")))
       | _ => ret tt
       end)
    (fun error =>
       consoleError "Error deleting sales rep:" (JStr (errMessage error)) ;;
       throw error).
End Service.

End SalesRepService.

(* ===================================================================== *)
(** ** The report service (website URL activity) *)
(* ===================================================================== *)

Module ReportService.

Record Summary : Type := {
  totalUrls : nat;
  totalArr : JsVal;
  byStatus : Dict Counter;
  byCategory : Dict Counter
}.

(** [{data, summary}] *)
Record Activity : Type := {
  activityData : list Rec;
  summary : Summary
}.

Definition emptyActivity : Activity :=
  {| activityData := [];
     summary := {| totalUrls := 0; totalArr := JNum 0; byStatus := []; byCategory := [] |} |}.

(** [data.forEach(lead => { summary[lead.k] = (summary[lead.k] || 0) + 1 })] *)
Definition summaryBy (k : string) (data : list Rec) : Dict Counter :=
  fold_left (fun summary lead => bump summary (toStr (prop lead k))) data [].

Definition getStatusSummary (data : list Rec) : Dict Counter := summaryBy "status" data.
Definition getCategorySummary (data : list Rec) : Dict Counter := summaryBy "category" data.

Section Service.
Context {S : Type} (client : Client S) (rt : DateRuntime).
Local Open Scope js_scope.

Definition cleanWebsiteUrl (url : JsVal) : M S JsVal :=
  if negb (truthy url) then ret url
  else
    s <- stringMethod "url.endsWith" (fun s => if endsWithSlash s then dropLast s else s) url ;;
    ret (JStr s).

(** The filters on [created_at_c] for [filters.startDate] and
    [filters.endDate]. *)
Definition rangeFilters (filters : Rec) : M S (list Filter) :=
  if truthy (prop filters "startDate") || truthy (prop filters "endDate") then
    let start := if truthy (prop filters "startDate")
                 then newDate rt (prop filters "startDate")
                 else newDate rt (JStr "1900-01-01") in
    let end_ := if truthy (prop filters "endDate")
                then newDate rt (prop filters "endDate")
                else newDate rt (JStr "2100-12-31") in
    let start := localMidnight rt <$> start in
    let end_ := endOfLocalDay rt <$> end_ in
    startIso <- isoOf rt start ;;
    endIso <- isoOf rt end_ ;;
    ret [ {| FieldName := "created_at_c"; Op := GreaterThanOrEqualTo;
             Values := [JStr startIso] |};
          {| FieldName := "created_at_c"; Op := LessThanOrEqualTo;
             Values := [JStr endIso] |} ]
  else ret [].

(** The filters on [created_at_c] for one day. *)
Definition dayFilters (date : JsVal) : M S (list Filter) :=
  let targetDate := newDate rt date in
  let startOfDay := localMidnight rt <$> targetDate in
  let endOfDay := (fun t => t + 24 * 60 * 60 * 1000) <$> startOfDay in
  startIso <- isoOf rt startOfDay ;;
  endIso <- isoOf rt endOfDay ;;
  ret [ {| FieldName := "created_at_c"; Op := GreaterThanOrEqualTo;
           Values := [JStr startIso] |};
        {| FieldName := "created_at_c"; Op := LessThan; Values := [JStr endIso] |} ].

Definition activityLead (nowIso : string) (lead : Rec) : M S Rec :=
  url <- cleanWebsiteUrl (jsOr (prop lead "website_url_c") (JStr "")) ;;
  ret [ ("Id", prop lead "Id");
        ("websiteUrl", url);
        ("category", jsOr (prop lead "category_c") (JStr ""));
        ("arr", jsOr (prop lead "arr_c") (JNum 0));
        ("status", jsOr (prop lead "status_c") (JStr ""));
        ("fundingType", jsOr (prop lead "funding_type_c") (JStr ""));
        ("addedByName", jsOr (optProp (prop lead "added_by_c") "Name") (JStr "Unknown"));
        ("createdAt", jsOr (prop lead "created_at_c") (JStr nowIso)) ].

(** [filters] is the empty object when the argument is left out. *)
Definition getWebsiteUrlActivity (filters : Rec) : M S Activity :=
  simulateAPICall 300 ;;
  tryCatch
    (byRange <- rangeFilters filters ;;
     byDay <- (if truthy (prop filters "date") then dayFilters (prop filters "date")
               else ret []) ;;
     let byUser :=
       if truthy (prop filters "addedBy")
       then [ {| FieldName := "added_by_c"; Op := EqualTo;
                 Values := [parseInt (prop filters "addedBy")] |} ]
       else [] in
     bySearch <- (if truthy (prop filters "searchTerm") then
                    term <- stringMethod "filters.searchTerm.toLowerCase" toLowerCase
                              (prop filters "searchTerm") ;;
                    ret [ {| FieldName := "website_url_c"; Op := Contains;
                             Values := [JStr term] |} ]
                  else ret []) ;;
     let whereFilters := byRange ++ byDay ++ byUser ++ bySearch in
     let params :=
       {| fields := ["Name"; "website_url_c"; "category_c"; "arr_c"; "status_c";
                     "funding_type_c"; "added_by_c"; "created_at_c"];
          where_ := if (0 <? length whereFilters)%nat then Some whereFilters else None;
          orderBy := [("created_at_c", DESC)] |} in
     response <- callFetch client "lead_c" params ;;
     if negb (success response) then
       consoleError "Failed to fetch website URL activity:" (message response) ;;
       ret emptyActivity
     else
       let leads := default [] (data response) in
       now <- newDateNow ;;
       transformedLeads <- mapM (activityLead (toISOString rt now)) leads ;;
       ret {| activityData := transformedLeads;
              summary :=
                {| totalUrls := length transformedLeads;
                   totalArr := fold_left
                                 (fun sum lead => jsAdd sum (jsOr (prop lead "arr") (JNum 0)))
                                 transformedLeads (JNum 0);
                   byStatus := getStatusSummary transformedLeads;
                   byCategory := getCategorySummary transformedLeads |} |})
    (fun error =>
       consoleError "Error fetching website URL activity:" (JStr (errMessage error)) ;;
       ret emptyActivity).

Definition getActivityByDate (date : JsVal) : M S Activity :=
  getWebsiteUrlActivity [("date", date)].

Definition getActivityByUser (userId : JsVal) : M S Activity :=
  getWebsiteUrlActivity [("addedBy", userId)].

(** One row of the export, from a lead of [getWebsiteUrlActivity]. *)
Definition exportRow (lead : Rec) : M S Rec :=
  url <- cleanWebsiteUrl (prop lead "websiteUrl") ;;
  ret [ ("Website URL", url);
        ("Category", prop lead "category");
        ("ARR", JStr ("$" +:+ millions (prop lead "arr") +:+ "M"));
        ("Status", prop lead "status");
        ("Funding Type", prop lead "fundingType");
        ("Added By", prop lead "addedByName");
        ("Date Added", JStr (localeDateString rt (newDate rt (prop lead "createdAt")))) ].

Definition exportWebsiteUrlData (filters : Rec) : M S (list Rec) :=
  result <- getWebsiteUrlActivity filters ;;
  mapM exportRow (activityData result).

Definition getSalesRepsForFilter : M S (list Rec) :=
  simulateAPICall 200 ;;
  tryCatch
    (let params := {| fields := ["Name"]; where_ := None; orderBy := [("Name", ASC)] |} in
     response <- callFetch client "sales_rep_c" params ;;
     if negb (success response) then
       consoleError "Failed to fetch sales reps for filter:" (message response) ;;
       ret []
     else
       let salesReps := default [] (data response) in
       ret (map (fun rep => [ ("Id", prop rep "Id"); ("name", prop rep "Name") ]) salesReps))
    (fun error =>
       consoleError "Error fetching sales reps for filter:" (JStr (errMessage error)) ;;
       ret []).

Definition dailyUrlLead (nowIso : string) (lead : Rec) : M S Rec :=
  url <- cleanWebsiteUrl (jsOr (prop lead "website_url_c") (JStr "")) ;;
  ret [ ("Id", prop lead "Id");
        ("websiteUrl", url);
        ("category", jsOr (prop lead "category_c") (JStr ""));
        ("status", jsOr (prop lead "status_c") (JStr ""));
        ("addedBy", jsOr (optProp (prop lead "added_by_c") "Id") (prop lead "added_by_c"));
        ("addedByName", jsOr (optProp (prop lead "added_by_c") "Name") (JStr "Unknown"));
        ("createdAt", jsOr (prop lead "created_at_c") (JStr nowIso)) ].

Definition getDailyWebsiteUrls (salesRepId date : JsVal) : M S (list Rec) :=
  simulateAPICall 300 ;;
  tryCatch
    (byDay <- dayFilters date ;;
     let filters :=
       byDay ++ (if truthy salesRepId
                 then [ {| FieldName := "added_by_c"; Op := EqualTo; Values := [salesRepId] |} ]
                 else []) in
     let params :=
       {| fields := ["Name"; "website_url_c"; "category_c"; "status_c"; "added_by_c";
                     "created_at_c"];
          where_ := Some filters;
          orderBy := [("created_at_c", DESC)] |} in
     response <- callFetch client "lead_c" params ;;
     if negb (success response) then
       consoleError "Failed to fetch daily website URLs:" (message response) ;;
       ret []
     else
       let leads := default [] (data response) in
       now <- newDateNow ;;
       mapM (dailyUrlLead (toISOString rt now)) leads)
    (fun error =>
       consoleError "Error fetching daily website URLs:" (JStr (errMessage error)) ;;
       ret []).
End Service.

End ReportService.

(* ===================================================================== *)
(** ** The deals service *)
(* ===================================================================== *)

Module DealsService.

Definition dealFields : list string :=
  ["Name"; "lead_name_c"; "lead_id_c"; "value_c"; "stage_c"; "assigned_rep_c";
   "edition_c"; "start_month_c"; "end_month_c"; "created_at_c"].

(** The object literal built from a record of [deal_c]. *)
Definition dealView (nowIso : string) (deal : Rec) : Rec :=
  [ ("Id", prop deal "Id");
    ("name", prop deal "Name");
    ("leadName", jsOr (prop deal "lead_name_c") (JStr ""));
    ("leadId", jsOr (prop deal "lead_id_c") (JStr ""));
    ("value", jsOr (prop deal "value_c") (JNum 0));
    ("stage", jsOr (prop deal "stage_c") (JStr "Connected"));
    ("assignedRep", jsOr (prop deal "assigned_rep_c") (JStr ""));
    ("edition", jsOr (prop deal "edition_c") (JStr "Select Edition"));
    ("startMonth", jsOr (prop deal "start_month_c") (JNum 1));
    ("endMonth", jsOr (prop deal "end_month_c") (JNum 3));
    ("createdAt", jsOr (prop deal "created_at_c") (JStr nowIso)) ].

Definition createdDealView (nowIso : string) (dealData createdDeal : Rec) : Rec :=
  [ ("Id", prop createdDeal "Id");
    ("name", prop createdDeal "Name");
    ("leadName", jsOr (prop createdDeal "lead_name_c") (prop dealData "leadName"));
    ("leadId", jsOr (prop createdDeal "lead_id_c") (prop dealData "leadId"));
    ("value", jsOr (prop createdDeal "value_c") (prop dealData "value"));
    ("stage", jsOr (prop createdDeal "stage_c") (prop dealData "stage"));
    ("assignedRep", jsOr (prop createdDeal "assigned_rep_c") (prop dealData "assignedRep"));
    ("edition", jsOr (prop createdDeal "edition_c") (prop dealData "edition"));
    ("startMonth", jsOr (prop createdDeal "start_month_c") (prop dealData "startMonth"));
    ("endMonth", jsOr (prop createdDeal "end_month_c") (prop dealData "endMonth"));
    ("createdAt", jsOr (prop createdDeal "created_at_c") (JStr nowIso)) ].

Section Service.
Context {S : Type} (client : Client S) (rt : DateRuntime).
Local Open Scope js_scope.

(** [year] is [null] when the argument is left out. *)
Definition getDeals (year : JsVal) : M S (list Rec) :=
  let year := orDefault year JNull in
  simulateAPICall 500 ;;
  tryCatch
    (let filters :=
       if truthy year then
         let yearStart := toStr year +:+ "-01-01T00:00:00Z" in
         let yearEnd := toStr (jsAdd year (JNum 1)) +:+ "-01-01T00:00:00Z" in
         [ {| FieldName := "created_at_c"; Op := GreaterThanOrEqualTo;
              Values := [JStr yearStart] |};
           {| FieldName := "created_at_c"; Op := LessThan; Values := [JStr yearEnd] |} ]
       else [] in
     let params :=
       {| fields := dealFields;
          where_ := if (0 <? length filters)%nat then Some filters else None;
          orderBy := [("created_at_c", DESC)] |} in
     response <- callFetch client "deal_c" params ;;
     if negb (success response) then
       consoleError "Failed to fetch deals:" (message response) ;;
       ret []
     else
       let deals := default [] (data response) in
       now <- newDateNow ;;
       ret (map (fun deal =>
                   dealView (toISOString rt now) deal
                   ++ [("year", jsOr year (JNum (getFullYear rt now)))])
                deals))
    (fun error =>
       consoleError "Error fetching deals:" (JStr (errMessage error)) ;;
       ret []).

Definition getDealById (id : JsVal) : M S Rec :=
  simulateAPICall 200 ;;
  tryCatch
    (response <- callGet client "deal_c" id (fieldsOnly dealFields) ;;
     if negb (success response) then throw (Error "Deal not found")
     else
       deal <- required "reading 'Id'" (data response) ;;
       now <- newDateNow ;;
       ret (dealView (toISOString rt now) deal))
    (fun error =>
       consoleError "Error fetching deal by ID:" (JStr (errMessage error)) ;;
       throw (Error "Deal not found")).

Definition createDeal (dealData : Rec) : M S Rec :=
  simulateAPICall 300 ;;
  tryCatch
    (now <- newDateNow ;;
     let recordData : Rec :=
       [ ("Name", prop dealData "name");
         ("lead_name_c", prop dealData "leadName");
         ("lead_id_c", prop dealData "leadId");
         ("value_c", jsOr (prop dealData "value") (JNum 0));
         ("stage_c", jsOr (prop dealData "stage") (JStr "Connected"));
         ("assigned_rep_c", prop dealData "assignedRep");
         ("edition_c", jsOr (prop dealData "edition") (JStr "Select Edition"));
         ("start_month_c", jsOr (prop dealData "startMonth") (JNum 1));
         ("end_month_c", jsOr (prop dealData "endMonth") (JNum 3));
         ("created_at_c", JStr (toISOString rt now)) ] in
     response <- callCreate client "deal_c" [recordData] ;;
     if negb (success response) then
       consoleError "Failed to create deal:" (message response) ;;
       throw (newError (message response))
     else
       match results response with
       | Some (result :: _) =>
           if r_success result then
             createdDeal <- required "reading 'Id'" (r_data result) ;;
             ret (createdDealView (toISOString rt now) dealData createdDeal)
           else
             throw (newError (jsOr (r_message result) (JStr "Failed to create deal")))
       | _ => throw (Error "No response data received")
       end)
    (fun error =>
       consoleError "Error creating deal:" (JStr (errMessage error)) ;;
       throw error).

Definition updateDeal (id : JsVal) (updates : Rec) : M S Rec :=
  simulateAPICall 300 ;;
  tryCatch
    (let recordData : Rec :=
       [("Id", id)]
       ++ whenDefined updates "name" "Name"
       ++ whenDefined updates "leadName" "lead_name_c"
       ++ whenDefined updates "leadId" "lead_id_c"
       ++ whenDefined updates "value" "value_c"
       ++ whenDefined updates "stage" "stage_c"
       ++ whenDefined updates "assignedRep" "assigned_rep_c"
       ++ whenDefined updates "edition" "edition_c"
       ++ whenDefined updates "startMonth" "start_month_c"
       ++ whenDefined updates "endMonth" "end_month_c" in
     response <- callUpdate client "deal_c" [recordData] ;;
     if negb (success response) then
       consoleError "Failed to update deal:" (message response) ;;
       throw (newError (message response))
     else
       match results response with
       | Some (result :: _) =>
           if r_success result then
             updatedDeal <- required "reading 'Id'" (r_data result) ;;
             now <- newDateNow ;;
             ret (dealView (toISOString rt now) updatedDeal)
           else
             throw (newError (jsOr (r_message result) (JStr "Failed to update deal")))
       | _ => throw (Error "No response data received")
       end)
    (fun error =>
       consoleError "Error updating deal:" (JStr (errMessage error)) ;;
       throw error).

Definition deleteDeal (id : JsVal) : M S unit :=
  simulateAPICall 300 ;;
  tryCatch
    (response <- callDelete client "deal_c" [id] ;;
     if negb (success response) then
       consoleError "Failed to delete deal:" (message response) ;;
       throw (newError (message response))
     else
       match results response with
       | Some (result :: _) =>
           if r_success result then ret tt
           else throw (newError (jsOr (r_message result) (JStr "Failed to delete deal")))
       | _ => ret tt
       end)
    (fun error =>
       consoleError "Error deleting deal:" (JStr (errMessage error)) ;;
       throw error).
End Service.

End DealsService.

(* ===================================================================== *)
(** ** The contacts service *)
(* ===================================================================== *)

Module ContactsService.

Definition contactFields : list string :=
  ["Name"; "email_c"; "company_c"; "assigned_rep_c"; "status_c"; "created_at_c"].

(** The object literal built from a record of [contact_c]. *)
Definition contactView (nowIso : string) (contact : Rec) : Rec :=
  [ ("Id", prop contact "Id");
    ("name", prop contact "Name");
    ("email", jsOr (prop contact "email_c") (JStr ""));
    ("company", jsOr (prop contact "company_c") (JStr ""));
    ("assignedRep", jsOr (prop contact "assigned_rep_c") (JStr ""));
    ("status", jsOr (prop contact "status_c") (JStr "New"));
    ("createdAt", jsOr (prop contact "created_at_c") (JStr nowIso)) ].

Definition createdContactView (nowIso : string) (contactData createdContact : Rec) : Rec :=
  [ ("Id", prop createdContact "Id");
    ("name", prop createdContact "Name");
    ("email", jsOr (prop createdContact "email_c") (prop contactData "email"));
    ("company", jsOr (prop createdContact "company_c") (prop contactData "company"));
    ("assignedRep", jsOr (prop createdContact "assigned_rep_c") (prop contactData "assignedRep"));
    ("status", jsOr (prop createdContact "status_c") (prop contactData "status"));
    ("createdAt", jsOr (prop createdContact "created_at_c") (JStr nowIso)) ].

Section Service.
Context {S : Type} (client : Client S) (rt : DateRuntime).
Local Open Scope js_scope.

Definition getContacts : M S (list Rec) :=
  simulateAPICall 400 ;;
  tryCatch
    (let params := {| fields := contactFields; where_ := None;
                      orderBy := [("created_at_c", DESC)] |} in
     response <- callFetch client "contact_c" params ;;
     if negb (success response) then
       consoleError "Failed to fetch contacts:" (message response) ;;
       ret []
     else
       let contacts := default [] (data response) in
       now <- newDateNow ;;
       ret (map (contactView (toISOString rt now)) contacts))
    (fun error =>
       consoleError "Error fetching contacts:" (JStr (errMessage error)) ;;
       ret []).

Definition getContactById (id : JsVal) : M S Rec :=
  simulateAPICall 200 ;;
  tryCatch
    (response <- callGet client "contact_c" id (fieldsOnly contactFields) ;;
     if negb (success response) then throw (Error "Contact not found")
     else
       contact <- required "reading 'Id'" (data response) ;;
       now <- newDateNow ;;
       ret (contactView (toISOString rt now) contact))
    (fun error =>
       consoleError "Error fetching contact by ID:" (JStr (errMessage error)) ;;
       throw (Error "Contact not found")).

Definition createContact (contactData : Rec) : M S Rec :=
  simulateAPICall 300 ;;
  tryCatch
    (now <- newDateNow ;;
     let recordData : Rec :=
       [ ("Name", prop contactData "name");
         ("email_c", prop contactData "email");
         ("company_c", prop contactData "company");
         ("assigned_rep_c", prop contactData "assignedRep");
         ("status_c", jsOr (prop contactData "status") (JStr "New"));
         ("created_at_c", JStr (toISOString rt now)) ] in
     response <- callCreate client "contact_c" [recordData] ;;
     if negb (success response) then
       consoleError "Failed to create contact:" (message response) ;;
       throw (newError (message response))
     else
       match results response with
       | Some (result :: _) =>
           if r_success result then
             createdContact <- required "reading 'Id'" (r_data result) ;;
             ret (createdContactView (toISOString rt now) contactData createdContact)
           else
             throw (newError (jsOr (r_message result) (JStr "Failed to create contact")))
       | _ => throw (Error "No response data received")
       end)
    (fun error =>
       consoleError "Error creating contact:" (JStr (errMessage error)) ;;
       throw error).

Definition updateContact (id : JsVal) (updates : Rec) : M S Rec :=
  simulateAPICall 300 ;;
  tryCatch
    (let recordData : Rec :=
       [("Id", id)]
       ++ whenDefined updates "name" "Name"
       ++ whenDefined updates "email" "email_c"
       ++ whenDefined updates "company" "company_c"
       ++ whenDefined updates "assignedRep" "assigned_rep_c"
       ++ whenDefined updates "status" "status_c" in
     response <- callUpdate client "contact_c" [recordData] ;;
     if negb (success response) then
       consoleError "Failed to update contact:" (message response) ;;
       throw (newError (message response))
     else
       match results response with
       | Some (result :: _) =>
           if r_success result then
             updatedContact <- required "reading 'Id'" (r_data result) ;;
             now <- newDateNow ;;
             ret (contactView (toISOString rt now) updatedContact)
           else
             throw (newError (jsOr (r_message result) (JStr "Failed to update contact")))
       | _ => throw (Error "No response data received")
       end)
    (fun error =>
       consoleError "Error updating contact:" (JStr (errMessage error)) ;;
       throw error).

Definition deleteContact (id : JsVal) : M S unit :=
  simulateAPICall 300 ;;
  tryCatch
    (response <- callDelete client "contact_c" [id] ;;
     if negb (success response) then
       consoleError "Failed to delete contact:" (message response) ;;
       throw (newError (message response))
     else
       match results response with
       | Some (result :: _) =>
           if r_success result then ret tt
           else throw (newError (jsOr (r_message result) (JStr "Failed to delete contact")))
       | _ => ret tt
       end)
    (fun error =>
       consoleError "Error deleting contact:" (JStr (errMessage error)) ;;
       throw error).
End Service.

End ContactsService.

(* ===================================================================== *)
(** ** The team members service *)
(* ===================================================================== *)

Module TeamService.

(** What the service uses of the runtime besides dates: [JSON.parse] on a
    text (it throws a [SyntaxError] on a text that is not JSON),
    [JSON.stringify] (it gives [undefined] on [undefined]), and
    [Math.floor(Math.random() * n)] for the draws of one call, numbered in
    the order made. *)
Record JsonRuntime : Type := {
  jsonParse : string -> Outcome JsVal;
  jsonStringify : JsVal -> JsVal;
  randomBelow : nat -> Z -> Z
}.

Definition memberFields : list string :=
  ["Name"; "email_c"; "role_c"; "permissions_c"; "status_c"; "created_at_c";
   "updated_at_c"; "last_login_c"].

(** The permissions of a member that has none stored. *)
Definition defaultPermissions : JsVal :=
  JObj [ ("dashboard", JBool true); ("leads", JBool false); ("hotlist", JBool false);
         ("pipeline", JBool false); ("calendar", JBool false); ("analytics", JBool false);
         ("leaderboard", JBool false); ("contacts", JBool false) ].

(** [stored ? JSON.parse(stored) : fallback] *)
Definition parsePermissions {S} (js : JsonRuntime) (stored fallback : JsVal) : M S JsVal :=
  if truthy stored then
    match jsonParse js (toStr stored) with
    | Return v => ret v
    | Throw e => throw e
    end
  else ret fallback.

(** The object literal built from a record of [team_member_c]; the email,
    the role and the permissions used when the record has none differ from
    one operation to the other. *)
Definition memberViewWith {S} (js : JsonRuntime) (nowIso : string)
    (email role permissions : JsVal) (member : Rec) : M S Rec :=
  bind (parsePermissions js (prop member "permissions_c") permissions)
    (fun parsed =>
       ret [ ("Id", prop member "Id");
             ("name", prop member "Name");
             ("email", jsOr (prop member "email_c") email);
             ("role", jsOr (prop member "role_c") role);
             ("permissions", parsed);
             ("status", jsOr (prop member "status_c") (JStr "pending"));
             ("createdAt", jsOr (prop member "created_at_c") (JStr nowIso));
             ("updatedAt", jsOr (prop member "updated_at_c") (JStr nowIso));
             ("lastLogin", jsOr (prop member "last_login_c") JNull) ]).

(** The transform of [getTeamMembers] and [getTeamMemberById]. *)
Definition memberView {S} (js : JsonRuntime) (nowIso : string) (member : Rec) : M S Rec :=
  memberViewWith js nowIso (JStr "") (JStr "viewer") defaultPermissions member.

(** [!v || !v.trim()] *)
Definition isBlank {S} (what : string) (v : JsVal) : M S bool :=
  if negb (truthy v) then ret true
  else bind (stringMethod what trim v) (fun t => ret (negb (truthy (JStr t)))).

(** The lookup of the records that hold an email, other than the record
    [butId] when there is one. *)
Definition emailQuery (email : string) (butId : option JsVal) : Params :=
  {| fields := ["email_c"];
     where_ := Some ({| FieldName := "email_c"; Op := EqualTo; Values := [JStr email] |}
                     :: match butId with
                        | Some id => [{| FieldName := "Id"; Op := NotEqualTo; Values := [id] |}]
                        | None => []
                        end);
     orderBy := [] |}.

(** The mock performance figures from the five draws. *)
Definition mockPerformance (js : JsonRuntime) : Rec :=
  let totalLeads := randomBelow js 0 50 + 20 in
  let totalDeals := randomBelow js 1 10 + 5 in
  let totalRevenue := randomBelow js 2 50000 + 10000 in
  let totalMeetings := randomBelow js 3 20 + 10 in
  let conversionRate := randomBelow js 4 15 + 5 in
  [ ("totalLeads", JNum totalLeads);
    ("totalDeals", JNum totalDeals);
    ("totalRevenue", JNum totalRevenue);
    ("totalMeetings", JNum totalMeetings);
    ("conversionRate", JNum conversionRate);
    ("avgDealSize",
     JNum (if 0 <? totalDeals then mathRound (quotient totalRevenue totalDeals) else 0)) ].

Section Service.
Context {S : Type} (client : Client S) (rt : DateRuntime) (js : JsonRuntime).
Local Open Scope js_scope.

Definition getTeamMembers : M S (list Rec) :=
  simulateAPICall 300 ;;
  tryCatch
    (let params := {| fields := memberFields; where_ := None;
                      orderBy := [("created_at_c", DESC)] |} in
     response <- callFetch client "team_member_c" params ;;
     if negb (success response) then
       consoleError "Failed to fetch team members:" (message response) ;;
       ret []
     else
       let teamMembers := default [] (data response) in
       now <- newDateNow ;;
       mapM (memberView js (toISOString rt now)) teamMembers)
    (fun error =>
       consoleError "Error fetching team members:" (JStr (errMessage error)) ;;
       ret []).

Definition getTeamMemberById (id : JsVal) : M S Rec :=
  simulateAPICall 200 ;;
  tryCatch
    (response <- callGet client "team_member_c" id (fieldsOnly memberFields) ;;
     if negb (success response) then throw (Error "Team member not found")
     else
       member <- required "reading 'Id'" (data response) ;;
       now <- newDateNow ;;
       memberView js (toISOString rt now) member)
    (fun error =>
       consoleError "Error fetching team member by ID:" (JStr (errMessage error)) ;;
       throw (Error "Team member not found")).

Definition inviteTeamMember (memberData : Rec) : M S Rec :=
  simulateAPICall 300 ;;
  tryCatch
    (let name := prop memberData "name" in
     let email := prop memberData "email" in
     noName <- isBlank "memberData.name.trim" name ;;
     if (noName : bool) then throw (Error "Member name is required")
     else
       noEmail <- isBlank "memberData.email.trim" email ;;
       if (noEmail : bool) then throw (Error "Member email is required")
       else
         lowered <- stringMethod "memberData.email.toLowerCase" toLowerCase email ;;
         existingResponse <- callFetch client "team_member_c" (emailQuery lowered None) ;;
         if success existingResponse && hasRows (data existingResponse) then
           throw (Error "A team member with this email already exists")
         else
           trimmedName <- stringMethod "memberData.name.trim" trim name ;;
           trimmedEmail <- stringMethod "memberData.email.trim" trim email ;;
           now <- newDateNow ;;
           let recordData : Rec :=
             [ ("Name", JStr trimmedName);
               ("email_c", JStr (toLowerCase trimmedEmail));
               ("role_c", jsOr (prop memberData "role") (JStr "viewer"));
               ("permissions_c",
                jsonStringify js (jsOr (prop memberData "permissions") defaultPermissions));
               ("status_c", JStr "pending");
               ("created_at_c", JStr (toISOString rt now));
               ("updated_at_c", JStr (toISOString rt now));
               ("last_login_c", JNull) ] in
           response <- callCreate client "team_member_c" [recordData] ;;
           if negb (success response) then
             consoleError "Failed to invite team member:" (message response) ;;
             throw (newError (message response))
           else
             match results response with
             | Some (result :: _) =>
                 if r_success result then
                   createdMember <- required "reading 'Id'" (r_data result) ;;
                   memberViewWith js (toISOString rt now) email (prop memberData "role")
                     (prop memberData "permissions") createdMember
                 else
                   throw (newError (jsOr (r_message result)
                                      (JStr "Failed to invite team member")))
             | _ => throw (Error "No response data received")
             end)
    (fun error =>
       consoleError "Error inviting team member:" (JStr (errMessage error)) ;;
       throw error).

(** [if (updates.email) { ... }]: the lookup of another member with the
    new email. *)
Definition checkNewEmail (id : JsVal) (updates : Rec) : M S unit :=
  if truthy (prop updates "email") then
    lowered <- stringMethod "updates.email.toLowerCase" toLowerCase (prop updates "email") ;;
    existingResponse <- callFetch client "team_member_c" (emailQuery lowered (Some id)) ;;
    if success existingResponse && hasRows (data existingResponse) then
      throw (Error "A team member with this email already exists")
    else ret tt
  else ret tt.

(** [if (updates.email !== undefined) recordData.email_c = updates.email.toLowerCase()] *)
Definition emailField (updates : Rec) : M S Rec :=
  match prop updates "email" with
  | JUndef => ret []
  | v => lowered <- stringMethod "updates.email.toLowerCase" toLowerCase v ;;
         ret [("email_c", JStr lowered)]
  end.

(** [if (updates.permissions !== undefined) recordData.permissions_c = JSON.stringify(updates.permissions)] *)
Definition permissionsField (updates : Rec) : Rec :=
  match prop updates "permissions" with
  | JUndef => []
  | v => [("permissions_c", jsonStringify js v)]
  end.

Definition updateTeamMember (id : JsVal) (updates : Rec) : M S Rec :=
  simulateAPICall 300 ;;
  tryCatch
    (checkNewEmail id updates ;;
     now <- newDateNow ;;
     email_c <- emailField updates ;;
     let recordData : Rec :=
       [("Id", id); ("updated_at_c", JStr (toISOString rt now))]
       ++ whenDefined updates "name" "Name"
       ++ email_c
       ++ whenDefined updates "role" "role_c"
       ++ permissionsField updates
       ++ whenDefined updates "status" "status_c"
       ++ whenDefined updates "lastLogin" "last_login_c" in
     response <- callUpdate client "team_member_c" [recordData] ;;
     if negb (success response) then
       consoleError "Failed to update team member:" (message response) ;;
       throw (newError (message response))
     else
       match results response with
       | Some (result :: _) =>
           if r_success result then
             updatedMember <- required "reading 'Id'" (r_data result) ;;
             memberViewWith js (toISOString rt now) (JStr "") (JStr "viewer") (JObj [])
               updatedMember
           else
             throw (newError (jsOr (r_message result)
                                (JStr "Failed to update team member")))
       | _ => throw (Error "No response data received")
       end)
    (fun error =>
       consoleError "Error updating team member:" (JStr (errMessage error)) ;;
       throw error).

Definition removeTeamMember (id : JsVal) : M S unit :=
  simulateAPICall 300 ;;
  tryCatch
    (response <- callDelete client "team_member_c" [id] ;;
     if negb (success response) then
       consoleError "Failed to remove team member:" (message response) ;;
       throw (newError (message response))
     else
       match results response with
       | Some (result :: _) =>
           if r_success result then ret tt
           else throw (newError (jsOr (r_message result)
                                   (JStr "Failed to remove team member")))
       | _ => ret tt
       end)
    (fun error =>
       consoleError "Error removing team member:" (JStr (errMessage error)) ;;
       throw error).

Definition getTeamMemberPerformance (id : JsVal) : M S Rec :=
  simulateAPICall 250 ;;
  tryCatch
    (memberResponse <- callGet client "team_member_c" id (fieldsOnly ["Name"]) ;;
     if negb (success memberResponse) then throw (Error "Team member not found")
     else ret (mockPerformance js))
    (fun error =>
       consoleError "Error fetching team member performance:" (JStr (errMessage error)) ;;
       throw error).

Definition activateTeamMember (id : JsVal) : M S Rec :=
  simulateAPICall 200 ;;
  tryCatch
    (now <- newDateNow ;;
     updateTeamMember id [ ("status", JStr "active");
                           ("lastLogin", JStr (toISOString rt now)) ])
    (fun error =>
       consoleError "Error activating team member:" (JStr (errMessage error)) ;;
       throw error).

Definition deactivateTeamMember (id : JsVal) : M S Rec :=
  simulateAPICall 200 ;;
  tryCatch
    (updateTeamMember id [("status", JStr "inactive")])
    (fun error =>
       consoleError "Error deactivating team member:" (JStr (errMessage error)) ;;
       throw error).
End Service.

End TeamService.

(* ===================================================================== *)
(** ** A reference record store *)
(* ===================================================================== *)

(** The services only call the record store.  To state what they do in
    terms of the stored records, this module gives a reference client that
    follows the contract of the external interface: tables of flat records
    per entity, filters read by their operator names, and the envelope
    [{success, data | results, message}].  [EqualTo] is exact equality;
    [orderBy] is not interpreted (records come in table order).  While
    [down] is set every call is answered with [success: false]. *)
Module Store.

Record State : Type := {
  tables : Dict (list Rec);
  nextId : Z;
  down : bool
}.

Definition table (s : State) (entity : string) : list Rec :=
  default [] (dictGet (tables s) entity).

(** The value of a filter against the value of a field; a lookup field
    [{Id, Name}] is compared through its [Id]. *)
Definition sameValue (v x : JsVal) : bool :=
  strictEq v x || match v with JObj _ => strictEq (optProp v "Id") x | _ => false end.

Definition isSubstring (sub s : string) : bool :=
  present (String.index 0 sub s).

Definition lessThan (v x : JsVal) : bool :=
  match v, x with
  | JNum a, JNum b => a <? b
  | JStr a, JStr b => String.ltb a b
  | _, _ => false
  end.

Definition matchesFilter (r : Rec) (f : Filter) : bool :=
  let v := prop r (FieldName f) in
  match Op f with
  | EqualTo => existsb (sameValue v) (Values f)
  | NotEqualTo => negb (existsb (sameValue v) (Values f))
  | Contains => existsb (fun x => isSubstring (toStr x) (toStr v)) (Values f)
  | LessThan => existsb (lessThan v) (Values f)
  | LessThanOrEqualTo => existsb (fun x => lessThan v x || sameValue v x) (Values f)
  | GreaterThanOrEqualTo => existsb (fun x => lessThan x v || sameValue v x) (Values f)
  end.

(** The records of a table that a query selects. *)
Definition select (p : Params) (rows : list Rec) : list Rec :=
  List.filter (fun r => forallb (matchesFilter r) (default [] (where_ p))) rows.

Definition unavailable {D} : Response D :=
  {| success := false; data := None; results := None;
     message := JStr "Service unavailable" |}.

Definition hasId (id : JsVal) (r : Rec) : bool := strictEq (prop r "Id") id.

Definition fetch (entity : string) (p : Params) (s : State)
    : Outcome (Response (list Rec)) * State :=
  if down s then (Return unavailable, s)
  else (Return {| success := true; data := Some (select p (table s entity));
                  results := None; message := JUndef |}, s).

Definition getById (entity : string) (id : JsVal) (p : Params) (s : State)
    : Outcome (Response Rec) * State :=
  if down s then (Return unavailable, s)
  else
    match List.find (hasId id) (table s entity) with
    | Some r => (Return {| success := true; data := Some r; results := None;
                           message := JUndef |}, s)
    | None => (Return {| success := false; data := None; results := None;
                         message := JStr "Record does not exist" |}, s)
    end.

(** New records get consecutive ids. *)
Fixpoint withIds (next : Z) (records : list Rec) : list Rec :=
  match records with
  | [] => []
  | r :: rest => dictSet r "Id" (JNum next) :: withIds (next + 1) rest
  end.

Definition okRow (r : Rec) : RowResult :=
  {| r_success := true; r_data := Some r; r_message := JUndef |}.

Definition create (entity : string) (records : list Rec) (s : State)
    : Outcome (Response unit) * State :=
  if down s then (Return unavailable, s)
  else
    let rows := withIds (nextId s) records in
    (Return {| success := true; data := None; results := Some (map okRow rows);
               message := JUndef |},
     {| tables := dictSet (tables s) entity (table s entity ++ rows);
        nextId := nextId s + Z.of_nat (length records);
        down := down s |}).

(** The fields of [u] written over the record [r]. *)
Definition merge (r u : Rec) : Rec :=
  fold_left (fun o kv => dictSet o (fst kv) (snd kv)) u r.

Definition applyUpdate (rows : list Rec) (u : Rec) : list Rec :=
  map (fun r => if hasId (prop u "Id") r then merge r u else r) rows.

Definition updateRow (rows : list Rec) (u : Rec) : RowResult :=
  match List.find (hasId (prop u "Id")) rows with
  | Some r => okRow (merge r u)
  | None => {| r_success := false; r_data := None;
               r_message := JStr "Record does not exist" |}
  end.

Definition update (entity : string) (records : list Rec) (s : State)
    : Outcome (Response unit) * State :=
  if down s then (Return unavailable, s)
  else
    (Return {| success := true; data := None;
               results := Some (map (updateRow (table s entity)) records);
               message := JUndef |},
     {| tables := dictSet (tables s) entity (fold_left applyUpdate records (table s entity));
        nextId := nextId s; down := down s |}).

Definition deleteRow (rows : list Rec) (id : JsVal) : RowResult :=
  if existsb (hasId id) rows
  then {| r_success := true; r_data := None; r_message := JUndef |}
  else {| r_success := false; r_data := None; r_message := JStr "Record does not exist" |}.

Definition delete (entity : string) (ids : list JsVal) (s : State)
    : Outcome (Response unit) * State :=
  if down s then (Return unavailable, s)
  else
    (Return {| success := true; data := None;
               results := Some (map (deleteRow (table s entity)) ids);
               message := JUndef |},
     {| tables := dictSet (tables s) entity
                    (List.filter (fun r => negb (existsb (fun id => hasId id r) ids))
                       (table s entity));
        nextId := nextId s; down := down s |}).

Definition client : Client State := {|
  fetchRecords := fetch;
  getRecordById := getById;
  createRecord := create;
  updateRecord := update;
  deleteRecord := delete
|}.

(** The store as its callers see it during an outage: every call is
    answered with [success: false], whatever the store holds. *)
Definition offline : Client State := {|
  fetchRecords := fun _ _ s => (Return unavailable, s);
  getRecordById := fun _ _ _ s => (Return unavailable, s);
  createRecord := fun _ _ s => (Return unavailable, s);
  updateRecord := fun _ _ s => (Return unavailable, s);
  deleteRecord := fun _ _ s => (Return unavailable, s)
|}.

(** The answer of the store to a query on its leads. *)
Definition leadsAnswer (st : State) (p : Params) : Response (list Rec) :=
  if down st then unavailable
  else {| success := true; data := Some (select p (table st "lead_c"));
          results := None; message := JUndef |}.

(** A store that holds the given leads and sales reps. *)
Definition holding (leads salesReps : list Rec) (isDown : bool) : State :=
  {| tables := [("lead_c", leads); ("sales_rep_c", salesReps)];
     nextId := 1000; down := isDown |}.

End Store.

(* ===================================================================== *)
(** ** The service operations, one by one *)
(* ===================================================================== *)

Module Operations.

(** The exported operations of the services above, with their arguments. *)
Inductive Operation : Type :=
| GetLeads
| GetLeadById (id : JsVal)
| CreateLead (leadData : Rec)
| UpdateLead (id : JsVal) (updates : Rec)
| DeleteLead (id : JsVal)
| GetDailyLeadsReport
| GetPendingFollowUps
| GetFreshLeadsOnly (leadsArray : list Rec)
| GetLeadsAnalytics (period userId : JsVal)
| GetDailyLeadsChart (userId : JsVal) (days : option Z)
| GetLeadsMetrics (userId : JsVal)
| GetUserPerformance
| GetSalesReps
| GetSalesRepById (id : JsVal)
| CreateSalesRep (repData : Rec)
| UpdateSalesRep (id : JsVal) (updates : Rec)
| DeleteSalesRep (id : JsVal)
| GetWebsiteUrlActivity (filters : Rec)
| GetActivityByDate (date : JsVal)
| GetActivityByUser (userId : JsVal)
| GetSalesRepsForFilter
| GetDailyWebsiteUrls (salesRepId date : JsVal)
| ExportWebsiteUrlData (filters : Rec)
| GetDeals (year : JsVal)
| GetDealById (id : JsVal)
| CreateDeal (dealData : Rec)
| UpdateDeal (id : JsVal) (updates : Rec)
| DeleteDeal (id : JsVal)
| GetContacts
| GetContactById (id : JsVal)
| CreateContact (contactData : Rec)
| UpdateContact (id : JsVal) (updates : Rec)
| DeleteContact (id : JsVal)
| GetTeamMembers
| GetTeamMemberById (id : JsVal)
| InviteTeamMember (memberData : Rec)
| UpdateTeamMember (id : JsVal) (updates : Rec)
| RemoveTeamMember (id : JsVal)
| GetTeamMemberPerformance (id : JsVal)
| ActivateTeamMember (id : JsVal)
| DeactivateTeamMember (id : JsVal).

(** What an operation resolves to. *)
Inductive Result : Type :=
| Records (l : list Rec)
| OneRecord (r : Rec)
| Done                                               (* [{success: true}] *)
| Leads (r : LeadsService.LeadsResult)
| DailyReport (l : list LeadsService.RepReport)
| Analytics (r : AnalyticsService.AnalyticsResult)
| DailyChart (c : AnalyticsService.Chart)
| LeadsMetrics (m : AnalyticsService.Metrics)
| UserStats (l : list AnalyticsService.UserStat)
| UrlActivity (a : ReportService.Activity).

(** Reads are the list, get-by-id and aggregate operations; mutations are
    the create, update and delete operations (for a team member: invite,
    update, activate, deactivate and remove). *)
Inductive Kind : Type := Read | Mutation.

Definition kind (op : Operation) : Kind :=
  match op with
  | CreateLead _ | UpdateLead _ _ | DeleteLead _
  | CreateSalesRep _ | UpdateSalesRep _ _ | DeleteSalesRep _
  | CreateDeal _ | UpdateDeal _ _ | DeleteDeal _
  | CreateContact _ | UpdateContact _ _ | DeleteContact _
  | InviteTeamMember _ | UpdateTeamMember _ _ | RemoveTeamMember _
  | ActivateTeamMember _ | DeactivateTeamMember _ => Mutation
  | _ => Read
  end.

Section Run.
Context {S : Type} (client : Client S) (rt : DateRuntime)
  (js : TeamService.JsonRuntime).
Local Open Scope js_scope.

Definition as_ {A} (f : A -> Result) (m : M S A) : M S Result :=
  a <- m ;; ret (f a).

Definition run (op : Operation) : M S Result :=
  match op with
  | GetLeads => as_ Leads (LeadsService.getLeads client rt)
  | GetLeadById id => as_ OneRecord (LeadsService.getLeadById client rt id)
  | CreateLead leadData => as_ OneRecord (LeadsService.createLead client rt leadData)
  | UpdateLead id updates => as_ OneRecord (LeadsService.updateLead client rt id updates)
  | DeleteLead id => as_ (fun _ => Done) (LeadsService.deleteLead client id)
  | GetDailyLeadsReport => as_ DailyReport (LeadsService.getDailyLeadsReport client rt)
  | GetPendingFollowUps => as_ Records (LeadsService.getPendingFollowUps client rt)
  | GetFreshLeadsOnly leadsArray =>
      as_ Records (LeadsService.getFreshLeadsOnly client rt leadsArray)
  | GetLeadsAnalytics period userId =>
      as_ Analytics (AnalyticsService.getLeadsAnalytics client rt period userId)
  | GetDailyLeadsChart userId days =>
      as_ DailyChart (AnalyticsService.getDailyLeadsChart client rt userId days)
  | GetLeadsMetrics userId =>
      as_ LeadsMetrics (AnalyticsService.getLeadsMetrics client rt userId)
  | GetUserPerformance => as_ UserStats (AnalyticsService.getUserPerformance client rt)
  | GetSalesReps => as_ Records (SalesRepService.getSalesReps client)
  | GetSalesRepById id => as_ OneRecord (SalesRepService.getSalesRepById client id)
  | CreateSalesRep repData => as_ OneRecord (SalesRepService.createSalesRep client repData)
  | UpdateSalesRep id updates =>
      as_ OneRecord (SalesRepService.updateSalesRep client id updates)
  | DeleteSalesRep id => as_ (fun _ => Done) (SalesRepService.deleteSalesRep client id)
  | GetWebsiteUrlActivity filters =>
      as_ UrlActivity (ReportService.getWebsiteUrlActivity client rt filters)
  | GetActivityByDate date => as_ UrlActivity (ReportService.getActivityByDate client rt date)
  | GetActivityByUser userId =>
      as_ UrlActivity (ReportService.getActivityByUser client rt userId)
  | GetSalesRepsForFilter => as_ Records (ReportService.getSalesRepsForFilter client)
  | GetDailyWebsiteUrls salesRepId date =>
      as_ Records (ReportService.getDailyWebsiteUrls client rt salesRepId date)
  | ExportWebsiteUrlData filters =>
      as_ Records (ReportService.exportWebsiteUrlData client rt filters)
  | GetDeals year => as_ Records (DealsService.getDeals client rt year)
  | GetDealById id => as_ OneRecord (DealsService.getDealById client rt id)
  | CreateDeal dealData => as_ OneRecord (DealsService.createDeal client rt dealData)
  | UpdateDeal id updates => as_ OneRecord (DealsService.updateDeal client rt id updates)
  | DeleteDeal id => as_ (fun _ => Done) (DealsService.deleteDeal client id)
  | GetContacts => as_ Records (ContactsService.getContacts client rt)
  | GetContactById id => as_ OneRecord (ContactsService.getContactById client rt id)
  | CreateContact contactData =>
      as_ OneRecord (ContactsService.createContact client rt contactData)
  | UpdateContact id updates =>
      as_ OneRecord (ContactsService.updateContact client rt id updates)
  | DeleteContact id => as_ (fun _ => Done) (ContactsService.deleteContact client id)
  | GetTeamMembers => as_ Records (TeamService.getTeamMembers client rt js)
  | GetTeamMemberById id => as_ OneRecord (TeamService.getTeamMemberById client rt js id)
  | InviteTeamMember memberData =>
      as_ OneRecord (TeamService.inviteTeamMember client rt js memberData)
  | UpdateTeamMember id updates =>
      as_ OneRecord (TeamService.updateTeamMember client rt js id updates)
  | RemoveTeamMember id => as_ (fun _ => Done) (TeamService.removeTeamMember client id)
  | GetTeamMemberPerformance id =>
      as_ OneRecord (TeamService.getTeamMemberPerformance client js id)
  | ActivateTeamMember id => as_ OneRecord (TeamService.activateTeamMember client rt js id)
  | DeactivateTeamMember id =>
      as_ OneRecord (TeamService.deactivateTeamMember client rt js id)
  end.

(** Every call to the client is answered with [success: false]. *)
Definition failing : Prop :=
  (forall entity p s, exists r s',
      fetchRecords client entity p s = (Return r, s') /\ success r = false)
  /\ (forall entity id p s, exists r s',
         getRecordById client entity id p s = (Return r, s') /\ success r = false)
  /\ (forall entity records s, exists r s',
         createRecord client entity records s = (Return r, s') /\ success r = false)
  /\ (forall entity records s, exists r s',
         updateRecord client entity records s = (Return r, s') /\ success r = false)
  /\ (forall entity ids s, exists r s',
         deleteRecord client entity ids s = (Return r, s') /\ success r = false).
End Run.

(** What an operation does when the store answers with [success: false]. *)
Inductive Behaviour : Type :=
| LogsAndReturns (r : Result)    (* one line is written, this result is returned *)
| ReturnsQuietly (r : Result)    (* this result is returned, nothing is written *)
| Returns (r : Result)           (* this result is returned *)
| ThrowsNotFound (m : string)    (* [Error(m)] is thrown *)
| Throws.                        (* an error is thrown *)

Definition meets {S} (b : Behaviour) (o : Outcome Result) (w w' : World S) : Prop :=
  match b with
  | LogsAndReturns r => o = Return r /\ exists line, console w' = console w ++ [line]
  | ReturnsQuietly r => o = Return r /\ console w' = console w
  | Returns r => o = Return r
  | ThrowsNotFound m => o = Throw (Error m)
  | Throws => exists e, o = Throw e
  end.

(** The metrics when every period has no leads. *)
Definition zeroMetrics : AnalyticsService.Metrics :=
  {| AnalyticsService.today :=
       {| AnalyticsService.tm_count := 0; AnalyticsService.trend := Some 100;
          AnalyticsService.tm_label := "Today" |};
     AnalyticsService.yesterday :=
       {| AnalyticsService.pm_count := 0; AnalyticsService.pm_label := "Yesterday" |};
     AnalyticsService.week :=
       {| AnalyticsService.pm_count := 0; AnalyticsService.pm_label := "This Week" |};
     AnalyticsService.month :=
       {| AnalyticsService.pm_count := 0; AnalyticsService.pm_label := "This Month" |};
     AnalyticsService.statusDistribution := [];
     AnalyticsService.categoryDistribution := [];
     AnalyticsService.totalLeads := 0 |}.

(** The behaviour of each operation on a failed response, as the code has
    it; [now] is the time of the call. *)
Definition onFailure (rt : DateRuntime) (now : Instant) (op : Operation) : Behaviour :=
  match op with
  | GetLeads =>
      LogsAndReturns (Leads {| LeadsService.leads := [];
                               LeadsService.deduplicationResult := JNull |})
  | GetLeadById _ => ThrowsNotFound "Lead not found"
  | GetSalesRepById _ => ThrowsNotFound "Sales rep not found"
  | GetDealById _ => ThrowsNotFound "Deal not found"
  | GetContactById _ => ThrowsNotFound "Contact not found"
  | GetTeamMemberById _ | GetTeamMemberPerformance _ =>
      ThrowsNotFound "Team member not found"
  | CreateLead _ | UpdateLead _ _ | DeleteLead _
  | CreateSalesRep _ | UpdateSalesRep _ _ | DeleteSalesRep _
  | CreateDeal _ | UpdateDeal _ _ | DeleteDeal _
  | CreateContact _ | UpdateContact _ _ | DeleteContact _
  | InviteTeamMember _ | UpdateTeamMember _ _ | RemoveTeamMember _
  | ActivateTeamMember _ | DeactivateTeamMember _ => Throws
  | GetDailyLeadsReport => ReturnsQuietly (DailyReport [])
  | GetLeadsMetrics _ => ReturnsQuietly (LeadsMetrics zeroMetrics)
  | GetFreshLeadsOnly leadsArray =>
      Returns (Records (List.filter (LeadsService.createdOn rt now) leadsArray))
  | GetPendingFollowUps | GetSalesReps | GetSalesRepsForFilter | GetDailyWebsiteUrls _ _
  | ExportWebsiteUrlData _ | GetDeals _ | GetContacts | GetTeamMembers =>
      LogsAndReturns (Records [])
  | GetLeadsAnalytics _ _ =>
      LogsAndReturns (Analytics {| AnalyticsService.leads := [];
                                   AnalyticsService.totalCount := 0 |})
  | GetDailyLeadsChart _ _ => LogsAndReturns (DailyChart AnalyticsService.emptyChart)
  | GetUserPerformance => LogsAndReturns (UserStats [])
  | GetWebsiteUrlActivity _ | GetActivityByDate _ | GetActivityByUser _ =>
      LogsAndReturns (UrlActivity ReportService.emptyActivity)
  end.

End Operations.

(* ===================================================================== *)
(** ** Readings of the specification *)
(* ===================================================================== *)

(** Definitions that follow the words of the specification, to be compared
    with what the services compute. *)
Module Spec.

(** A field that is absent from a record: the key is missing or holds
    [null]. *)
Definition absent (v : JsVal) : bool :=
  match v with
  | JUndef | JNull => true
  | _ => false
  end.

(** The external field renamed, with the default in its place exactly when
    the field is absent. *)
Definition defaultWhenAbsent (ext dflt : JsVal) : JsVal :=
  if absent ext then dflt else ext.

(** The uniform pattern as the specification words it: on a failed response
    a read logs the failure and returns (its empty or default result), a
    mutation throws. *)
Definition uniformPattern {S} (op : Operations.Operation)
    (o : Outcome Operations.Result) (w w' : World S) : Prop :=
  match Operations.kind op with
  | Operations.Read => (exists r, o = Return r) /\ console w' <> console w
  | Operations.Mutation => exists e, o = Throw e
  end.

(** A website URL that is absent or blank after trimming. *)
Definition blankUrl (websiteUrl : JsVal) : Prop :=
  truthy websiteUrl = false \/ exists s, websiteUrl = JStr s /\ trim s = "".

(** A website URL that passes the validation of [createLead]. *)
Definition validUrl (websiteUrl : JsVal) : Prop :=
  exists s, websiteUrl = JStr s /\ trim s <> "".

(** The store holds a lead record whose [website_url_c] equals the URL. *)
Definition storeHoldsUrl (st : Store.State) (websiteUrl : JsVal) : bool :=
  existsb (fun r => Store.sameValue (prop r "website_url_c") websiteUrl)
    (Store.table st "lead_c").

(** A lead whose URL is a string, or is missing or empty. *)
Definition plainUrl (lead : Rec) : Prop :=
  match jsOr (prop lead "websiteUrl") (prop lead "website_url_c") with
  | JStr _ => True
  | v => truthy v = false
  end.

(** The store holds a lead record with this website URL that was created
    strictly before the start of today. *)
Definition storeHoldsEarlier (rt : DateRuntime) (st : Store.State) (today : Instant)
    (url : JsVal) : bool :=
  existsb
    (fun r => strictEq (prop r "website_url_c") url
              && match newDate rt (prop r "created_at_c") with
                 | Some t => t <? localMidnight rt today
                 | None => false
                 end)
    (Store.table st "lead_c").

(** The lookup for the earlier records of the URL of a lead: the records
    whose [website_url_c] is [EqualTo] the URL of the lead and whose
    [created_at_c] is [LessThan] the date of today (UTC) at [T00:00:00Z]. *)
Definition earlierLookup (rt : DateRuntime) (today : Instant) (lead : Rec) : Params :=
  {| fields := ["created_at_c"];
     where_ := Some
       [ {| FieldName := "website_url_c"; Op := EqualTo;
            Values := [jsOr (prop lead "websiteUrl") (prop lead "website_url_c")] |};
         {| FieldName := "created_at_c"; Op := LessThan;
            Values := [JStr (isoDatePart (toISOString rt today) +:+ "T00:00:00Z")] |} ];
     orderBy := [] |}.

(** A lookup that failed or returned no record. *)
Definition foundNothing (r : Response (list Rec)) : bool :=
  negb (success r)
  || match data r with
     | Some (_ :: _) => false
     | _ => true
     end.

(** A lead of today is kept when its lookup, answered by [answer], failed or
    returned no record. *)
Definition freshBy (answer : Params -> Response (list Rec)) (rt : DateRuntime)
    (today : Instant) (lead : Rec) : bool :=
  foundNothing (answer (earlierLookup rt today lead)).

(** The number of records of [l] whose counted value is the key [k]. *)
Definition occurrences (key : Rec -> string) (l : list Rec) (k : string) : nat :=
  length (List.filter (fun x => String.eqb (key x) k) l).

(** A value that, as a property key, is no member of [Object.prototype]. *)
Definition plainKey (v : JsVal) : Prop := inherited (toStr v) = false.

(** A record whose [website_url_c] is a string, or is missing or empty. *)
Definition plainSite (lead : Rec) : Prop :=
  match prop lead "website_url_c" with
  | JStr _ => True
  | v => truthy v = false
  end.

(** A date that is valid, within the range of dates. *)
Definition validDate (d : JsDate) : Prop :=
  exists t, d = Some t /\ timeClip t = Some t.

(** Filters that can be read: every date that is given is a valid date, as
    are the two default bounds of a range, and so are the start and the end
    of the days computed from them; a search term is a string. *)
Definition readable (rt : DateRuntime) (filters : Rec) : Prop :=
  (truthy (prop filters "startDate") || truthy (prop filters "endDate") = true ->
   validDate (localMidnight rt <$>
                (if truthy (prop filters "startDate") then newDate rt (prop filters "startDate")
                 else dateParse rt "1900-01-01"))
   /\ validDate (endOfLocalDay rt <$>
                   (if truthy (prop filters "endDate") then newDate rt (prop filters "endDate")
                    else dateParse rt "2100-12-31")))
  /\ (truthy (prop filters "date") = true ->
      validDate (localMidnight rt <$> newDate rt (prop filters "date"))
      /\ validDate ((fun t => t + 24 * 60 * 60 * 1000) <$>
                      (localMidnight rt <$> newDate rt (prop filters "date"))))
  /\ (truthy (prop filters "searchTerm") = true ->
      exists term, prop filters "searchTerm" = JStr term).

(** A lead whose [created_at_c] has the given date part. *)
Definition createdOnDate (dateStr : string) (lead : Rec) : bool :=
  match prop lead "created_at_c" with
  | JStr s => negb (String.eqb s "") && String.eqb (isoDatePart s) dateStr
  | _ => false
  end.

(** A lead whose [created_at_c] is a string, or is missing or empty. *)
Definition dated (lead : Rec) : Prop :=
  match prop lead "created_at_c" with
  | JStr _ => True
  | v => truthy v = false
  end.

(** The trailing window of [days] days that ends now: the instants [i] days
    ago, for [i] from [days - 1] down to 0. *)
Definition window (now : Instant) (days : nat) : list Instant :=
  map (fun i => now - Z.of_nat i * DAY) (rev (seq 0 days)).

(** The day bucket of an instant: its date, the number of leads created on
    that date, and its short form. *)
Definition dayBucket (rt : DateRuntime) (leads : list Rec) (t : Instant)
    : AnalyticsService.ChartPoint :=
  {| AnalyticsService.date := isoDatePart (toISOString rt t);
     AnalyticsService.count :=
       length (List.filter (createdOnDate (isoDatePart (toISOString rt t))) leads);
     AnalyticsService.formattedDate := toLocaleShort rt t |}.

End Spec.

(* ===================================================================== *)
(** ** Sample data *)
(* ===================================================================== *)

Module Examples.

(** Tuesday 2 January 2024, 05:00 UTC. *)
Definition now : Instant := 1704171600000.

Definition alice : Rec :=
  [ ("Id", JNum 1); ("Name", JStr "Alice"); ("leads_contacted_c", JNum 10);
    ("meetings_booked_c", JNum 4); ("deals_closed_c", JNum 1);
    ("total_revenue_c", JNum 5000) ].

Definition bob : Rec :=
  [ ("Id", JNum 2); ("Name", JStr "Bob"); ("meetings_booked_c", JNum 0);
    ("deals_closed_c", JNum 3) ].

(** A lead of Alice, created today. *)
Definition acme : Rec :=
  [ ("Id", JNum 11); ("website_url_c", JStr "https://acme.io");
    ("status_c", JStr "Hotlist"); ("category_c", JStr "SaaS");
    ("added_by_c", JObj [("Id", JNum 1); ("Name", JStr "Alice")]);
    ("created_at_c", JStr "2024-01-02T03:00:00.000Z") ].

(** A lead created today by Carol, who is not a sales rep of the store. *)
Definition globex : Rec :=
  [ ("Id", JNum 12); ("website_url_c", JStr "https://globex.com");
    ("status_c", JStr "Hotlist");
    ("added_by_c", JObj [("Id", JNum 9); ("Name", JStr "Carol")]);
    ("created_at_c", JStr "2024-01-02T04:00:00.000Z") ].

(** A lead created today with no rep, an empty status and no category. *)
Definition initech : Rec :=
  [ ("Id", JNum 13); ("website_url_c", JStr "https://initech.com/");
    ("status_c", JStr ""); ("created_at_c", JStr "2024-01-02T04:30:00.000Z") ].

(** An earlier record of the URL of [acme], created three days before. *)
Definition acmeBefore : Rec :=
  [ ("Id", JNum 3); ("website_url_c", JStr "https://acme.io");
    ("status_c", JStr "Keep an Eye");
    ("added_by_c", JObj [("Id", JNum 2); ("Name", JStr "Bob")]);
    ("created_at_c", JStr "2023-12-30T10:00:00.000Z") ].

Definition todaysLeads : list Rec := [acme; globex; initech].
Definition salesReps : list Rec := [alice; bob].

(** A store that answers, holding today's leads and two sales reps. *)
Definition world : World Store.State :=
  initialWorld (Store.holding todaysLeads salesReps false) now.

(** The same store with the earlier record of [acme]'s URL. *)
Definition worldWithHistory : World Store.State :=
  initialWorld (Store.holding (acmeBefore :: todaysLeads) salesReps false) now.

(** The same store, answering every call with [success: false]. *)
Definition worldDown : World Store.State :=
  initialWorld (Store.holding (acmeBefore :: todaysLeads) salesReps true) now.

(** The argument of a [createLead] for the URL of [acme] again. *)
Definition acmeAgain : Rec := [("websiteUrl", JStr "https://acme.io")].

(** The same URL in capitals and with a trailing slash. *)
Definition acmeVariant : Rec := [("websiteUrl", JStr "HTTPS://ACME.IO/")].

(** A JSON runtime for the sample data.  [stringify] writes the values of
    the model (strings without control characters); [parseFlags] reads the
    compact text of a flat object of booleans, the form in which the
    permissions of a member are stored, and rejects every other text; the
    draws follow a fixed sequence. *)
Definition quote : ascii := ascii_of_nat 34.
Definition backslash : ascii := ascii_of_nat 92.

Fixpoint escape (s : string) : string :=
  match s with
  | EmptyString => EmptyString
  | String c s' =>
      if Ascii.eqb c quote || Ascii.eqb c backslash
      then String backslash (String c (escape s'))
      else String c (escape s')
  end.

Definition quoted (s : string) : string :=
  String quote (escape s) +:+ String quote EmptyString.

Fixpoint joinWith (sep : string) (l : list string) : string :=
  match l with
  | [] => EmptyString
  | [x] => x
  | x :: l' => x +:+ sep +:+ joinWith sep l'
  end.

Fixpoint stringify (v : JsVal) : option string :=
  match v with
  | JUndef => None
  | JNull | JNaN => Some "null"
  | JBool b => Some (if b then "true" else "false")
  | JNum n => Some (pretty n)
  | JStr s => Some (quoted s)
  | JObj fs =>
      let members :=
        (fix members (l : list (string * JsVal)) : list string :=
           match l with
           | [] => []
           | (k, x) :: l' =>
               match stringify x with
               | Some t => (quoted k +:+ ":" +:+ t) :: members l'
               | None => members l'
               end
           end) fs in
      Some ("{" +:+ joinWith "," members +:+ "}")
  end.

(** The text up to the closing quote of a key, and what follows it. *)
Fixpoint readKey (s : string) : option (string * string) :=
  match s with
  | EmptyString => None
  | String c s' =>
      if Ascii.eqb c quote then Some (EmptyString, s')
      else if Ascii.eqb c backslash then None
      else '(k, rest) ← readKey s'; Some (String c k, rest)
  end.

Definition readBool (s : string) : option (bool * string) :=
  if String.prefix "true" s then Some (true, String.substring 4 (String.length s - 4) s)
  else if String.prefix "false" s
       then Some (false, String.substring 5 (String.length s - 5) s)
       else None.

(** The members of a flat object after its opening brace. *)
Fixpoint readMembers (fuel : nat) (s : string) : option Rec :=
  match fuel, s with
  | Datatypes.S fuel', String c s1 =>
      if Ascii.eqb c quote then
        '(k, s2) ← readKey s1;
        match s2 with
        | String c2 s3 =>
            if Ascii.eqb c2 ":" then
              '(b, s4) ← readBool s3;
              match s4 with
              | String c4 s5 =>
                  if Ascii.eqb c4 "," then
                    rest ← readMembers fuel' s5; Some ((k, JBool b) :: rest)
                  else if Ascii.eqb c4 "}" then
                    match s5 with EmptyString => Some [(k, JBool b)] | _ => None end
                  else None
              | EmptyString => None
              end
            else None
        | EmptyString => None
        end
      else None
  | _, _ => None
  end.

Definition parseFlags (s : string) : Outcome JsVal :=
  let members :=
    match s with
    | String c s1 =>
        if Ascii.eqb c "{" then
          if String.eqb s1 "}" then Some [] else readMembers (String.length s) s1
        else None
    | EmptyString => None
    end in
  match members with
  | Some l => Return (JObj (fold_left (fun o kv => dictSet o (fst kv) (snd kv)) l []))
  | None => Throw (SyntaxError "Unexpected token in JSON")
  end.

Definition json : TeamService.JsonRuntime := {|
  TeamService.jsonParse := parseFlags;
  TeamService.jsonStringify :=
    fun v => match stringify v with Some t => JStr t | None => JUndef end;
  TeamService.randomBelow := fun i n => (7919 * Z.of_nat i + 13) mod n
|}.

(** A store that answers and holds the lead [acme] only. *)
Definition worldAcme : World Store.State :=
  initialWorld (Store.holding [acme] salesReps false) now.

(** A lead created today by a user named [constructor], who is not a sales
    rep of the store. *)
Definition rogue : Rec :=
  [ ("Id", JNum 15); ("website_url_c", JStr "https://rogue.example");
    ("status_c", JStr "Hotlist");
    ("added_by_c", JObj [("Id", JNum 8); ("Name", JStr "constructor")]);
    ("created_at_c", JStr "2024-01-02T04:50:00.000Z") ].

(** A store that answers and holds the leads [acme] and [rogue]. *)
Definition worldRogue : World Store.State :=
  initialWorld (Store.holding [acme; rogue] salesReps false) now.

(** A lead whose status is the text [__proto__]. *)
Definition odd : Rec :=
  [ ("Id", JNum 14); ("website_url_c", JStr "https://odd.example");
    ("status_c", JStr "__proto__"); ("category_c", JStr "SaaS");
    ("created_at_c", JStr "2024-01-02T04:45:00.000Z") ].

(** A store that answers and holds the lead [odd] only. *)
Definition worldOdd : World Store.State :=
  initialWorld (Store.holding [odd] salesReps false) now.

End Examples.

(* ===================================================================== *)
(** ** What a run does to the console and to the store *)
(* ===================================================================== *)

Module Effects.

(** A computation that returns in every world: it never throws. *)
Definition neverThrows {S A} (m : M S A) : Prop :=
  forall w, exists a w', m w = (Return a, w').

(** A computation that writes nothing to the console when it returns. *)
Definition silentReturn {S A} (m : M S A) : Prop :=
  forall w a w', m w = (Return a, w') -> console w' = console w.

(** A call that reads the store. *)
Definition isReadCall (c : Call) : bool :=
  match c with
  | CFetch _ _ | CGet _ _ _ => true
  | CCreate _ _ | CUpdate _ _ | CDelete _ _ => false
  end.

(** A computation all of whose calls to the client satisfy [P]. *)
Definition onlyCalls {S A} (P : Call -> bool) (m : M S A) : Prop :=
  forall w o w', m w = (o, w') ->
    exists calls, history w' = history w ++ calls /\ forallb P calls = true.

(** The last line of the console. *)
Definition lastLine {S} (w : World S) : option (string * JsVal) := last (console w).

End Effects.

Module Behaviour.
Import Operations Effects.

(** The reads that hand a failure to their caller: the get-by-id
    operations and the performance read of a team member. *)
Definition mayThrow (op : Operation) : bool :=
  match op with
  | GetLeadById _ | GetSalesRepById _ | GetDealById _ | GetContactById _
  | GetTeamMemberById _ | GetTeamMemberPerformance _ => true
  | _ => false
  end.

(** The message of the error that a get-by-id operation throws, and the
    label of the line it logs. *)
Definition notFound (op : Operation) : option (string * string) :=
  match op with
  | GetLeadById _ => Some ("Lead not found", "Error fetching lead by ID:")
  | GetSalesRepById _ => Some ("Sales rep not found", "Error fetching sales rep by ID:")
  | GetDealById _ => Some ("Deal not found", "Error fetching deal by ID:")
  | GetContactById _ => Some ("Contact not found", "Error fetching contact by ID:")
  | GetTeamMemberById _ => Some ("Team member not found", "Error fetching team member by ID:")
  | _ => None
  end.

(** The kinds of write of the client. *)
Inductive WriteKind : Type := Creates | Updates | Deletes.

(** The entity that a mutation writes, the kind of its write, and whether
    it first looks the entity up. *)
Definition target (op : Operation) : option (string * WriteKind * bool) :=
  match op with
  | CreateLead _ => Some ("lead_c", Creates, true)
  | UpdateLead _ _ => Some ("lead_c", Updates, false)
  | DeleteLead _ => Some ("lead_c", Deletes, false)
  | CreateSalesRep _ => Some ("sales_rep_c", Creates, false)
  | UpdateSalesRep _ _ => Some ("sales_rep_c", Updates, false)
  | DeleteSalesRep _ => Some ("sales_rep_c", Deletes, false)
  | CreateDeal _ => Some ("deal_c", Creates, false)
  | UpdateDeal _ _ => Some ("deal_c", Updates, false)
  | DeleteDeal _ => Some ("deal_c", Deletes, false)
  | CreateContact _ => Some ("contact_c", Creates, false)
  | UpdateContact _ _ => Some ("contact_c", Updates, false)
  | DeleteContact _ => Some ("contact_c", Deletes, false)
  | InviteTeamMember _ => Some ("team_member_c", Creates, true)
  | UpdateTeamMember _ _ => Some ("team_member_c", Updates, true)
  | ActivateTeamMember _ | DeactivateTeamMember _ =>
      Some ("team_member_c", Updates, false)
  | RemoveTeamMember _ => Some ("team_member_c", Deletes, false)
  | _ => None
  end.

(** The calls that an operation may make: a read only reads; a mutation
    makes its own kind of write on its own entity, after a lookup of the
    same entity when it has one. *)
Definition permitted (op : Operation) (c : Call) : bool :=
  match target op with
  | None => isReadCall c
  | Some (entity, write, looksUp) =>
      match c, write with
      | CFetch e _, _ => looksUp && String.eqb e entity
      | CCreate e _, Creates | CUpdate e _, Updates | CDelete e _, Deletes =>
          String.eqb e entity
      | _, _ => false
      end
  end.

(** The entity and the id of a delete operation. *)
Definition deletion (op : Operation) : option (string * JsVal) :=
  match op with
  | DeleteLead id => Some ("lead_c", id)
  | DeleteSalesRep id => Some ("sales_rep_c", id)
  | DeleteDeal id => Some ("deal_c", id)
  | DeleteContact id => Some ("contact_c", id)
  | RemoveTeamMember id => Some ("team_member_c", id)
  | _ => None
  end.

(** A response to [deleteRecord] that a delete operation takes for a
    success: [success] is set and the first result, when there is one, has
    [success] set. *)
Definition accepted (r : Response unit) : bool :=
  success r
  && match results r with
     | Some (result :: _) => r_success result
     | _ => true
     end.

(** The internal names that [updateLead] reads and the fields that it
    writes for them. *)
Definition leadColumns : list (string * string) :=
  [ ("websiteUrl", "website_url_c"); ("teamSize", "team_size_c"); ("arr", "arr_c");
    ("category", "category_c"); ("linkedinUrl", "linkedin_url_c"); ("status", "status_c");
    ("fundingType", "funding_type_c"); ("edition", "edition_c");
    ("followUpDate", "follow_up_date_c"); ("addedBy", "added_by_c") ].

Definition salesRepColumns : list (string * string) :=
  [ ("name", "Name"); ("leadsContacted", "leads_contacted_c");
    ("meetingsBooked", "meetings_booked_c"); ("dealsClosed", "deals_closed_c");
    ("totalRevenue", "total_revenue_c") ].

Definition dealColumns : list (string * string) :=
  [ ("name", "Name"); ("leadName", "lead_name_c"); ("leadId", "lead_id_c");
    ("value", "value_c"); ("stage", "stage_c"); ("assignedRep", "assigned_rep_c");
    ("edition", "edition_c"); ("startMonth", "start_month_c");
    ("endMonth", "end_month_c") ].

Definition contactColumns : list (string * string) :=
  [ ("name", "Name"); ("email", "email_c"); ("company", "company_c");
    ("assignedRep", "assigned_rep_c"); ("status", "status_c") ].

(** The entity, the id, the updates and the columns of an update operation
    that copies the given fields as they are. *)
Definition partialUpdate (op : Operation)
    : option (string * JsVal * Rec * list (string * string)) :=
  match op with
  | UpdateLead id updates => Some ("lead_c", id, updates, leadColumns)
  | UpdateSalesRep id updates => Some ("sales_rep_c", id, updates, salesRepColumns)
  | UpdateDeal id updates => Some ("deal_c", id, updates, dealColumns)
  | UpdateContact id updates => Some ("contact_c", id, updates, contactColumns)
  | _ => None
  end.

(** The fields written for the updates that are not [undefined]. *)
Definition sent (updates : Rec) (columns : list (string * string)) : Rec :=
  flat_map (fun kc => whenDefined updates (fst kc) (snd kc)) columns.

(** [k in r]: the record has the key. *)
Definition hasKey (r : Rec) (k : string) : bool :=
  existsb (fun kv => String.eqb (fst kv) k) r.

(** The internal names that [getLeadsAnalytics] adds to a fetched record
    and the fields that it copies into them. *)
Definition analyticsColumns : list (string * string) :=
  [ ("websiteUrl", "website_url_c"); ("teamSize", "team_size_c"); ("arr", "arr_c");
    ("category", "category_c"); ("linkedinUrl", "linkedin_url_c"); ("status", "status_c");
    ("fundingType", "funding_type_c"); ("edition", "edition_c");
    ("followUpDate", "follow_up_date_c"); ("createdAt", "created_at_c") ].

(** All the names that [getLeadsAnalytics] adds. *)
Definition analyticsNames : list string :=
  map fst analyticsColumns ++ ["addedBy"; "addedByName"].

(** What a row of the export holds for a lead of the activity report. *)
Definition rowOf (rt : DateRuntime) (lead row : Rec) : Prop :=
  prop row "ARR" = JStr ("$" +:+ millions (prop lead "arr") +:+ "M")
  /\ prop row "Category" = prop lead "category"
  /\ prop row "Status" = prop lead "status"
  /\ prop row "Funding Type" = prop lead "fundingType"
  /\ prop row "Added By" = prop lead "addedByName"
  /\ prop row "Date Added"
     = JStr (localeDateString rt (newDate rt (prop lead "createdAt"))).

(** The two filters on [created_at_c] for the texts of two bounds. *)
Definition between (lower upper : string) : list Filter :=
  [ {| FieldName := "created_at_c"; Op := GreaterThanOrEqualTo; Values := [JStr lower] |};
    {| FieldName := "created_at_c"; Op := LessThan; Values := [JStr upper] |} ].

(** A value that fails [!v || !v.trim()]: it is falsy, or a string that
    is empty once trimmed. *)
Definition blank (v : JsVal) : Prop :=
  truthy v = false \/ exists s, v = JStr s /\ trim s = "".

(** A string that is not empty once trimmed. *)
Definition filled (v : JsVal) (s : string) : Prop := v = JStr s /\ trim s <> "".

(** The world after [console.error(label, message)]. *)
Definition logged {S} (w : World S) (label message : string) : World S :=
  {| backend := backend w; clock := clock w;
     console := console w ++ [(label, JStr message)]; history := history w |}.

(** Every group of [reportData] sits under the key of its own name. *)
Definition keyed (reportData : Dict LeadsService.RepReport) : Prop :=
  Forall (fun e => toStr (LeadsService.salesRep (snd e)) = fst e) reportData.

(** What holds of [reportData] when the leads [done] have been added: the
    prototype is [Object.prototype], every group sits under the key of its
    name, once, and holds the leads of [done] with that rep name; the leads
    of ['Unknown'] have made their group. *)
Definition sortedInto (done : list Rec) (reportData : LeadsService.ReportData) : Prop :=
  LeadsService.parent reportData = None
  /\ keyed (LeadsService.groups reportData)
  /\ NoDup (map fst (LeadsService.groups reportData))
  /\ (forall k g,
        dictGet (LeadsService.groups reportData) k = Some g ->
        LeadsService.repLeads g
        = map LeadsService.reportItem
            (List.filter (fun lead => String.eqb (toStr (LeadsService.repNameOf lead)) k)
               done))
  /\ (dictGet (LeadsService.groups reportData) "Unknown" = None ->
      Forall (fun lead => toStr (LeadsService.repNameOf lead) <> "Unknown") done).

(** The answer [{success: true}], with no [data]. *)
Definition noData : Response (list Rec) :=
  {| success := true; data := None; results := None; message := JUndef |}.

(** What a list read or a report returns when every fetch is answered with
    [{success: true}] and no [data], and whether it logs an error to do so. *)
Definition withoutData (op : Operation) : option (Result * bool) :=
  match op with
  | GetLeads =>
      Some (Leads {| LeadsService.leads := []; LeadsService.deduplicationResult := JNull |},
            false)
  | GetPendingFollowUps | GetSalesReps | GetSalesRepsForFilter | GetDeals _ | GetContacts
  | GetTeamMembers => Some (Records [], false)
  | GetLeadsAnalytics _ _ =>
      Some (Analytics {| AnalyticsService.leads := []; AnalyticsService.totalCount := 0 |},
            false)
  | GetUserPerformance => Some (UserStats [], false)
  | GetLeadsMetrics _ => Some (LeadsMetrics AnalyticsService.defaultMetrics, true)
  | GetDailyLeadsReport => Some (DailyReport [], true)
  | _ => None
  end.

(** A client that answers every fetch with [{success: true}] and no
    [data], and rejects every other call. *)
Definition dataless : Client unit := {|
  fetchRecords := fun _ _ s => (Return noData, s);
  getRecordById := fun _ _ _ s => (Throw (TypeError "Failed to fetch"), s);
  createRecord := fun _ _ s => (Throw (TypeError "Failed to fetch"), s);
  updateRecord := fun _ _ s => (Throw (TypeError "Failed to fetch"), s);
  deleteRecord := fun _ _ s => (Throw (TypeError "Failed to fetch"), s)
|}.

(** A lead whose [created_at_c] is a number. *)
Definition stamped : Rec := [("Id", JNum 31); ("created_at_c", JNum 1704171600000)].

(** A client that answers every fetch of one entity with the given records
    and rejects every other call. *)
Definition answering (entity : string) (rows : list Rec) : Client unit := {|
  fetchRecords := fun e _ s =>
    if String.eqb e entity
    then (Return {| success := true; data := Some rows; results := None;
                    message := JUndef |}, s)
    else (Throw (TypeError "Failed to fetch"), s);
  getRecordById := fun _ _ _ s => (Throw (TypeError "Failed to fetch"), s);
  createRecord := fun _ _ s => (Throw (TypeError "Failed to fetch"), s);
  updateRecord := fun _ _ s => (Throw (TypeError "Failed to fetch"), s);
  deleteRecord := fun _ _ s => (Throw (TypeError "Failed to fetch"), s)
|}.

(** A team member whose stored permissions are not JSON, and one whose
    permissions are. *)
Definition dana : Rec :=
  [ ("Id", JNum 21); ("Name", JStr "Dana"); ("email_c", JStr "dana@apex.io");
    ("permissions_c", JStr "all") ].

Definition erin : Rec :=
  [ ("Id", JNum 22); ("Name", JStr "Erin"); ("email_c", JStr "erin@apex.io");
    ("permissions_c", JStr "{}") ].

(** A reference store that holds the two team members. *)
Definition teamStore : Store.State :=
  {| Store.tables := [("team_member_c", [erin; dana])]; Store.nextId := 1000;
     Store.down := false |}.

(** A client that cannot reach the store: every call rejects. *)
Definition unreachable : Client unit := {|
  fetchRecords := fun _ _ s => (Throw (TypeError "Failed to fetch"), s);
  getRecordById := fun _ _ _ s => (Throw (TypeError "Failed to fetch"), s);
  createRecord := fun _ _ s => (Throw (TypeError "Failed to fetch"), s);
  updateRecord := fun _ _ s => (Throw (TypeError "Failed to fetch"), s);
  deleteRecord := fun _ _ s => (Throw (TypeError "Failed to fetch"), s)
|}.

End Behaviour.

(* ===================================================================== *)
(** * Properties *)
(* ===================================================================== *)

(** ** Strings, numbers and dates *)

(** [trim] removes the white space of JavaScript, also outside ASCII (here
    a no-break space, a line separator and a byte order mark), and keeps
    the other characters (here an accented letter). *)
Example trim_white_space :
  trim (ofBytes [194; 160]%nat +:+ " Al"
        +:+ ofBytes [226; 128; 168; 239; 187; 191; 9]%nat) = "Al"
  /\ trim (ofBytes [194; 160]%nat) = ""
  /\ trim (ofBytes [195; 169; 32]%nat) = ofBytes [195; 169]%nat.
Proof. repeat split. Qed.

(** [Number] reads a fraction, an exponent and a radix prefix. *)
Example number_literals :
  map (fun s => toNumber (JStr s)) ["4.0"; "1e1"; "0x10"; " 42 "; ""; "-7"; "12px"; "0x"]
  = [Some 4; Some 10; Some 16; Some 42; Some 0; Some (-7); None; None].
Proof. reflexivity. Qed.

(** [parseInt] reads the integer at the start, in base sixteen after [0x]. *)
Example parseInt_prefixes :
  map (fun s => parseInt (JStr s)) ["0x1A"; "12px"; " -7.5"; "abc"]
  = [JNum 26; JNum 12; JNum (-7); JNaN].
Proof. reflexivity. Qed.

(** The time values of dates end at [maxTime]. *)
Example timeClip_range :
  timeClip maxTime = Some maxTime /\ timeClip (maxTime + 1) = None
  /\ timeClip (- maxTime) = Some (- maxTime) /\ timeClip (- maxTime - 1) = None.
Proof. repeat split. Qed.

(** ** Running a computation *)

Section MonadFacts.
Context {S : Type}.

Lemma bind_Return_inv {A B} (m : M S A) (k : A -> M S B) w b w' :
  bind m k w = (Return b, w') ->
  exists a w1, m w = (Return a, w1) /\ k a w1 = (Return b, w').
Proof.
  unfold bind. destruct (m w) as [[a|e] w1]; intros H; [eauto | discriminate].
Qed.

Lemma bind_Return {A B} (m : M S A) (k : A -> M S B) w a w1 :
  m w = (Return a, w1) -> bind m k w = k a w1.
Proof. unfold bind. intros ->. reflexivity. Qed.

Lemma bind_Throw {A B} (m : M S A) (k : A -> M S B) w e w1 :
  m w = (Throw e, w1) -> bind m k w = (Throw e, w1).
Proof. unfold bind. intros ->. reflexivity. Qed.

Lemma required_Return_inv {A} what (o : option A) (w : World S) a w' :
  required what o w = (Return a, w') -> o = Some a /\ w' = w.
Proof.
  destruct o; unfold required, ret, throw; intros H; inversion H; auto.
Qed.

(** A [try] whose handler always returns always returns, and a property
    of both ways out holds of the result. *)
Lemma tryCatch_returns {A} (P : A -> Prop) (body : M S A) handler w :
  (forall a w', body w = (Return a, w') -> P a) ->
  (forall e w1, exists a w', handler e w1 = (Return a, w') /\ P a) ->
  exists a w', tryCatch body handler w = (Return a, w') /\ P a.
Proof.
  intros Hbody Hhandler. unfold tryCatch.
  destruct (body w) as [[a|e] w1] eqn:E.
  - exists a, w1. split; [reflexivity | eauto].
  - apply Hhandler.
Qed.

Lemma mapM_length {A B} (f : A -> M S B) l w ys w' :
  mapM f l w = (Return ys, w') -> length ys = length l.
Proof.
  revert w ys w'. induction l as [|x l IH]; intros w ys w' H; cbn in H.
  - inversion H. reflexivity.
  - apply bind_Return_inv in H as (y & w1 & _ & H).
    apply bind_Return_inv in H as (ys' & w2 & Hys & H).
    inversion H; subst. cbn. f_equal. eauto.
Qed.
End MonadFacts.

(** Inverts a run of binds that ends in a returned value. *)
Ltac invert_run H :=
  repeat match type of H with
    | bind _ _ _ = (Return _, _) =>
        let a := fresh "a" in let w := fresh "w" in let Ha := fresh "Hrun" in
        apply bind_Return_inv in H as (a & w & Ha & H)
    | ret _ _ = (Return _, _) => unfold ret in H; inversion H; subst; clear H
    end.

(** ** Counters *)

Lemma dictGet_dictSet {A} (o : Dict A) k v k' :
  dictGet (dictSet o k v) k' = if String.eqb k k' then Some v else dictGet o k'.
Proof.
  induction o as [|[k0 v0] o IH]; cbn.
  - destruct (String.eqb k k'); reflexivity.
  - destruct (String.eqb k0 k) eqn:E0; cbn.
    + apply String.eqb_eq in E0. subst k0.
      destruct (String.eqb k k'); reflexivity.
    + rewrite IH. destruct (String.eqb k0 k') eqn:E1; [| reflexivity].
      apply String.eqb_eq in E1. subst k0. rewrite String.eqb_sym, E0. reflexivity.
Qed.

Lemma totalCount_dictSet_new (acc : Dict Counter) k c :
  dictGet acc k = None -> totalCount (dictSet acc k c) = (totalCount acc + countOf c)%nat.
Proof.
  unfold totalCount, list_sum. induction acc as [|[k0 c0] acc IH]; cbn.
  - intros _. lia.
  - destruct (String.eqb k0 k); [discriminate |]. intros H. cbn. rewrite IH by exact H. lia.
Qed.

Lemma totalCount_dictSet_old (acc : Dict Counter) k c c0 :
  dictGet acc k = Some c0 ->
  (totalCount (dictSet acc k c) + countOf c0 = totalCount acc + countOf c)%nat.
Proof.
  unfold totalCount, list_sum. induction acc as [|[k1 c1] acc IH]; cbn.
  - discriminate.
  - destruct (String.eqb k1 k); cbn.
    + intros H. inversion H; subst. lia.
    + intros H. specialize (IH H). lia.
Qed.

Lemma dictSet_counts (acc : Dict Counter) k c :
  forallb (fun e => isCount (snd e)) acc = true -> isCount c = true ->
  forallb (fun e => isCount (snd e)) (dictSet acc k c) = true.
Proof.
  intros Hacc Hc. induction acc as [|[k0 c0] acc IH]; cbn in *.
  - rewrite Hc. reflexivity.
  - apply andb_true_iff in Hacc as [H0 Hacc].
    destruct (String.eqb k0 k); cbn; rewrite ?Hc, ?H0; auto.
Qed.

Lemma dictGet_counts (acc : Dict Counter) k c :
  forallb (fun e => isCount (snd e)) acc = true -> dictGet acc k = Some c ->
  isCount c = true.
Proof.
  induction acc as [|[k0 c0] acc IH]; cbn; [discriminate |].
  intros H. apply andb_true_iff in H as [H0 Hacc].
  destruct (String.eqb k0 k); [intros E; inversion E; subst; exact H0 | auto].
Qed.

Lemma inherited_proto k : inherited k = false -> String.eqb k "__proto__" = false.
Proof.
  unfold inherited, objectPrototypeKeys. cbn. intros H.
  repeat (apply orb_false_iff in H as [? H]). assumption.
Qed.

(** A key that is not inherited is counted once more, and by a number. *)
Lemma bump_plain (acc : Dict Counter) k :
  inherited k = false ->
  forallb (fun e => isCount (snd e)) acc = true ->
  totalCount (bump acc k) = Datatypes.S (totalCount acc)
  /\ forallb (fun e => isCount (snd e)) (bump acc k) = true.
Proof.
  intros Hk Hacc. unfold bump. rewrite (inherited_proto k Hk), Hk.
  destruct (dictGet acc k) as [c|] eqn:E.
  - pose proof (dictGet_counts acc k c Hacc E) as Hc.
    destruct c as [n|m ones]; [| discriminate].
    split; [| apply dictSet_counts; auto].
    pose proof (totalCount_dictSet_old acc k (Count (n + 1)) (Count n) E) as H.
    cbn in H. lia.
  - split; [| apply dictSet_counts; auto].
    rewrite totalCount_dictSet_new by exact E. cbn. lia.
Qed.

Lemma fold_bump_plain {A} (key : A -> string) (l : list A) (acc : Dict Counter) :
  Forall (fun x => inherited (key x) = false) l ->
  forallb (fun e => isCount (snd e)) acc = true ->
  totalCount (fold_left (fun acc x => bump acc (key x)) l acc)
  = (totalCount acc + length l)%nat
  /\ forallb (fun e => isCount (snd e)) (fold_left (fun acc x => bump acc (key x)) l acc)
     = true.
Proof.
  intros Hl. revert acc.
  induction Hl as [|x l Hx _ IH]; intros acc Hacc; cbn [fold_left length].
  - split; [lia | exact Hacc].
  - destruct (bump_plain acc (key x) Hx Hacc) as [Ht Hc].
    destruct (IH _ Hc) as [IHt IHc]. split; [rewrite IHt, Ht; lia | exact IHc].
Qed.

Lemma filter_snoc {A} (p : A -> bool) (l : list A) x :
  List.filter p (l ++ [x]) = List.filter p l ++ (if p x then [x] else []).
Proof. rewrite List.filter_app. cbn. destruct (p x); reflexivity. Qed.

Lemma occurrences_snoc key l x k :
  Spec.occurrences key (l ++ [x]) k
  = (Spec.occurrences key l k + if String.eqb (key x) k then 1 else 0)%nat.
Proof.
  unfold Spec.occurrences. rewrite filter_snoc, length_app.
  destruct (String.eqb (key x) k); reflexivity.
Qed.

Lemma counterOf_succ n : counterOf (n + 1) = Some (Count (n + 1)).
Proof. rewrite Nat.add_1_r. reflexivity. Qed.

(** A key that is not inherited gets the number of its occurrences. *)
Lemma bump_counts key (done : list Rec) (acc : Dict Counter) x :
  inherited (key x) = false ->
  (forall k, dictGet acc k = counterOf (Spec.occurrences key done k)) ->
  forall k, dictGet (bump acc (key x)) k = counterOf (Spec.occurrences key (done ++ [x]) k).
Proof.
  intros Hx Hacc k. unfold bump. rewrite (inherited_proto _ Hx), Hx.
  rewrite occurrences_snoc. pose proof (Hacc (key x)) as Hk.
  destruct (Spec.occurrences key done (key x)) as [|n] eqn:E; cbn in Hk; rewrite Hk.
  - rewrite dictGet_dictSet. destruct (String.eqb (key x) k) eqn:Ek.
    + apply String.eqb_eq in Ek. subst k. rewrite E. reflexivity.
    + rewrite Nat.add_0_r. apply Hacc.
  - rewrite dictGet_dictSet. destruct (String.eqb (key x) k) eqn:Ek.
    + apply String.eqb_eq in Ek. subst k. rewrite E, counterOf_succ. reflexivity.
    + rewrite Nat.add_0_r. apply Hacc.
Qed.

Lemma fold_bump_counts key (l : list Rec) : forall done (acc : Dict Counter),
  Forall (fun x => inherited (key x) = false) l ->
  (forall k, dictGet acc k = counterOf (Spec.occurrences key done k)) ->
  forall k,
    dictGet (fold_left (fun acc x => bump acc (key x)) l acc) k
    = counterOf (Spec.occurrences key (done ++ l) k).
Proof.
  induction l as [|x l IH]; intros done acc Hl Hacc k; cbn [fold_left].
  - rewrite app_nil_r. apply Hacc.
  - inversion Hl as [|? ? Hx Hl']; subst.
    change (x :: l) with ([x] ++ l). rewrite app_assoc.
    apply IH; [exact Hl' |]. apply bump_counts; assumption.
Qed.

Lemma distribution_total field (all : list Rec) :
  Forall (fun lead => Spec.plainKey (jsOr (prop lead field) (JStr "Unknown"))) all ->
  totalCount (AnalyticsService.distribution field all) = length all
  /\ (forall k,
        dictGet (AnalyticsService.distribution field all) k
        = counterOf
            (Spec.occurrences
               (fun lead => toStr (jsOr (prop lead field) (JStr "Unknown"))) all k)).
Proof.
  intros H. unfold AnalyticsService.distribution. split.
  - refine (proj1 (fold_bump_plain
             (fun lead => toStr (jsOr (prop lead field) (JStr "Unknown"))) all [] H _)).
    reflexivity.
  - apply (fold_bump_counts
             (fun lead => toStr (jsOr (prop lead field) (JStr "Unknown"))) all [] [] H).
    reflexivity.
Qed.

Lemma summaryBy_total k (data : list Rec) :
  Forall (fun lead => Spec.plainKey (prop lead k)) data ->
  totalCount (ReportService.summaryBy k data) = length data
  /\ (forall k',
        dictGet (ReportService.summaryBy k data) k'
        = counterOf (Spec.occurrences (fun lead => toStr (prop lead k)) data k')).
Proof.
  intros H. unfold ReportService.summaryBy. split.
  - refine (proj1 (fold_bump_plain (fun lead => toStr (prop lead k)) data [] H _)).
    reflexivity.
  - apply (fold_bump_counts (fun lead => toStr (prop lead k)) data [] [] H). reflexivity.
Qed.

Section CountedRecords.
Context {S : Type} (client : Client S) (rt : DateRuntime).

Lemma fetchPeriod_answered userId period (w : World S) response s1 :
  fetchRecords client "lead_c" (AnalyticsService.periodParams rt (clock w) userId period)
    (backend w) = (Return response, s1) ->
  exists w1,
    AnalyticsService.fetchPeriod client rt userId period w
    = (Return (rowsOrEmpty response), w1)
    /\ clock w1 = clock w /\ console w1 = console w /\ backend w1 = s1.
Proof.
  intros Hans. unfold AnalyticsService.fetchPeriod, bind, newDateNow, callFetch, perform, ret.
  rewrite Hans. eexists. split; [reflexivity |]. repeat split.
Qed.

Lemma isoOf_valid d (w : World S) :
  Spec.validDate d -> exists iso, isoOf rt d w = (Return iso, w).
Proof.
  intros (t & -> & Ht). unfold isoOf. rewrite Ht. eexists. reflexivity.
Qed.

Lemma rangeFilters_readable filters (w : World S) :
  Spec.readable rt filters ->
  exists fs, ReportService.rangeFilters rt filters w = (Return fs, w).
Proof.
  intros (Hrange & _). unfold ReportService.rangeFilters.
  destruct (truthy (prop filters "startDate") || truthy (prop filters "endDate")) eqn:E;
    [| eexists; reflexivity].
  destruct (Hrange eq_refl) as [Hs He].
  change (newDate rt (JStr "1900-01-01")) with (dateParse rt "1900-01-01").
  change (newDate rt (JStr "2100-12-31")) with (dateParse rt "2100-12-31").
  destruct (isoOf_valid _ w Hs) as (a & Ha).
  destruct (isoOf_valid _ w He) as (b & Hb).
  cbv zeta. rewrite (bind_Return _ _ _ _ _ Ha), (bind_Return _ _ _ _ _ Hb).
  eexists. reflexivity.
Qed.

Lemma dayFilters_readable filters (w : World S) :
  Spec.readable rt filters ->
  exists fs,
    (if truthy (prop filters "date")
     then ReportService.dayFilters rt (prop filters "date") else ret []) w
    = (Return fs, w).
Proof.
  intros (_ & Hday & _).
  destruct (truthy (prop filters "date")) eqn:E; [| eexists; reflexivity].
  destruct (Hday eq_refl) as [Hs He].
  unfold ReportService.dayFilters.
  destruct (isoOf_valid _ w Hs) as (a & Ha).
  destruct (isoOf_valid _ w He) as (b & Hb).
  cbv zeta. rewrite (bind_Return _ _ _ _ _ Ha), (bind_Return _ _ _ _ _ Hb).
  eexists. reflexivity.
Qed.

Lemma activityLead_plainSite nowIso lead (w : World S) :
  Spec.plainSite lead ->
  exists out,
    ReportService.activityLead nowIso lead w = (Return out, w)
    /\ prop out "status" = jsOr (prop lead "status_c") (JStr "")
    /\ prop out "category" = jsOr (prop lead "category_c") (JStr "").
Proof.
  intros H.
  assert (Hurl : exists u,
             ReportService.cleanWebsiteUrl (jsOr (prop lead "website_url_c") (JStr "")) w
             = (Return u, w)).
  { unfold Spec.plainSite in H. unfold ReportService.cleanWebsiteUrl, jsOr.
    destruct (prop lead "website_url_c") as [| |b|n| |s|f]; cbn in *;
      try rewrite H; try discriminate; cbn; try (eexists; reflexivity).
    destruct (String.eqb s "") eqn:E; cbn; rewrite ?E; cbn; eexists; reflexivity. }
  destruct Hurl as (u & Hu). unfold ReportService.activityLead.
  rewrite (bind_Return _ _ _ _ _ Hu). eexists. split; [reflexivity |].
  split; reflexivity.
Qed.

Lemma mapM_activityLead nowIso leads (w : World S) :
  Forall Spec.plainSite leads ->
  exists outs,
    mapM (ReportService.activityLead nowIso) leads w = (Return outs, w)
    /\ Forall2 (fun lead out =>
                  prop out "status" = jsOr (prop lead "status_c") (JStr "")
                  /\ prop out "category" = jsOr (prop lead "category_c") (JStr ""))
         leads outs.
Proof.
  induction 1 as [|lead leads Hlead _ IH]; cbn.
  - eexists. split; [reflexivity | constructor].
  - destruct (activityLead_plainSite nowIso lead w Hlead) as (out & Hout & Hf).
    destruct IH as (outs & Houts & Hall).
    rewrite (bind_Return _ _ _ _ _ Hout), (bind_Return _ _ _ _ _ Houts).
    eexists. split; [reflexivity | constructor; assumption].
Qed.

Lemma Forall2_plainKey field (d : JsVal) (k : string) (leads outs : list Rec) :
  Forall2 (fun lead out => prop out k = jsOr (prop lead field) d) leads outs ->
  Forall (fun lead => Spec.plainKey (jsOr (prop lead field) d)) leads ->
  Forall (fun out => Spec.plainKey (prop out k)) outs.
Proof.
  induction 1 as [|lead out leads outs H _ IH]; intros Hall; [constructor |].
  inversion Hall; subst. constructor; [rewrite H; assumption | auto].
Qed.
End CountedRecords.




(** ** Sorting *)

Lemma insertBy_Permutation {A} (cmp : A -> A -> Z) x l :
  Permutation (insertBy cmp x l) (x :: l).
Proof.
  induction l as [|y l IH]; cbn.
  - reflexivity.
  - destruct (cmp x y <=? 0); [reflexivity |].
    rewrite IH. apply perm_swap.
Qed.

Lemma jsSort_Permutation {A} (cmp : A -> A -> Z) l :
  Permutation (jsSort cmp l) l.
Proof.
  induction l as [|x l IH]; cbn.
  - reflexivity.
  - rewrite insertBy_Permutation. constructor. exact IH.
Qed.

Section SortDescending.
Context {A : Type} (key : A -> nat).

Lemma insertBy_nonIncreasing x l :
  nonIncreasing key l -> nonIncreasing key (insertBy (descending key) x l).
Proof.
  unfold nonIncreasing. induction 1 as [|y l Hl IH Hy]; cbn.
  - repeat constructor.
  - destruct (descending key x y <=? 0) eqn:E; unfold descending in E.
    + constructor; [constructor; assumption |].
      constructor; [lia |].
      eapply Forall_impl; [exact Hy |]. cbn. intros; lia.
    + constructor; [exact IH |].
      eapply Permutation_Forall; [symmetry; apply insertBy_Permutation |].
      constructor; [lia | exact Hy].
Qed.

Lemma jsSort_nonIncreasing l : nonIncreasing key (jsSort (descending key) l).
Proof.
  induction l as [|x l IH]; cbn.
  - constructor.
  - apply insertBy_nonIncreasing, IH.
Qed.
End SortDescending.

(** ** Dictionaries *)

Lemma filter_split_Permutation {A} (p : A -> bool) (l : list A) :
  Permutation (List.filter p l ++ List.filter (fun x => negb (p x)) l) l.
Proof.
  induction l as [|x l IH]; cbn.
  - reflexivity.
  - destruct (p x); cbn.
    + constructor. exact IH.
    + rewrite <- Permutation_middle. constructor. exact IH.
Qed.

Lemma ownEntries_Permutation {A} (o : Dict A) : Permutation (ownEntries o) o.
Proof.
  unfold ownEntries. rewrite jsSort_Permutation. apply filter_split_Permutation.
Qed.

Lemma objectValues_Permutation {A} (o : Dict A) :
  Permutation (objectValues o) (map snd o).
Proof. unfold objectValues. apply Permutation_map, ownEntries_Permutation. Qed.

(** ** The daily report *)

Section DailyReport.
Import LeadsService.

Lemma pretty_N_go_not_Unknown x s s' :
  s <> String "U" s' -> pretty.pretty_N_go x s <> String "U" s'.
Proof.
  revert s. induction (N.lt_wf_0 x) as [x _ IH]; intros s Hs.
  assert (x = 0 \/ 0 < x)%N as [->|Hx] by lia.
  - rewrite pretty.pretty_N_go_0. exact Hs.
  - rewrite pretty.pretty_N_go_step by exact Hx. apply IH.
    + apply N.div_lt; [exact Hx | reflexivity].
    + unfold pretty.pretty_N_char. repeat case_match; discriminate.
Qed.

Lemma toStr_Unknown v :
  truthy v = true -> toStr v = "Unknown" -> v = JStr "Unknown".
Proof.
  destruct v as [| |b|n| |s|f]; cbn; try discriminate.
  - destruct b; discriminate.
  - intros _ H. exfalso. destruct n as [|p|p]; cbn in H.
    + discriminate.
    + unfold pretty, pretty.pretty_positive, pretty, pretty.pretty_N in H.
      destruct (decide (N.pos p = 0%N)); [discriminate |].
      revert H. apply pretty_N_go_not_Unknown. discriminate.
    + discriminate.
  - intros _ ->. reflexivity.
Qed.

Lemma repNameOf_Unknown lead :
  toStr (repNameOf lead) = "Unknown" -> repNameOf lead = JStr "Unknown".
Proof.
  unfold repNameOf, jsOr.
  destruct (truthy (optProp (prop lead "added_by_c") "Name")) eqn:E; [| reflexivity].
  apply toStr_Unknown, E.
Qed.

Lemma groupedItems_dictSet_new rd k g :
  dictGet rd k = None -> groupedItems (dictSet rd k g) = groupedItems rd ++ repLeads g.
Proof.
  unfold groupedItems. induction rd as [|[k0 g0] rd IH]; cbn.
  - intros _. rewrite app_nil_r. reflexivity.
  - destruct (String.eqb k0 k); [discriminate |].
    intros H. cbn. rewrite IH by exact H. rewrite app_assoc. reflexivity.
Qed.

Lemma groupedItems_push rd k g item :
  dictGet rd k = Some g ->
  Permutation (groupedItems (dictSet rd k (pushLead g item))) (item :: groupedItems rd).
Proof.
  intros H. unfold groupedItems. induction rd as [|[k0 g0] rd IH]; cbn in *.
  - discriminate.
  - destruct (String.eqb k0 k); cbn.
    + inversion H; subst g0. rewrite <- app_assoc. cbn.
      symmetry. apply Permutation_middle.
    + rewrite IH by exact H. symmetry. apply Permutation_middle.
Qed.

Lemma push_keys (rd : Dict RepReport) k g g' k' :
  dictGet rd k = Some g ->
  present (dictGet (dictSet rd k g') k') = present (dictGet rd k').
Proof.
  intros H. rewrite dictGet_dictSet.
  destruct (String.eqb k k') eqn:E; [| reflexivity].
  apply String.eqb_eq in E. subst k'. rewrite H. reflexivity.
Qed.

Lemma plainRep_key rep :
  plainRep rep = true -> String.eqb (toStr (prop rep "Name")) "__proto__" = false.
Proof. unfold plainRep. intros H. apply negb_true_iff in H. exact H. Qed.

Lemma initStep_plain reps acc :
  forallb plainRep reps = true ->
  parent (fold_left initStep reps acc) = parent acc
  /\ forall k,
       present (dictGet (groups (fold_left initStep reps acc)) k)
       = present (dictGet (groups acc) k)
         || existsb (fun rep => String.eqb (toStr (prop rep "Name")) k) reps.
Proof.
  revert acc. induction reps as [|rep reps IH]; intros acc Hreps; cbn.
  - split; [reflexivity |]. intros k. rewrite orb_false_r. reflexivity.
  - cbn in Hreps. apply andb_true_iff in Hreps as [Hrep Hreps].
    destruct (IH (initStep acc rep) Hreps) as [Hp Hk].
    unfold initStep, assign in Hp, Hk |- *. rewrite (plainRep_key rep Hrep) in Hp, Hk |- *.
    cbn in Hp, Hk. split; [exact Hp |].
    intros k. rewrite Hk, dictGet_dictSet.
    destruct (String.eqb (toStr (prop rep "Name")) k); cbn.
    + rewrite orb_true_r. reflexivity.
    + reflexivity.
Qed.

Lemma initGroups_parent reps :
  forallb plainRep reps = true -> parent (initGroups reps) = None.
Proof.
  intros H. unfold initGroups.
  rewrite (proj1 (initStep_plain reps {| groups := []; parent := None |} H)).
  reflexivity.
Qed.

Lemma initGroups_keys reps k :
  forallb plainRep reps = true ->
  present (dictGet (groups (initGroups reps)) k)
  = existsb (fun rep => String.eqb (toStr (prop rep "Name")) k) reps.
Proof.
  intros H. unfold initGroups.
  rewrite (proj2 (initStep_plain reps {| groups := []; parent := None |} H) k).
  reflexivity.
Qed.

Lemma dictSet_Forall {A} (P : string * A -> Prop) (o : Dict A) k v :
  Forall P o -> (forall k', P (k', v)) -> Forall P (dictSet o k v).
Proof.
  intros Ho Hv. induction Ho as [|[k0 v0] o H0 Ho IH]; cbn.
  - constructor; [apply Hv | constructor].
  - destruct (String.eqb k0 k); constructor; auto.
Qed.

Lemma initGroups_empty reps : groupedItems (groups (initGroups reps)) = [].
Proof.
  assert (H : Forall (fun e => repLeads (snd e) = []) (groups (initGroups reps))).
  { unfold initGroups.
    assert (G : Forall (fun e : string * RepReport => repLeads (snd e) = [])
                  (groups {| groups := []; parent := None |}))
      by constructor.
    revert G. generalize ({| groups := []; parent := None |}).
    induction reps as [|rep reps IH]; intros acc G; cbn; [exact G |].
    apply IH. unfold initStep, assign.
    destruct (String.eqb (toStr (prop rep "Name")) "__proto__"); cbn; [exact G |].
    apply dictSet_Forall; [exact G | reflexivity]. }
  unfold groupedItems. induction H as [|e o He _ IH]; cbn.
  - reflexivity.
  - rewrite He, IH. reflexivity.
Qed.

Lemma inherited_Unknown : inherited "Unknown" = false.
Proof. reflexivity. Qed.

Lemma lookup_plain rd k :
  parent rd = None ->
  lookup rd k = match dictGet (groups rd) k with
                | Some g => OwnGroup g
                | None => if inherited k then Builtin else Missing
                end.
Proof. intros H. unfold lookup. rewrite H. reflexivity. Qed.

Lemma strictEq_Unknown v : strictEq v (JStr "Unknown") = true -> toStr v = "Unknown".
Proof.
  destruct v; cbn; try discriminate. intros U. apply String.eqb_eq in U. subst. reflexivity.
Qed.

Lemma dictSet_keyed rd k g :
  Behaviour.keyed rd -> toStr (salesRep g) = k -> Behaviour.keyed (dictSet rd k g).
Proof.
  unfold Behaviour.keyed. intros Hrd Hg. induction Hrd as [|[k0 g0] rd H0 Hrd IH]; cbn.
  - constructor; [exact Hg | constructor].
  - destruct (String.eqb k0 k) eqn:E.
    + apply String.eqb_eq in E. subst k0. constructor; [exact Hg | exact Hrd].
    + constructor; [exact H0 | exact IH].
Qed.

Lemma dictGet_In {A} (rd : Dict A) k g : dictGet rd k = Some g -> In (k, g) rd.
Proof.
  induction rd as [|[k0 g0] rd IH]; cbn; [discriminate |].
  destruct (String.eqb k0 k) eqn:E.
  - apply String.eqb_eq in E. subst k0. intros H. inversion H. auto.
  - intros H. right. exact (IH H).
Qed.

Lemma keyed_dictGet rd k g :
  Behaviour.keyed rd -> dictGet rd k = Some g -> toStr (salesRep g) = k.
Proof.
  intros Hrd Hg. apply dictGet_In in Hg.
  unfold Behaviour.keyed in Hrd. rewrite List.Forall_forall in Hrd. exact (Hrd _ Hg).
Qed.

Lemma initGroups_keyed reps : Behaviour.keyed (groups (initGroups reps)).
Proof.
  unfold initGroups.
  assert (G : Behaviour.keyed (groups {| groups := []; parent := None |})) by constructor.
  revert G. generalize ({| groups := []; parent := None |}).
  induction reps as [|rep reps IH]; intros acc G; cbn; [exact G |].
  apply IH. unfold initStep, assign.
  destruct (String.eqb (toStr (prop rep "Name")) "__proto__"); cbn; [exact G |].
  apply dictSet_keyed; [exact G | reflexivity].
Qed.

(** One lead that does not trip is added, or dropped, and the prototype
    stays what it was. *)
Lemma addLead_plain rd lead :
  parent rd = None ->
  (inherited (toStr (repNameOf lead)) = true ->
   present (dictGet (groups rd) (toStr (repNameOf lead))) = true) ->
  exists rd',
    addLead rd lead = Return rd'
    /\ parent rd' = None
    /\ Permutation (groupedItems (groups rd'))
         (if keptIn (groups rd) lead then reportItem lead :: groupedItems (groups rd)
          else groupedItems (groups rd))
    /\ (forall k, present (dictGet (groups rd) k) = true ->
                  present (dictGet (groups rd') k) = true)
    /\ (forall k, present (dictGet (groups rd') k) = true ->
                  present (dictGet (groups rd) k) = true \/ k = "Unknown")
    /\ (Behaviour.keyed (groups rd) -> Behaviour.keyed (groups rd')).
Proof.
  intros Hp Hsafe. unfold addLead, keptIn, pushInto.
  rewrite !(lookup_plain rd _ Hp).
  destruct (dictGet (groups rd) (toStr (repNameOf lead))) as [g|] eqn:E.
  - cbn [found present orb]. eexists. split; [reflexivity |]. cbn [groups parent].
    split; [exact Hp |].
    split; [apply (groupedItems_push _ _ g), E |].
    split; [| split]; try (intros k; rewrite (push_keys _ _ g) by exact E; auto).
    intros Hk. apply dictSet_keyed; [exact Hk |]. exact (keyed_dictGet _ _ _ Hk E).
  - destruct (inherited (toStr (repNameOf lead))) eqn:I;
      [specialize (Hsafe eq_refl); cbn in Hsafe; discriminate |].
    cbn [found present orb].
    destruct (strictEq (repNameOf lead) (JStr "Unknown")) eqn:U.
    + pose proof (strictEq_Unknown _ U) as K. rewrite K in E. rewrite E.
      rewrite inherited_Unknown. cbn [found].
      unfold assign, lookup.
      change (String.eqb "Unknown" "__proto__") with false. cbn [groups parent].
      rewrite dictGet_dictSet, String.eqb_refl.
      eexists. split; [reflexivity |]. cbn [groups parent]. split; [exact Hp |].
      split.
      * rewrite (groupedItems_push _ _ (emptyGroup (JStr "Unknown") JNull))
          by (rewrite dictGet_dictSet, String.eqb_refl; reflexivity).
        rewrite groupedItems_dictSet_new by exact E. cbn. rewrite app_nil_r. reflexivity.
      * split; [| split].
        -- intros k.
           rewrite (push_keys _ _ (emptyGroup (JStr "Unknown") JNull))
             by (rewrite dictGet_dictSet, String.eqb_refl; reflexivity).
           rewrite dictGet_dictSet. destruct (String.eqb "Unknown" k); auto.
        -- intros k.
           rewrite (push_keys _ _ (emptyGroup (JStr "Unknown") JNull))
             by (rewrite dictGet_dictSet, String.eqb_refl; reflexivity).
           rewrite dictGet_dictSet. destruct (String.eqb "Unknown" k) eqn:Ek; auto.
           apply String.eqb_eq in Ek. auto.
        -- intros Hk. apply dictSet_keyed; [| reflexivity].
           apply dictSet_keyed; [exact Hk | reflexivity].
    + eexists. split; [reflexivity |]. split; [exact Hp |].
      split; [reflexivity |]. split; [auto |]. split; auto.
Qed.

(** One lead that trips ends the loop with an error. *)
Lemma addLead_trips rd lead :
  parent rd = None ->
  inherited (toStr (repNameOf lead)) = true ->
  dictGet (groups rd) (toStr (repNameOf lead)) = None ->
  exists e, addLead rd lead = Throw e.
Proof.
  intros Hp I E. unfold addLead, pushInto. rewrite !(lookup_plain rd _ Hp), E, I.
  cbn [found]. eexists. reflexivity.
Qed.

Lemma keptIn_sameGroups init rd lead :
  sameGroups init rd -> keptIn rd lead = keptIn init lead.
Proof.
  intros [Hin Hout]. unfold keptIn.
  destruct (present (dictGet init (toStr (repNameOf lead)))) eqn:I; cbn.
  - rewrite (Hin _ I). reflexivity.
  - destruct (present (dictGet rd (toStr (repNameOf lead)))) eqn:R; cbn; [| reflexivity].
    destruct (Hout _ R) as [H|H]; [congruence |].
    apply repNameOf_Unknown in H. rewrite H. reflexivity.
Qed.

(** A lead trips on [rd] when it trips on the groups that [rd] began
    with: the key ['Unknown'] is not inherited. *)
Lemma sameGroups_inherited init rd k :
  sameGroups init rd -> inherited k = true ->
  present (dictGet rd k) = present (dictGet init k).
Proof.
  intros [Hin Hout] I.
  destruct (present (dictGet init k)) eqn:E; [apply Hin, E |].
  destruct (present (dictGet rd k)) eqn:R; [| reflexivity].
  destruct (Hout _ R) as [H|H]; [congruence |]. subst k. discriminate.
Qed.

Lemma addLeads_plain init leads rd :
  sameGroups init (groups rd) ->
  parent rd = None ->
  Forall (fun lead => inherited (toStr (repNameOf lead)) = true ->
                      present (dictGet init (toStr (repNameOf lead))) = true) leads ->
  exists rd',
    addLeads leads rd = Return rd'
    /\ sameGroups init (groups rd')
    /\ Permutation (groupedItems (groups rd'))
         (map reportItem (List.filter (keptIn init) leads) ++ groupedItems (groups rd))
    /\ (Behaviour.keyed (groups rd) -> Behaviour.keyed (groups rd')).
Proof.
  intros Hrd Hp Hleads. revert rd Hrd Hp.
  induction Hleads as [|lead leads Hlead _ IH]; intros rd Hrd Hp; cbn.
  - eexists. split; [reflexivity |]. split; [exact Hrd |]. split; [reflexivity | auto].
  - destruct (addLead_plain rd lead Hp)
      as (rd1 & -> & Hp1 & Hitems & Hkeep & Hnew & Hkeyed).
    { intros I. rewrite (sameGroups_inherited init (groups rd) _ Hrd I). apply Hlead, I. }
    assert (Hrd1 : sameGroups init (groups rd1)).
    { destruct Hrd as [Hin Hout]. split.
      - intros k Hk. apply Hkeep, Hin, Hk.
      - intros k Hk. apply Hnew in Hk as [Hk|Hk]; auto. }
    destruct (IH rd1 Hrd1 Hp1) as (rd' & -> & Hrd' & Hperm & Hkeyed').
    eexists. split; [reflexivity |]. split; [exact Hrd' |].
    split; [| auto].
    rewrite Hperm, Hitems, (keptIn_sameGroups init (groups rd) lead Hrd).
    destruct (keptIn init lead); cbn; [| reflexivity].
    symmetry. apply Permutation_middle.
Qed.

Lemma addLeads_trips init leads rd :
  sameGroups init (groups rd) ->
  parent rd = None ->
  Exists (fun lead => inherited (toStr (repNameOf lead)) = true
                      /\ present (dictGet init (toStr (repNameOf lead))) = false) leads ->
  exists e, addLeads leads rd = Throw e.
Proof.
  intros Hrd Hp Hleads. revert rd Hrd Hp.
  induction leads as [|lead leads IH]; intros rd Hrd Hp; [inversion Hleads |].
  cbn.
  destruct (inherited (toStr (repNameOf lead))
            && negb (present (dictGet init (toStr (repNameOf lead))))) eqn:T.
  - apply andb_true_iff in T as [I N]. apply negb_true_iff in N.
    destruct (addLead_trips rd lead Hp I) as (e & ->); [| eauto].
    rewrite <- (sameGroups_inherited init (groups rd) _ Hrd I) in N.
    destruct (dictGet (groups rd) (toStr (repNameOf lead))); [discriminate | reflexivity].
  - destruct (addLead_plain rd lead Hp) as (rd1 & -> & Hp1 & _ & Hkeep & Hnew & _).
    { intros I. rewrite I in T. cbn in T. apply negb_false_iff in T.
      rewrite (sameGroups_inherited init (groups rd) _ Hrd I). exact T. }
    apply IH.
    + inversion Hleads as [? ? [I N]|]; subst; [| assumption].
      rewrite I, N in T. discriminate.
    + destruct Hrd as [Hin Hout]. split.
      * intros k Hk. apply Hkeep, Hin, Hk.
      * intros k Hk. apply Hnew in Hk as [Hk|Hk]; auto.
    + exact Hp1.
Qed.

Lemma keptIn_initGroups reps lead :
  forallb plainRep reps = true ->
  keptIn (groups (initGroups reps)) lead = hasGroup reps lead.
Proof. intros H. unfold keptIn, hasGroup. rewrite initGroups_keys by exact H. reflexivity. Qed.

Lemma groupedItems_counted rd :
  flat_map repLeads (map snd (map (fun e => (fst e, countGroup (snd e))) rd))
  = groupedItems rd.
Proof.
  unfold groupedItems. induction rd as [|e rd IH]; cbn; [reflexivity |].
  rewrite IH. reflexivity.
Qed.

Lemma trips_initGroups reps lead :
  forallb plainRep reps = true ->
  trips reps lead
  = inherited (toStr (repNameOf lead))
    && negb (present (dictGet (groups (initGroups reps)) (toStr (repNameOf lead)))).
Proof. intros H. unfold trips, namesRep. rewrite initGroups_keys by exact H. reflexivity. Qed.

(** When no lead trips, the report is built: its leads are the fetched
    leads that have a group, and every sales rep has its group. *)
Lemma buildReport_items leads reps :
  forallb plainRep reps = true ->
  existsb (trips reps) leads = false ->
  exists report,
    buildReport leads reps = Return report
    /\ Permutation (reportedItems report)
         (map reportItem (List.filter (hasGroup reps) leads))
    /\ (forall rep, In rep reps ->
          exists g, In g report /\ toStr (salesRep g) = toStr (prop rep "Name")).
Proof.
  intros Hreps Hleads. unfold buildReport.
  destruct (addLeads_plain (groups (initGroups reps)) leads (initGroups reps))
    as (rd & -> & [Hkeys _] & Hperm & Hkeyed).
  - split; auto.
  - apply initGroups_parent, Hreps.
  - apply List.Forall_forall. intros lead Hin I.
    destruct (present (dictGet (groups (initGroups reps)) (toStr (repNameOf lead))))
      eqn:E; [reflexivity |].
    assert (T : trips reps lead = true)
      by (rewrite trips_initGroups by exact Hreps; rewrite I, E; reflexivity).
    assert (X : existsb (trips reps) leads = true)
      by (apply existsb_exists; eauto).
    congruence.
  - eexists. split; [reflexivity |]. split.
    + unfold reportedItems.
      rewrite jsSort_Permutation, objectValues_Permutation, groupedItems_counted.
      rewrite Hperm, initGroups_empty, app_nil_r.
      rewrite (filter_ext _ _ (fun lead => keptIn_initGroups reps lead Hreps)). reflexivity.
    + intros rep Hin.
      assert (Hk : present (dictGet (groups rd) (toStr (prop rep "Name"))) = true).
      { apply Hkeys. rewrite initGroups_keys by exact Hreps.
        apply existsb_exists. exists rep. split; [exact Hin | apply String.eqb_refl]. }
      destruct (dictGet (groups rd) (toStr (prop rep "Name"))) as [g|] eqn:E;
        [| discriminate].
      exists (countGroup g). split.
      * eapply Permutation_in; [symmetry; apply jsSort_Permutation |].
        eapply Permutation_in; [symmetry; apply objectValues_Permutation |].
        rewrite map_map. apply List.in_map_iff. exists (toStr (prop rep "Name"), g).
        split; [reflexivity | apply dictGet_In, E].
      * cbn. apply (keyed_dictGet (groups rd)); [| exact E].
        apply Hkeyed, initGroups_keyed.
Qed.

(** When a lead trips, no report is built. *)
Lemma buildReport_trips leads reps :
  forallb plainRep reps = true ->
  existsb (trips reps) leads = true ->
  exists e, buildReport leads reps = Throw e.
Proof.
  intros Hreps Hleads. unfold buildReport.
  destruct (addLeads_trips (groups (initGroups reps)) leads (initGroups reps))
    as (e & ->); [split; auto | apply initGroups_parent, Hreps | | eauto].
  apply existsb_exists in Hleads as (lead & Hin & T).
  apply List.Exists_exists. exists lead. split; [exact Hin |].
  rewrite trips_initGroups in T by exact Hreps.
  apply andb_true_iff in T as [I N]. apply negb_true_iff in N. auto.
Qed.

Lemma buildReport_counted leads reps report :
  buildReport leads reps = Return report ->
  Forall (fun g => leadCount g = length (repLeads g)
                   /\ lowPerformance g = (leadCount g <? 5)%nat) report.
Proof.
  unfold buildReport. destruct (addLeads leads (initGroups reps)) as [rd|e]; [| discriminate].
  intros H. inversion H; subst. clear H.
  eapply Permutation_Forall; [symmetry; apply jsSort_Permutation |].
  eapply Permutation_Forall; [symmetry; apply objectValues_Permutation |].
  rewrite map_map. apply List.Forall_forall. intros g Hg.
  apply List.in_map_iff in Hg as (e & <- & _). split; reflexivity.
Qed.

Lemma totalLeadCount_items report :
  Forall (fun g => leadCount g = length (repLeads g)
                   /\ lowPerformance g = (leadCount g <? 5)%nat) report ->
  totalLeadCount report = length (reportedItems report).
Proof.
  unfold totalLeadCount, reportedItems. induction 1 as [|g report [Hg _] _ IH]; cbn.
  - reflexivity.
  - rewrite length_app, Hg. f_equal. exact IH.
Qed.

Lemma buildReport_sorted leads reps report :
  buildReport leads reps = Return report ->
  nonIncreasing (fun g => length (repLeads g)) report.
Proof.
  unfold buildReport. destruct (addLeads leads (initGroups reps)) as [rd|e]; [| discriminate].
  intros H. inversion H; subst.
  apply (jsSort_nonIncreasing (fun g => length (repLeads g))).
Qed.

(** *** The leads of each group *)

Lemma dictSet_keys {A} (o : Dict A) k v :
  map fst (dictSet o k v)
  = if present (dictGet o k) then map fst o else map fst o ++ [k].
Proof.
  induction o as [|[k0 v0] o IH]; cbn; [reflexivity |].
  destruct (String.eqb k0 k); cbn; [reflexivity |].
  rewrite IH. destruct (present (dictGet o k)); reflexivity.
Qed.

Lemma dictGet_None_keys {A} (o : Dict A) k :
  dictGet o k = None -> ~ In k (map fst o).
Proof.
  induction o as [|[k0 v0] o IH]; cbn; [tauto |].
  destruct (String.eqb k0 k) eqn:E; [discriminate |].
  apply String.eqb_neq in E. intros H [H0|H0]; [congruence | exact (IH H H0)].
Qed.

Lemma dictSet_NoDup {A} (o : Dict A) k v :
  NoDup (map fst o) -> NoDup (map fst (dictSet o k v)).
Proof.
  intros H. rewrite dictSet_keys.
  destruct (dictGet o k) eqn:E; cbn; [exact H |].
  apply NoDup_app. split; [exact H |]. split; [| apply NoDup_singleton].
  intros x Hx Hk. apply list_elem_of_singleton in Hk. subst x.
  apply list_elem_of_In in Hx. exact (dictGet_None_keys o k E Hx).
Qed.

Lemma In_dictGet {A} (o : Dict A) k v :
  NoDup (map fst o) -> In (k, v) o -> dictGet o k = Some v.
Proof.
  induction o as [|[k0 v0] o IH]; cbn; [tauto |].
  intros Hnd [H|H].
  - inversion H; subst. rewrite String.eqb_refl. reflexivity.
  - inversion Hnd as [|? ? Hk Hnd']; subst.
    destruct (String.eqb k0 k) eqn:E; [| exact (IH Hnd' H)].
    apply String.eqb_eq in E. subst k0. exfalso. apply Hk.
    apply list_elem_of_In, List.in_map_iff. exists (k, v).
    split; [reflexivity | exact H].
Qed.

Lemma filter_none {A} (p : A -> bool) (l : list A) :
  Forall (fun x => p x = false) l -> List.filter p l = [].
Proof.
  induction 1 as [|x l Hx _ IH]; cbn; [reflexivity |]. rewrite Hx. exact IH.
Qed.

Lemma not_Unknown lead :
  strictEq (repNameOf lead) (JStr "Unknown") = false ->
  toStr (repNameOf lead) <> "Unknown".
Proof.
  intros U H. apply repNameOf_Unknown in H. rewrite H in U. cbn in U.
  discriminate.
Qed.

(** One more lead is added, or dropped: each group still holds the leads
    of its name. *)
Lemma addLead_sorted done rd lead rd' :
  Behaviour.sortedInto done rd ->
  addLead rd lead = Return rd' ->
  Behaviour.sortedInto (done ++ [lead]) rd'.
Proof.
  intros (Hp & Hkeyed & Hnd & Hg & Hu). unfold addLead, pushInto.
  rewrite !(lookup_plain rd _ Hp).
  set (key := toStr (repNameOf lead)).
  destruct (dictGet (groups rd) key) as [g|] eqn:E.
  - cbn [found]. intros H. inversion H; subst rd'. clear H.
    unfold Behaviour.sortedInto. cbn [groups parent].
    split; [exact Hp |].
    split; [apply dictSet_keyed; [exact Hkeyed | exact (keyed_dictGet _ _ _ Hkeyed E)] |].
    split; [apply dictSet_NoDup, Hnd |].
    split.
    + intros k g'. rewrite dictGet_dictSet, filter_snoc, map_app. fold key.
      destruct (String.eqb key k) eqn:Ek.
      * apply String.eqb_eq in Ek. subst k. intros H. inversion H; subst g'.
        cbn. rewrite (Hg _ _ E). reflexivity.
      * intros H. rewrite (Hg _ _ H). cbn. rewrite app_nil_r. reflexivity.
    + rewrite dictGet_dictSet. destruct (String.eqb key "Unknown") eqn:Ek;
        [discriminate |].
      intros H. apply Forall_app. split; [exact (Hu H) |].
      constructor; [| constructor]. fold key. apply String.eqb_neq, Ek.
  - destruct (inherited key) eqn:I; cbn [found]; [discriminate |].
    destruct (strictEq (repNameOf lead) (JStr "Unknown")) eqn:U.
    + pose proof (strictEq_Unknown _ U) as K. fold key in K. rewrite K in E.
      rewrite E, inherited_Unknown. cbn [found].
      unfold assign, lookup.
      change (String.eqb "Unknown" "__proto__") with false. cbn [groups parent].
      rewrite dictGet_dictSet, String.eqb_refl.
      intros H. inversion H; subst rd'. clear H.
      unfold Behaviour.sortedInto. cbn [groups parent].
      split; [exact Hp |].
      split; [apply dictSet_keyed; [| reflexivity];
              apply dictSet_keyed; [exact Hkeyed | reflexivity] |].
      split; [apply dictSet_NoDup, dictSet_NoDup, Hnd |].
      split.
      * intros k g'. rewrite !dictGet_dictSet, filter_snoc, map_app. fold key.
        rewrite K.
        destruct (String.eqb "Unknown" k) eqn:Ek.
        -- apply String.eqb_eq in Ek. subst k. intros H. inversion H; subst g'.
           cbn. rewrite filter_none; [reflexivity |].
           eapply List.Forall_impl; [| exact (Hu E)].
           intros x Hx. apply String.eqb_neq, Hx.
        -- intros H. rewrite (Hg _ _ H). cbn. rewrite app_nil_r. reflexivity.
      * rewrite !dictGet_dictSet, String.eqb_refl. discriminate.
    + intros H. inversion H; subst rd'. clear H.
      unfold Behaviour.sortedInto.
      split; [exact Hp |]. split; [exact Hkeyed |]. split; [exact Hnd |].
      split.
      * intros k g' H. rewrite filter_snoc, map_app, (Hg _ _ H). fold key.
        destruct (String.eqb key k) eqn:Ek.
        -- apply String.eqb_eq in Ek. subst k. congruence.
        -- cbn. rewrite app_nil_r. reflexivity.
      * intros H. apply Forall_app. split; [exact (Hu H) |].
        constructor; [| constructor]. apply not_Unknown, U.
Qed.

Lemma addLeads_sorted rest : forall done rd rd',
  Behaviour.sortedInto done rd ->
  addLeads rest rd = Return rd' ->
  Behaviour.sortedInto (done ++ rest) rd'.
Proof.
  induction rest as [|lead rest IH]; intros done rd rd' Hrd; cbn.
  - intros H. inversion H; subst. rewrite app_nil_r. exact Hrd.
  - destruct (addLead rd lead) as [rd1|e] eqn:E; [| discriminate].
    intros H. change (lead :: rest) with ([lead] ++ rest). rewrite app_assoc.
    apply (IH _ rd1); [| exact H]. exact (addLead_sorted _ _ _ _ Hrd E).
Qed.

Lemma initStep_NoDup reps : forall acc,
  NoDup (map fst (groups acc)) ->
  NoDup (map fst (groups (fold_left initStep reps acc))).
Proof.
  induction reps as [|rep reps IH]; intros acc H; cbn; [exact H |].
  apply IH. unfold initStep, assign.
  destruct (String.eqb (toStr (prop rep "Name")) "__proto__"); cbn; [exact H |].
  apply dictSet_NoDup, H.
Qed.

Lemma flat_map_nil {A B} (f : A -> list B) (l : list A) x :
  flat_map f l = [] -> In x l -> f x = [].
Proof.
  induction l as [|y l IH]; cbn; [tauto |].
  intros H. apply app_eq_nil in H as [Hy Hl]. intros [<-|Hx]; auto.
Qed.

Lemma initGroups_sorted reps :
  forallb plainRep reps = true -> Behaviour.sortedInto [] (initGroups reps).
Proof.
  intros Hreps. unfold Behaviour.sortedInto.
  split; [apply initGroups_parent, Hreps |].
  split; [apply initGroups_keyed |].
  split; [apply initStep_NoDup; constructor |].
  split; [| constructor].
  intros k g H. cbn. apply dictGet_In in H.
  exact (flat_map_nil (fun e => repLeads (snd e)) _ (k, g) (initGroups_empty reps) H).
Qed.

(** Every group of the report holds the fetched leads of its name, in
    the order fetched. *)
Lemma buildReport_groups leads reps report :
  forallb plainRep reps = true ->
  buildReport leads reps = Return report ->
  Forall (fun g => repLeads g = leadsNamed (salesRep g) leads) report.
Proof.
  intros Hreps. unfold buildReport.
  destruct (addLeads leads (initGroups reps)) as [rd|e] eqn:E; [| discriminate].
  intros H. inversion H; subst. clear H.
  destruct (addLeads_sorted leads [] _ _ (initGroups_sorted reps Hreps) E)
    as (_ & Hkeyed & Hnd & Hg & _).
  eapply Permutation_Forall; [symmetry; apply jsSort_Permutation |].
  eapply Permutation_Forall; [symmetry; apply objectValues_Permutation |].
  rewrite map_map. apply List.Forall_forall. intros g Hin.
  apply List.in_map_iff in Hin as ([k g0] & <- & Hin). cbn.
  pose proof (In_dictGet _ _ _ Hnd Hin) as Hget.
  unfold leadsNamed. rewrite (keyed_dictGet _ _ _ Hkeyed Hget).
  exact (Hg _ _ Hget).
Qed.

Lemma filter_length_lt {A} (p : A -> bool) (l : list A) x :
  In x l -> p x = false -> (length (List.filter p l) < length l)%nat.
Proof.
  induction l as [|y l IH]; cbn; [tauto |].
  intros [->|Hx] Hp.
  - rewrite Hp. pose proof (List.filter_length_le p l). lia.
  - specialize (IH Hx Hp). destruct (p y); cbn; lia.
Qed.
End DailyReport.

(** The run of [getDailyLeadsReport] when both arrays are fetched. *)
Lemma getDailyLeadsReport_fetched {S} (client : Client S) rt (w : World S)
    leadsResponse s1 salesRepsResponse s2 todaysLeads salesReps :
  fetchRecords client "lead_c"
    (LeadsService.todaysLeadsQuery rt (isoDatePart (toISOString rt (clock w)))
       (addLocalDays rt (clock w) 1))
    (backend w) = (Return leadsResponse, s1) ->
  fetchRecords client "sales_rep_c" (fieldsOnly ["Name"]) s1
    = (Return salesRepsResponse, s2) ->
  rowsOrEmpty leadsResponse = Some todaysLeads ->
  rowsOrEmpty salesRepsResponse = Some salesReps ->
  exists w1,
    console w1 = console w
    /\ LeadsService.getDailyLeadsReport client rt w
       = match LeadsService.buildReport todaysLeads salesReps with
         | Return report => (Return report, w1)
         | Throw e =>
             (Return [],
              {| backend := backend w1; clock := clock w1;
                 console := console w1
                            ++ [("Error fetching daily leads report:", JStr (errMessage e))];
                 history := history w1 |})
         end.
Proof.
  intros Hleads Hreps Hl Hr.
  unfold LeadsService.getDailyLeadsReport, bind, tryCatch, simulateAPICall, ret,
    newDateNow, callFetch, perform, throw, consoleError. cbn.
  rewrite Hleads. cbn. rewrite Hreps. cbn. rewrite Hr, Hl. cbn.
  eexists. split; [| destruct (LeadsService.buildReport todaysLeads salesReps); reflexivity].
  reflexivity.
Qed.




(** ** Sorted reports *)

Lemma getUserPerformance_sorted {S} (client : Client S) rt (w : World S) :
  exists stats w',
    AnalyticsService.getUserPerformance client rt w = (Return stats, w')
    /\ nonIncreasing AnalyticsService.us_totalLeads stats.
Proof.
  unfold AnalyticsService.getUserPerformance.
  rewrite (bind_Return _ _ w tt w) by reflexivity.
  apply tryCatch_returns.
  - intros stats w' H.
    apply bind_Return_inv in H as (response & w1 & _ & H).
    destruct (success response); cbn in H.
    + invert_run H. apply (jsSort_nonIncreasing AnalyticsService.us_totalLeads).
    + invert_run H. constructor.
  - intros e w1. eexists _, _. split; [reflexivity | constructor].
Qed.

Lemma getUserPerformance_entries {S} (client : Client S) rt (w : World S)
    salesRepsResponse s1 leadsResponse s2 leads :
  fetchRecords client "sales_rep_c" (fieldsOnly SalesRepService.repFields) (backend w)
    = (Return salesRepsResponse, s1) ->
  success salesRepsResponse = true ->
  fetchRecords client "lead_c" (fieldsOnly ["added_by_c"; "created_at_c"]) s1
    = (Return leadsResponse, s2) ->
  rowsOrEmpty leadsResponse = Some leads ->
  exists stats w',
    AnalyticsService.getUserPerformance client rt w = (Return stats, w')
    /\ Permutation stats
         (map (AnalyticsService.userStat rt (clock w) leads)
            (default [] (data salesRepsResponse))).
Proof.
  intros Hreps Hok Hleads Hl.
  unfold AnalyticsService.getUserPerformance, bind, tryCatch, simulateAPICall, ret,
    newDateNow, callFetch, perform. cbn.
  unfold SalesRepService.repFields in Hreps. rewrite Hreps. cbn. rewrite Hok. cbn.
  rewrite Hleads. cbn. rewrite Hl.
  destruct (default [] (data salesRepsResponse)) as [|rep reps] eqn:E; cbn.
  - eexists _, _. split; [reflexivity | constructor].
  - eexists _, _. split; [reflexivity |].
    exact (jsSort_Permutation AnalyticsService.byTotalLeadsDesc
             (map (AnalyticsService.userStat rt (clock w) leads) (rep :: reps))).
Qed.

(** With sales reps fetched, the entries are lost when the fetch of the
    leads rejects or is answered without an array. *)
Lemma getUserPerformance_lost {S} (client : Client S) rt (w : World S)
    salesRepsResponse s1 rep reps o s2 :
  fetchRecords client "sales_rep_c" (fieldsOnly SalesRepService.repFields) (backend w)
    = (Return salesRepsResponse, s1) ->
  success salesRepsResponse = true ->
  data salesRepsResponse = Some (rep :: reps) ->
  fetchRecords client "lead_c" (fieldsOnly ["added_by_c"; "created_at_c"]) s1 = (o, s2) ->
  (forall leadsResponse, o = Return leadsResponse -> rowsOrEmpty leadsResponse = None) ->
  exists w' line,
    AnalyticsService.getUserPerformance client rt w = (Return [], w')
    /\ console w' = console w ++ [line].
Proof.
  intros Hreps Hok Hdata Hleads Hnone.
  unfold AnalyticsService.getUserPerformance, bind, tryCatch, simulateAPICall, ret,
    newDateNow, callFetch, perform, consoleError. cbn.
  unfold SalesRepService.repFields in Hreps. rewrite Hreps. cbn. rewrite Hok. cbn.
  rewrite Hleads. rewrite Hdata. cbn.
  destruct o as [leadsResponse|e]; cbn.
  - rewrite (Hnone leadsResponse eq_refl). cbn. eexists _, _. split; reflexivity.
  - eexists _, _. split; reflexivity.
Qed.

Lemma getDailyLeadsReport_sorted {S} (client : Client S) rt (w : World S) :
  exists report w',
    LeadsService.getDailyLeadsReport client rt w = (Return report, w')
    /\ nonIncreasing (fun g => length (LeadsService.repLeads g)) report
    /\ Forall (fun g => LeadsService.leadCount g = length (LeadsService.repLeads g)) report.
Proof.
  unfold LeadsService.getDailyLeadsReport.
  rewrite (bind_Return _ _ w tt w) by reflexivity.
  apply tryCatch_returns.
  - intros report w' H. invert_run H.
    match type of H with
    | context [LeadsService.buildReport ?a ?b] =>
        destruct (LeadsService.buildReport a b) as [r|e] eqn:B
    end; [| discriminate].
    inversion H; subst.
    split; [exact (buildReport_sorted _ _ _ B) |].
    eapply List.Forall_impl; [| exact (buildReport_counted _ _ _ B)]. intros g [Hg _]. exact Hg.
  - intros e w1. eexists _, _. split; [reflexivity |].
    split; constructor.
Qed.




(** ** Percentages *)

Lemma roundPercentZ_defined p q : q <> 0 -> roundPercentZ p q <> None.
Proof.
  intros Hq. unfold roundPercentZ.
  destruct (q =? 0) eqn:E; [apply Z.eqb_eq in E; contradiction | discriminate].
Qed.

Lemma todayTrendOf_defined todayCount yesterdayCount :
  AnalyticsService.todayTrendOf todayCount yesterdayCount <> None.
Proof.
  unfold AnalyticsService.todayTrendOf.
  destruct (yesterdayCount =? 0)%nat eqn:E; [discriminate |].
  apply roundPercentZ_defined. apply Nat.eqb_neq in E. lia.
Qed.

Lemma conversionRateOf_defined rep : AnalyticsService.conversionRateOf rep <> None.
Proof.
  unfold AnalyticsService.conversionRateOf, jsGt, roundPercent.
  destruct (toNumber (prop rep "meetings_booked_c")) as [y|]; cbn; [| discriminate].
  destruct (0 <? y) eqn:E; [| discriminate].
  destruct (toNumber (prop rep "deals_closed_c")) as [x|]; [| discriminate].
  unfold roundPercentZ. apply Z.ltb_lt in E.
  destruct (y =? 0) eqn:E0; [apply Z.eqb_eq in E0; lia | discriminate].
Qed.

Lemma jsGt_jsOr_zero v : jsGt (jsOr v (JNum 0)) (JNum 0) = jsGt v (JNum 0).
Proof.
  unfold jsOr. destruct (truthy v) eqn:E; [reflexivity |].
  destruct v as [| |b|n| |s|f]; cbn in *; try reflexivity; try discriminate.
  - destruct b; [discriminate | reflexivity].
  - apply negb_false_iff, Z.eqb_eq in E. subst n. reflexivity.
  - apply negb_false_iff, String.eqb_eq in E. subst s. reflexivity.
Qed.

(** C8.  No percentage is the quotient of a division by zero.  In
    [getLeadsMetrics] the trend of today is always defined, and it is the
    constant 100 whenever [yesterdayCount] is 0, whatever [todayCount] is;
    in [getUserPerformance] the conversion rate is always defined, and it is
    0 whenever the rep's [meetings_booked_c] is not greater than 0. *)
Theorem C8_no_division_by_zero :
  (forall todayCount yesterdayCount,
     AnalyticsService.todayTrendOf todayCount yesterdayCount <> None)
  /\ (forall todayCount, AnalyticsService.todayTrendOf todayCount 0 = Some 100)
  /\ (forall rep, AnalyticsService.conversionRateOf rep <> None)
  /\ (forall rep,
        jsGt (prop rep "meetings_booked_c") (JNum 0) = false ->
        AnalyticsService.conversionRateOf rep = Some (JNum 0))
  /\ (forall S (client : Client S) rt userId w,
        exists m w',
          AnalyticsService.getLeadsMetrics client rt userId w = (Return m, w')
          /\ AnalyticsService.trend (AnalyticsService.today m) <> None
          /\ (m = AnalyticsService.defaultMetrics
              \/ AnalyticsService.trend (AnalyticsService.today m)
                 = AnalyticsService.todayTrendOf
                     (AnalyticsService.tm_count (AnalyticsService.today m))
                     (AnalyticsService.pm_count (AnalyticsService.yesterday m))))
  /\ (forall S (client : Client S) rt w,
        exists stats w',
          AnalyticsService.getUserPerformance client rt w = (Return stats, w')
          /\ Forall
               (fun s =>
                  AnalyticsService.conversionRate s <> None
                  /\ (jsGt (AnalyticsService.meetingsBooked s) (JNum 0) = false ->
                      AnalyticsService.conversionRate s = Some (JNum 0)))
               stats).
Proof.
  split; [apply todayTrendOf_defined |].
  split; [reflexivity |].
  split; [apply conversionRateOf_defined |].
  split; [intros rep H; unfold AnalyticsService.conversionRateOf; rewrite H; reflexivity |].
  split.
  - intros S client rt userId w. unfold AnalyticsService.getLeadsMetrics.
    rewrite (bind_Return _ _ w tt w) by reflexivity.
    apply tryCatch_returns.
    + intros m w' H. invert_run H. cbn.
      split; [apply todayTrendOf_defined | right; reflexivity].
    + intros e w1. eexists _, _. split; [reflexivity |].
      split; [discriminate | left; reflexivity].
  - intros S client rt w. unfold AnalyticsService.getUserPerformance.
    rewrite (bind_Return _ _ w tt w) by reflexivity.
    apply tryCatch_returns.
    + intros stats w' H.
      apply bind_Return_inv in H as (response & w1 & _ & H).
      destruct (success response); cbn in H; invert_run H; [| constructor].
      eapply Permutation_Forall; [symmetry; apply jsSort_Permutation |].
      assert (G : forall now leads reps,
                 Forall
                   (fun s =>
                      AnalyticsService.conversionRate s <> None
                      /\ (jsGt (AnalyticsService.meetingsBooked s) (JNum 0) = false ->
                          AnalyticsService.conversionRate s = Some (JNum 0)))
                   (map (AnalyticsService.userStat rt now leads) reps)).
      { intros now leads reps. apply List.Forall_forall. intros s Hs.
        apply in_map_iff in Hs as (rep & <- & _). cbn.
        split; [apply conversionRateOf_defined |].
        rewrite jsGt_jsOr_zero. intros G.
        unfold AnalyticsService.conversionRateOf. rewrite G. reflexivity. }
      destruct (default [] (data response)) as [|rep reps]; cbn in Hrun1.
      * invert_run Hrun1. constructor.
      * invert_run Hrun1. apply (G _ _ (rep :: reps)).
    + intros e w1. eexists _, _. split; [reflexivity | constructor].
Qed.

(** Bob has booked no meeting and closed three deals: his rate is 0. *)
Lemma C8_witness :
  jsGt (prop Examples.bob "meetings_booked_c") (JNum 0) = false
  /\ AnalyticsService.conversionRateOf Examples.bob = Some (JNum 0).
Proof.
  split; [reflexivity |].
  apply (proj1 (proj2 (proj2 (proj2 C8_no_division_by_zero)))). reflexivity.
Defined.

(** ** The read transform *)

Lemma jsOr_absent ext dflt : Spec.absent ext = true -> jsOr ext dflt = dflt.
Proof. destruct ext; cbn; try discriminate; reflexivity. Qed.




(** ** The daily chart *)

Section DailyChart.
Context {S : Type} (client : Client S) (rt : DateRuntime).

Lemma leadDateOf_dated dateStr lead (w : World S) :
  Spec.dated lead ->
  exists d, AnalyticsService.leadDateOf lead w = (Return d, w)
            /\ (if decide (d = Some dateStr) then true else false)
               = Spec.createdOnDate dateStr lead.
Proof.
  unfold Spec.dated, AnalyticsService.leadDateOf, Spec.createdOnDate.
  destruct (prop lead "created_at_c") as [| |b|n| |s|f]; cbn; intros H;
    try rewrite H; try discriminate;
    try (exists None; split; [reflexivity | reflexivity]).
  destruct (String.eqb s "") eqn:Es; cbn.
  - exists None. split; reflexivity.
  - exists (Some (isoDatePart s)). split; [reflexivity |].
    destruct (decide (Some (isoDatePart s) = Some dateStr)) as [D|D].
    + inversion D. rewrite String.eqb_refl. reflexivity.
    + destruct (String.eqb (isoDatePart s) dateStr) eqn:Ed; [| reflexivity].
      apply String.eqb_eq in Ed. congruence.
Qed.

Lemma dayLeadsOf_dated dateStr leads (w : World S) :
  Forall Spec.dated leads ->
  AnalyticsService.dayLeadsOf dateStr leads w
  = (Return (List.filter (Spec.createdOnDate dateStr) leads), w).
Proof.
  induction 1 as [|lead leads Hlead _ IH]; cbn.
  - reflexivity.
  - destruct (leadDateOf_dated dateStr lead w Hlead) as (d & Hd & Hc).
    rewrite (bind_Return _ _ _ _ _ Hd), (bind_Return _ _ _ _ _ IH).
    unfold ret. rewrite <- Hc. destruct (decide (d = Some dateStr)); reflexivity.
Qed.

Lemma window_S now i :
  Spec.window now (Datatypes.S i) = (now - Z.of_nat i * DAY) :: Spec.window now i.
Proof. unfold Spec.window. rewrite seq_S, rev_app_distr. reflexivity. Qed.

Lemma timeClip_valid t : Z.abs t <= maxTime -> timeClip t = Some t.
Proof. unfold timeClip. intros H. apply Z.leb_le in H. rewrite H. reflexivity. Qed.

Lemma chartLoop_dated now leads n chartData (w : World S) :
  Forall Spec.dated leads ->
  now <= maxTime ->
  - maxTime <= now - (Z.of_nat n - 1) * DAY ->
  AnalyticsService.chartLoop rt now leads n chartData w
  = (Return (chartData ++ map (Spec.dayBucket rt leads) (Spec.window now n)), w).
Proof.
  intros Hleads Hmax Hmin. revert chartData.
  induction n as [|i IH]; intros chartData.
  - cbn. unfold ret. rewrite app_nil_r. reflexivity.
  - rewrite window_S. cbn [AnalyticsService.chartLoop map].
    replace (now - Z.of_nat i * 24 * 60 * 60 * 1000) with (now - Z.of_nat i * DAY)
      by (unfold DAY; lia).
    rewrite timeClip_valid by (unfold DAY in *; lia).
    rewrite (bind_Return _ _ _ _ _ (dayLeadsOf_dated _ _ _ Hleads)).
    rewrite IH by (unfold DAY in *; lia). rewrite <- app_assoc. reflexivity.
Qed.
End DailyChart.

Lemma window_length now days : length (Spec.window now days) = days.
Proof. unfold Spec.window. rewrite length_map, length_rev, length_seq. reflexivity. Qed.

Lemma window_ascending now days : StronglySorted Z.lt (Spec.window now days).
Proof.
  induction days as [|n IH].
  - constructor.
  - rewrite window_S. constructor; [exact IH |].
    apply List.Forall_forall. intros t Ht. unfold Spec.window in Ht.
    apply in_map_iff in Ht as (i & <- & Hi).
    apply in_rev, in_seq in Hi. unfold DAY. lia.
Qed.

Lemma window_last now days : (0 < days)%nat -> last (Spec.window now days) = Some now.
Proof.
  unfold Spec.window. destruct days as [|n]; [lia |]. intros _.
  change (seq 0 (Datatypes.S n)) with (0%nat :: seq 1 n).
  change (rev (0%nat :: seq 1 n)) with (rev (seq 1 n) ++ [0%nat]).
  rewrite map_app. change (map _ [0%nat]) with [now - Z.of_nat 0 * DAY].
  rewrite last_snoc. f_equal. lia.
Qed.

(** C5, as stated, fails: the chart does not have [days] entries for every
    [days >= 1].  During an outage of the sample store the fetch of the
    leads is answered with [success: false], and the chart asked for 7 days
    has no entry. *)
Lemma C5_counterexample :
  exists chart w',
    AnalyticsService.getDailyLeadsChart Store.client utcRuntime JUndef (Some 7)
      Examples.worldDown = (Return chart, w')
    /\ length (AnalyticsService.chartData chart) <> 7%nat.
Proof.
  eexists _, _. split; [vm_compute; reflexivity |]. cbn. discriminate.
Qed.

(** C5, amended.  For every [days >= 1] whose window lies in the range of
    dates: when the leads are fetched and each [created_at_c] is a string
    (or is missing or empty), [getDailyLeadsChart] returns [chartData] with
    exactly [days] entries, one per day of the trailing window in ascending
    chronological order, the last one for the current date; the count of an
    entry is the number of fetched leads whose [created_at_c] date part is
    the date of the entry; [categories] and [series[0].data] are the
    [formattedDate] and [count] projections of [chartData], in the same
    order; nothing is logged.  When the fetch is answered with
    [success: false], the chart is empty, with no entry and no series, after
    one line on the console. *)
Theorem C5_daily_chart_buckets {S} (client : Client S) (rt : DateRuntime)
    (w : World S) userId days response s1 :
  1 <= days ->
  clock w <= maxTime ->
  - maxTime <= clock w - (days - 1) * DAY ->
  fetchRecords client "lead_c"
    (AnalyticsService.chartParams (orDefault userId (JStr "all"))) (backend w)
    = (Return response, s1) ->
  (success response = true ->
   Forall Spec.dated (default [] (data response)) ->
   exists chart w',
     AnalyticsService.getDailyLeadsChart client rt userId (Some days) w = (Return chart, w')
     /\ AnalyticsService.chartData chart
        = map (Spec.dayBucket rt (default [] (data response)))
            (Spec.window (clock w) (Z.to_nat days))
     /\ Z.of_nat (length (AnalyticsService.chartData chart)) = days
     /\ StronglySorted Z.lt (Spec.window (clock w) (Z.to_nat days))
     /\ last (Spec.window (clock w) (Z.to_nat days)) = Some (clock w)
     /\ AnalyticsService.categories chart
        = map AnalyticsService.formattedDate (AnalyticsService.chartData chart)
     /\ AnalyticsService.series chart
        = [ {| AnalyticsService.name := "New Leads";
               AnalyticsService.seriesData :=
                 map AnalyticsService.count (AnalyticsService.chartData chart) |} ]
     /\ console w' = console w)
  /\ (success response = false ->
      exists w',
        AnalyticsService.getDailyLeadsChart client rt userId (Some days) w
          = (Return AnalyticsService.emptyChart, w')
        /\ console w' = console w ++ [("Failed to fetch leads for chart:", message response)]).
Proof.
  intros Hdays Hmax Hmin Hfetch. split.
  - intros Hok Hdated. eexists _, _. split.
    + unfold AnalyticsService.getDailyLeadsChart, tryCatch, simulateAPICall, newDateNow,
        callFetch, perform.
      unfold bind at 1. unfold ret at 1. unfold bind at 1. unfold bind at 1.
      cbn [default backend clock]. rewrite Hfetch. cbn. rewrite Hok. cbn.
      unfold bind at 1.
      rewrite chartLoop_dated by (try exact Hdated; try exact Hmax; rewrite Z2Nat.id; lia).
      cbn. reflexivity.
    + cbn. split; [reflexivity |].
      split; [rewrite length_map, window_length; lia |].
      split; [apply window_ascending |].
      split; [apply window_last; lia |].
      split; [reflexivity |]. split; reflexivity.
  - intros Hfail. eexists. 
    unfold AnalyticsService.getDailyLeadsChart, tryCatch, simulateAPICall, newDateNow,
      callFetch, perform, bind, ret, consoleError.
    cbn [default backend clock]. rewrite Hfetch. cbn. rewrite Hfail. cbn.
    split; reflexivity.
Qed.

(** The sample store over three days: the three leads of today are counted
    in the last bucket. *)
Lemma C5_witness :
  exists chart w',
    AnalyticsService.getDailyLeadsChart Store.client utcRuntime JUndef (Some 3) Examples.world
      = (Return chart, w')
    /\ map AnalyticsService.date (AnalyticsService.chartData chart)
       = ["2023-12-31"; "2024-01-01"; "2024-01-02"]
    /\ map AnalyticsService.count (AnalyticsService.chartData chart) = [0; 0; 3]%nat
    /\ AnalyticsService.categories chart = ["Dec 31"; "Jan 1"; "Jan 2"].
Proof.
  assert (Hdated : Forall Spec.dated Examples.todaysLeads)
    by (repeat constructor).
  destruct (proj1 (C5_daily_chart_buckets Store.client utcRuntime Examples.world JUndef 3
                     _ _ ltac:(lia) ltac:(vm_compute; discriminate)
                     ltac:(vm_compute; discriminate) eq_refl) eq_refl Hdated)
    as (chart & w' & Hrun & Hdata & _ & _ & _ & Hcat & _).
  exists chart, w'. split; [exact Hrun |].
  rewrite Hcat, Hdata. vm_compute. auto.
Defined.

(** ** Creating a lead *)

Lemma callsSince_app {S} (w w' : World S) calls :
  history w' = history w ++ calls -> callsSince w w' = calls.
Proof. unfold callsSince. intros ->. apply drop_app_length. Qed.

Lemma url_cases (v : JsVal) :
  Spec.blankUrl v \/ Spec.validUrl v \/ (truthy v = true /\ forall s, v <> JStr s).
Proof.
  destruct v as [| |b|n| |s|f]; cbn;
    try (left; left; reflexivity);
    try (right; right; split; [reflexivity | discriminate]).
  - destruct b; [right; right; split; [reflexivity | discriminate] | left; left; reflexivity].
  - destruct (n =? 0) eqn:E.
    + left; left. cbn. rewrite E. reflexivity.
    + right; right. split; [reflexivity | discriminate].
  - destruct (string_dec (trim s) "") as [E|E].
    + left; right. eauto.
    + right; left. exists s. auto.
Qed.

Lemma valid_not_empty s : trim s <> "" -> String.eqb s "" = false.
Proof.
  intros H. apply String.eqb_neq. intros ->. apply H. reflexivity.
Qed.

Section CreateLead.
Context {S : Type} (client : Client S) (rt : DateRuntime).

Lemma isBlank_blank v (w : World S) :
  Spec.blankUrl v -> LeadsService.isBlank v w = (Return true, w).
Proof.
  unfold LeadsService.isBlank. intros [H|(s & -> & Ht)].
  - rewrite H. reflexivity.
  - cbn. destruct (String.eqb s "") eqn:E; cbn; [reflexivity |].
    unfold bind, ret. cbn. rewrite Ht. reflexivity.
Qed.

Lemma isBlank_valid v (w : World S) :
  Spec.validUrl v -> LeadsService.isBlank v w = (Return false, w).
Proof.
  unfold LeadsService.isBlank. intros (s & -> & Ht). cbn.
  rewrite (valid_not_empty s Ht). cbn. unfold bind, ret. cbn.
  apply String.eqb_neq in Ht. rewrite Ht. reflexivity.
Qed.

Lemma isBlank_not_string v (w : World S) :
  truthy v = true -> (forall s, v <> JStr s) ->
  exists e, LeadsService.isBlank v w = (Throw e, w).
Proof.
  unfold LeadsService.isBlank. intros Ht Hs. rewrite Ht. cbn.
  destruct v; try (eexists; reflexivity). exfalso. eapply Hs. reflexivity.
Qed.

Lemma normalizeUrl_valid v (w : World S) :
  Spec.validUrl v -> exists u, LeadsService.normalizeUrl v w = (Return u, w).
Proof.
  unfold LeadsService.normalizeUrl. intros (s & -> & Ht). cbn.
  rewrite (valid_not_empty s Ht). cbn. eexists. reflexivity.
Qed.

(** [insertLead] makes one call, to [createRecord]. *)
Lemma insertLead_calls leadData (w : World S) o w' :
  Spec.validUrl (prop leadData "websiteUrl") ->
  LeadsService.insertLead client rt leadData w = (o, w') ->
  exists records, history w' = history w ++ [CCreate "lead_c" records].
Proof.
  intros (s & Hs & _). unfold LeadsService.insertLead. rewrite Hs.
  unfold bind, stringMethod, ret, newDateNow, callCreate, perform. cbn.
  destruct (createRecord client _ _ _) as [[response|e] s1]; cbn.
  - destruct (success response); cbn.
    + destruct (results response) as [[|result l]|]; cbn.
      * intros H; inversion H; subst; cbn. eauto.
      * destruct (r_success result); cbn.
        -- destruct (r_data result); cbn; intros H; inversion H; subst; cbn; eauto.
        -- intros H; inversion H; subst; cbn. eauto.
      * intros H; inversion H; subst; cbn. eauto.
    + intros H; inversion H; subst; cbn. eauto.
  - intros H; inversion H; subst; cbn. eauto.
Qed.

(** The four ways through [createLead]. *)
Lemma createLead_blank leadData (w : World S) :
  Spec.blankUrl (prop leadData "websiteUrl") ->
  exists w',
    LeadsService.createLead client rt leadData w
      = (Throw (Error "Website URL is required"), w')
    /\ history w' = history w.
Proof.
  intros H. unfold LeadsService.createLead, tryCatch.
  rewrite (bind_Return _ _ w tt w) by reflexivity.
  rewrite (bind_Return _ _ _ _ _ (isBlank_blank _ w H)).
  cbn. eexists. split; reflexivity.
Qed.

Lemma createLead_not_string leadData (w : World S) :
  truthy (prop leadData "websiteUrl") = true ->
  (forall s, prop leadData "websiteUrl" <> JStr s) ->
  exists e w',
    LeadsService.createLead client rt leadData w = (Throw e, w')
    /\ history w' = history w.
Proof.
  intros Ht Hs. unfold LeadsService.createLead, tryCatch.
  rewrite (bind_Return _ _ w tt w) by reflexivity.
  destruct (isBlank_not_string _ w Ht Hs) as (e & He).
  rewrite (bind_Throw _ _ _ _ _ He).
  cbn. eexists _, _. split; reflexivity.
Qed.

Lemma createLead_lookup_rejected leadData (w : World S) e s1 :
  Spec.validUrl (prop leadData "websiteUrl") ->
  fetchRecords client "lead_c"
    (LeadsService.duplicateQuery (prop leadData "websiteUrl")) (backend w)
    = (Throw e, s1) ->
  exists w',
    LeadsService.createLead client rt leadData w = (Throw e, w')
    /\ history w' = history w
                    ++ [CFetch "lead_c"
                          (LeadsService.duplicateQuery (prop leadData "websiteUrl"))].
Proof.
  intros Hv Hfetch. unfold LeadsService.createLead, tryCatch.
  rewrite (bind_Return _ _ w tt w) by reflexivity.
  rewrite (bind_Return _ _ _ _ _ (isBlank_valid _ w Hv)).
  destruct (normalizeUrl_valid _ w Hv) as (u & Hu).
  rewrite (bind_Return _ _ _ _ _ Hu).
  unfold bind, callFetch, perform. rewrite Hfetch. cbn.
  eexists. split; reflexivity.
Qed.

Lemma createLead_duplicate leadData (w : World S) response s1 :
  Spec.validUrl (prop leadData "websiteUrl") ->
  fetchRecords client "lead_c"
    (LeadsService.duplicateQuery (prop leadData "websiteUrl")) (backend w)
    = (Return response, s1) ->
  success response && hasRows (data response) = true ->
  exists w',
    LeadsService.createLead client rt leadData w
      = (Throw (Error (LeadsService.alreadyExistsMessage (prop leadData "websiteUrl"))), w')
    /\ history w' = history w
                    ++ [CFetch "lead_c"
                          (LeadsService.duplicateQuery (prop leadData "websiteUrl"))].
Proof.
  intros Hv Hfetch Hdup. unfold LeadsService.createLead, tryCatch.
  rewrite (bind_Return _ _ w tt w) by reflexivity.
  rewrite (bind_Return _ _ _ _ _ (isBlank_valid _ w Hv)).
  destruct (normalizeUrl_valid _ w Hv) as (u & Hu).
  rewrite (bind_Return _ _ _ _ _ Hu).
  unfold bind, callFetch, perform. rewrite Hfetch. cbn. rewrite Hdup. cbn.
  eexists. split; reflexivity.
Qed.

Lemma createLead_inserts leadData (w : World S) response s1 :
  Spec.validUrl (prop leadData "websiteUrl") ->
  fetchRecords client "lead_c"
    (LeadsService.duplicateQuery (prop leadData "websiteUrl")) (backend w)
    = (Return response, s1) ->
  success response && hasRows (data response) = false ->
  exists o w' records,
    LeadsService.createLead client rt leadData w = (o, w')
    /\ history w' = history w
                    ++ [CFetch "lead_c"
                          (LeadsService.duplicateQuery (prop leadData "websiteUrl"));
                        CCreate "lead_c" records].
Proof.
  intros Hv Hfetch Hdup. unfold LeadsService.createLead, tryCatch.
  rewrite (bind_Return _ _ w tt w) by reflexivity.
  rewrite (bind_Return _ _ _ _ _ (isBlank_valid _ w Hv)).
  destruct (normalizeUrl_valid _ w Hv) as (u & Hu).
  rewrite (bind_Return _ _ _ _ _ Hu).
  unfold bind at 1. unfold callFetch, perform. rewrite Hfetch. rewrite Hdup.
  match goal with
  | |- context [LeadsService.insertLead client rt leadData ?w1] =>
      destruct (LeadsService.insertLead client rt leadData w1) as [o w2] eqn:E;
      destruct (insertLead_calls leadData w1 o w2 Hv E) as (records & Hh)
  end.
  cbn in Hh. destruct o as [a|e]; cbn.
  - eexists _, _, records. split; [reflexivity |]. rewrite Hh, <- app_assoc. reflexivity.
  - eexists _, _, records. split; [reflexivity |]. cbn. rewrite Hh, <- app_assoc. reflexivity.
Qed.

(** What a run of [createLead] that called [createRecord] went through. *)
Lemma createLead_created leadData (w : World S) o w' entity records :
  LeadsService.createLead client rt leadData w = (o, w') ->
  In (CCreate entity records) (callsSince w w') ->
  Spec.validUrl (prop leadData "websiteUrl")
  /\ exists response s1,
       fetchRecords client "lead_c"
         (LeadsService.duplicateQuery (prop leadData "websiteUrl")) (backend w)
         = (Return response, s1)
       /\ success response && hasRows (data response) = false.
Proof.
  intros Hrun Hin.
  destruct (url_cases (prop leadData "websiteUrl")) as [Hb|[Hv|[Ht Hs]]].
  - destruct (createLead_blank leadData w Hb) as (w1 & Hrun1 & Hh).
    rewrite Hrun1 in Hrun. inversion Hrun; subst.
    rewrite (callsSince_app w w' []) in Hin by (rewrite app_nil_r; exact Hh).
    destruct Hin.
  - split; [exact Hv |].
    destruct (fetchRecords client "lead_c"
                (LeadsService.duplicateQuery (prop leadData "websiteUrl")) (backend w))
      as [[response|e] s1] eqn:Hfetch.
    + destruct (success response && hasRows (data response)) eqn:Hdup; [| eauto].
      destruct (createLead_duplicate leadData w response s1 Hv Hfetch Hdup)
        as (w1 & Hrun1 & Hh).
      rewrite Hrun1 in Hrun. inversion Hrun; subst.
      rewrite (callsSince_app w w' _ Hh) in Hin.
      destruct Hin as [Hin|[]]. discriminate.
    + destruct (createLead_lookup_rejected leadData w e s1 Hv Hfetch)
        as (w1 & Hrun1 & Hh).
      rewrite Hrun1 in Hrun. inversion Hrun; subst.
      rewrite (callsSince_app w w' _ Hh) in Hin.
      destruct Hin as [Hin|[]]. discriminate.
  - destruct (createLead_not_string leadData w Ht Hs) as (e & w1 & Hrun1 & Hh).
    rewrite Hrun1 in Hrun. inversion Hrun; subst.
    rewrite (callsSince_app w w' []) in Hin by (rewrite app_nil_r; exact Hh).
    destruct Hin.
Qed.
End CreateLead.

(** The duplicate lookup on the reference store. *)
Lemma hasRows_filter (p : Rec -> bool) (rows : list Rec) :
  hasRows (Some (List.filter p rows)) = existsb p rows.
Proof.
  induction rows as [|r rows IH]; cbn; [reflexivity |].
  destruct (p r); cbn; [reflexivity | exact IH].
Qed.

Lemma store_duplicate_lookup (st : Store.State) (url : JsVal) :
  Store.down st = false ->
  exists response,
    fetchRecords Store.client "lead_c" (LeadsService.duplicateQuery url) st
      = (Return response, st)
    /\ success response && hasRows (data response) = Spec.storeHoldsUrl st url.
Proof.
  intros Hup. cbn. unfold Store.fetch. rewrite Hup.
  eexists. split; [reflexivity |]. cbn [success data andb].
  unfold Store.select. rewrite hasRows_filter. unfold Spec.storeHoldsUrl.
  generalize (Store.table st "lead_c") as rows.
  induction rows as [|r rows IH]; [reflexivity |].
  cbn [existsb]. f_equal; [| exact IH].
  cbn. unfold Store.matchesFilter. cbn.
  rewrite orb_false_r, andb_true_r. reflexivity.
Qed.

(** C4, as stated, fails: the sample store holds a lead with the URL of
    [acme], but it answers the duplicate lookup with [success: false];
    [createLead] for that URL then calls [createRecord], and the error it
    throws is not the "already exists" error. *)
Lemma C4_counterexample :
  exists e w' records,
    LeadsService.createLead Store.client utcRuntime Examples.acmeAgain Examples.worldDown
      = (Throw e, w')
    /\ Spec.storeHoldsUrl (backend Examples.worldDown) (prop Examples.acmeAgain "websiteUrl")
       = true
    /\ e <> Error (LeadsService.alreadyExistsMessage (prop Examples.acmeAgain "websiteUrl"))
    /\ In (CCreate "lead_c" records) (callsSince Examples.worldDown w').
Proof.
  eexists _, _, _. split; [vm_compute; reflexivity |].
  split; [reflexivity |].
  split; [vm_compute; discriminate |].
  vm_compute. right. left. reflexivity.
Qed.

(** A URL that is one no-break space is blank: [createLead] asks nothing of
    the store. *)
Example createLead_no_break_space :
  exists w',
    LeadsService.createLead Store.client utcRuntime
      [("websiteUrl", JStr (ofBytes [194; 160]%nat))] Examples.world
      = (Throw (Error "Website URL is required"), w')
    /\ callsSince Examples.world w' = [].
Proof. eexists. split; reflexivity. Qed.

(** C4, amended.  [createLead] throws "Website URL is required" for every
    [leadData] whose [websiteUrl] is absent or blank after trimming, without
    calling the store; for any other URL it throws the "already exists"
    error whenever the duplicate lookup succeeds and returns at least one
    record, and then [createRecord] is not called; [createRecord] is called
    only when the URL is not blank and the lookup failed or returned no
    record, and in that case it is called.  On the reference store, which
    answers [EqualTo] by equality of values, the lookup returns a record
    exactly when the store holds a lead whose [website_url_c] equals the
    given URL.  (Blank is blank after [trim], which removes the white space
    of JavaScript, also outside ASCII.) *)
Theorem C4_createLead_guards {S} (client : Client S) (rt : DateRuntime)
    (leadData : Rec) (w : World S) :
  let websiteUrl := prop leadData "websiteUrl" in
  (Spec.blankUrl websiteUrl ->
   exists w',
     LeadsService.createLead client rt leadData w
       = (Throw (Error "Website URL is required"), w')
     /\ callsSince w w' = [])
  /\
  (forall response s1,
     Spec.validUrl websiteUrl ->
     fetchRecords client "lead_c" (LeadsService.duplicateQuery websiteUrl) (backend w)
       = (Return response, s1) ->
     success response && hasRows (data response) = true ->
     exists w',
       LeadsService.createLead client rt leadData w
         = (Throw (Error (LeadsService.alreadyExistsMessage websiteUrl)), w')
       /\ callsSince w w' = [CFetch "lead_c" (LeadsService.duplicateQuery websiteUrl)])
  /\
  (forall o w' entity records,
     LeadsService.createLead client rt leadData w = (o, w') ->
     In (CCreate entity records) (callsSince w w') ->
     Spec.validUrl websiteUrl
     /\ exists response s1,
          fetchRecords client "lead_c" (LeadsService.duplicateQuery websiteUrl) (backend w)
            = (Return response, s1)
          /\ success response && hasRows (data response) = false)
  /\
  (forall response s1,
     Spec.validUrl websiteUrl ->
     fetchRecords client "lead_c" (LeadsService.duplicateQuery websiteUrl) (backend w)
       = (Return response, s1) ->
     success response && hasRows (data response) = false ->
     exists o w' records,
       LeadsService.createLead client rt leadData w = (o, w')
       /\ callsSince w w' = [CFetch "lead_c" (LeadsService.duplicateQuery websiteUrl);
                             CCreate "lead_c" records])
  /\
  (forall st : Store.State,
     Store.down st = false ->
     exists response,
       fetchRecords Store.client "lead_c" (LeadsService.duplicateQuery websiteUrl) st
         = (Return response, st)
       /\ success response && hasRows (data response) = Spec.storeHoldsUrl st websiteUrl).
Proof.
  cbv zeta. split; [| split; [| split; [| split]]].
  - intros Hb. destruct (createLead_blank client rt leadData w Hb) as (w' & Hrun & Hh).
    exists w'. split; [exact Hrun |].
    apply callsSince_app. rewrite app_nil_r. exact Hh.
  - intros response s1 Hv Hfetch Hdup.
    destruct (createLead_duplicate client rt leadData w response s1 Hv Hfetch Hdup)
      as (w' & Hrun & Hh).
    exists w'. split; [exact Hrun | apply callsSince_app, Hh].
  - intros o w' entity records. apply createLead_created.
  - intros response s1 Hv Hfetch Hdup.
    destruct (createLead_inserts client rt leadData w response s1 Hv Hfetch Hdup)
      as (o & w' & records & Hrun & Hh).
    exists o, w', records. split; [exact Hrun | apply callsSince_app, Hh].
  - intros st Hup. apply store_duplicate_lookup, Hup.
Qed.

(** The sample store answers and holds the URL of [acme]: a second
    [createLead] for it throws, after the lookup alone. *)
Lemma C4_witness :
  exists w',
    LeadsService.createLead Store.client utcRuntime Examples.acmeAgain Examples.world
      = (Throw (Error (LeadsService.alreadyExistsMessage (JStr "https://acme.io"))), w')
    /\ callsSince Examples.world w'
       = [CFetch "lead_c" (LeadsService.duplicateQuery (JStr "https://acme.io"))].
Proof.
  eapply (proj1 (proj2 (C4_createLead_guards Store.client utcRuntime Examples.acmeAgain
                          Examples.world))).
  - exists "https://acme.io". split; [reflexivity | discriminate].
  - reflexivity.
  - reflexivity.
Defined.

(** ** Duplicate detection *)

Lemma createLead_fetches {S} (client : Client S) rt leadData (w : World S) o w' entity p :
  LeadsService.createLead client rt leadData w = (o, w') ->
  In (CFetch entity p) (callsSince w w') ->
  entity = "lead_c" /\ p = LeadsService.duplicateQuery (prop leadData "websiteUrl").
Proof.
  intros Hrun Hin.
  destruct (url_cases (prop leadData "websiteUrl")) as [Hb|[Hv|[Ht Hs]]].
  - destruct (createLead_blank client rt leadData w Hb) as (w1 & Hrun1 & Hh).
    rewrite Hrun1 in Hrun. inversion Hrun; subst.
    rewrite (callsSince_app w w' []) in Hin by (rewrite app_nil_r; exact Hh).
    destruct Hin.
  - destruct (fetchRecords client "lead_c"
                (LeadsService.duplicateQuery (prop leadData "websiteUrl")) (backend w))
      as [[response|e] s1] eqn:Hfetch.
    + destruct (success response && hasRows (data response)) eqn:Hdup.
      * destruct (createLead_duplicate client rt leadData w response s1 Hv Hfetch Hdup)
          as (w1 & Hrun1 & Hh).
        rewrite Hrun1 in Hrun. inversion Hrun; subst.
        rewrite (callsSince_app w w' _ Hh) in Hin.
        destruct Hin as [Hin|[]]. inversion Hin. auto.
      * destruct (createLead_inserts client rt leadData w response s1 Hv Hfetch Hdup)
          as (o1 & w1 & records & Hrun1 & Hh).
        rewrite Hrun1 in Hrun. inversion Hrun; subst.
        rewrite (callsSince_app w w' _ Hh) in Hin.
        destruct Hin as [Hin|[Hin|[]]]; [inversion Hin; auto | discriminate].
    + destruct (createLead_lookup_rejected client rt leadData w e s1 Hv Hfetch)
        as (w1 & Hrun1 & Hh).
      rewrite Hrun1 in Hrun. inversion Hrun; subst.
      rewrite (callsSince_app w w' _ Hh) in Hin.
      destruct Hin as [Hin|[]]. inversion Hin. auto.
  - destruct (createLead_not_string client rt leadData w Ht Hs) as (e & w1 & Hrun1 & Hh).
    rewrite Hrun1 in Hrun. inversion Hrun; subst.
    rewrite (callsSince_app w w' []) in Hin by (rewrite app_nil_r; exact Hh).
    destruct Hin.
Qed.

(** On a store that answers and holds no record with exactly this URL,
    [createLead] goes on to create the lead, and the store accepts it. *)
Lemma createLead_store_accepts rt (st : Store.State) now leadData :
  Store.down st = false ->
  Spec.validUrl (prop leadData "websiteUrl") ->
  Spec.storeHoldsUrl st (prop leadData "websiteUrl") = false ->
  exists view w' records,
    LeadsService.createLead Store.client rt leadData (initialWorld st now)
      = (Return view, w')
    /\ callsSince (initialWorld st now) w'
       = [CFetch "lead_c" (LeadsService.duplicateQuery (prop leadData "websiteUrl"));
          CCreate "lead_c" records].
Proof.
  intros Hup Hv Hfresh.
  destruct (store_duplicate_lookup st (prop leadData "websiteUrl") Hup)
    as (response & Hfetch & Hdup).
  rewrite Hfresh in Hdup.
  unfold LeadsService.createLead, tryCatch.
  rewrite (bind_Return _ _ (initialWorld st now) tt (initialWorld st now)) by reflexivity.
  rewrite (bind_Return _ _ _ _ _ (isBlank_valid _ _ Hv)).
  destruct (normalizeUrl_valid _ (initialWorld st now) Hv) as (u & Hu).
  rewrite (bind_Return _ _ _ _ _ Hu).
  unfold bind at 1. unfold callFetch, perform.
  cbn [backend initialWorld]. rewrite Hfetch, Hdup.
  destruct Hv as (s & Hs & Ht).
  unfold LeadsService.insertLead. rewrite Hs.
  unfold bind, stringMethod, ret, newDateNow, callCreate, perform. cbn.
  unfold Store.create. rewrite Hup. cbn.
  eexists _, _, _. split; reflexivity.
Qed.

Lemma storeHoldsUrl_other (st : Store.State) u1 u2 :
  Forall (fun r => prop r "website_url_c" = JStr u1) (Store.table st "lead_c") ->
  u1 <> u2 ->
  Spec.storeHoldsUrl st (JStr u2) = false.
Proof.
  unfold Spec.storeHoldsUrl. intros Hall Hne.
  induction Hall as [|r rows Hr _ IH]; cbn; [reflexivity |].
  rewrite IH, Hr. unfold Store.sameValue. cbn. rewrite !orb_false_r.
  apply String.eqb_neq. exact Hne.
Qed.

(** C10.  The duplicate detection of [createLead] asks the store for the
    records whose [website_url_c] is [EqualTo] the raw [leadData.websiteUrl]:
    that is the only query it makes, and the result of [normalizeUrl] is no
    part of it.  So on the reference store, which answers [EqualTo] by
    equality of values, a URL that differs from the stored one, be it only
    in letter case or in a trailing slash, is not detected as a duplicate:
    the lead is created.  (The two URLs are any two different strings, so
    the statement holds in both directions; the new URL is one that
    passes the validation, not blank after [trim], which removes the white
    space of JavaScript, also outside ASCII.) *)
Theorem C10_duplicates_compare_raw_urls :
  (forall S (client : Client S) rt leadData (w : World S) o w' entity p,
     LeadsService.createLead client rt leadData w = (o, w') ->
     In (CFetch entity p) (callsSince w w') ->
     entity = "lead_c"
     /\ p = {| fields := ["website_url_c"];
               where_ := Some [ {| FieldName := "website_url_c"; Op := EqualTo;
                                   Values := [prop leadData "websiteUrl"] |} ];
               orderBy := [] |})
  /\
  (forall rt (st : Store.State) now leadData u1 u2,
     Store.down st = false ->
     Forall (fun r => prop r "website_url_c" = JStr u1) (Store.table st "lead_c") ->
     prop leadData "websiteUrl" = JStr u2 ->
     trim u2 <> "" ->
     u1 <> u2 ->
     exists view w' records,
       LeadsService.createLead Store.client rt leadData (initialWorld st now)
         = (Return view, w')
       /\ callsSince (initialWorld st now) w'
          = [CFetch "lead_c" (LeadsService.duplicateQuery (JStr u2));
             CCreate "lead_c" records]).
Proof.
  split.
  - intros S client rt leadData w o w' entity p Hrun Hin.
    apply (createLead_fetches client rt leadData w o w' entity p Hrun Hin).
  - intros rt st now leadData u1 u2 Hup Hall Hurl Hvalid Hne.
    rewrite <- Hurl. apply createLead_store_accepts.
    + exact Hup.
    + exists u2. auto.
    + rewrite Hurl. apply (storeHoldsUrl_other st u1 u2 Hall Hne).
Qed.

(** The sample store holds [https://acme.io]; the same URL in capitals and
    with a trailing slash normalizes to it, and is created all the same. *)
Lemma C10_witness :
  dropTrailingSlash (toLowerCase "HTTPS://ACME.IO/") = "https://acme.io"
  /\ exists view w' records,
       LeadsService.createLead Store.client utcRuntime Examples.acmeVariant
         Examples.worldAcme = (Return view, w')
       /\ callsSince Examples.worldAcme w'
          = [CFetch "lead_c" (LeadsService.duplicateQuery (JStr "HTTPS://ACME.IO/"));
             CCreate "lead_c" records].
Proof.
  split; [reflexivity |].
  apply (proj2 C10_duplicates_compare_raw_urls utcRuntime
           (Store.holding [Examples.acme] Examples.salesReps false) Examples.now
           Examples.acmeVariant "https://acme.io" "HTTPS://ACME.IO/").
  - reflexivity.
  - repeat constructor.
  - reflexivity.
  - discriminate.
  - discriminate.
Defined.

(** ** Fresh leads *)

Section FreshLeads.
Context {S : Type} (client : Client S) (rt : DateRuntime).

Lemma normalizeUrl_world url (w : World S) o w' :
  LeadsService.normalizeUrl url w = (o, w') -> w' = w.
Proof.
  unfold LeadsService.normalizeUrl, bind, stringMethod, ret, throw.
  destruct (negb (truthy url)); [intros H; inversion H; reflexivity |].
  destruct url; intros H; inversion H; reflexivity.
Qed.

Lemma keepIfFresh_clock today acc lead (w : World S) o w' :
  LeadsService.keepIfFresh client rt today acc lead w = (o, w') ->
  clock w' = clock w.
Proof.
  unfold LeadsService.keepIfFresh, bind.
  destruct (LeadsService.normalizeUrl _ w) as [[u|e] w1] eqn:E;
    apply normalizeUrl_world in E; subst w1.
  - unfold callFetch, perform.
    destruct (fetchRecords client _ _ _) as [[r|e] s1]; cbn.
    + destruct (LeadsService.noEarlierRecord r); intros H; inversion H; reflexivity.
    + intros H; inversion H; reflexivity.
  - intros H; inversion H; reflexivity.
Qed.

Lemma keepIfFresh_console today acc lead (w : World S) o w' :
  LeadsService.keepIfFresh client rt today acc lead w = (o, w') ->
  console w' = console w.
Proof.
  unfold LeadsService.keepIfFresh, bind.
  destruct (LeadsService.normalizeUrl _ w) as [[u|e] w1] eqn:E;
    apply normalizeUrl_world in E; subst w1.
  - unfold callFetch, perform.
    destruct (fetchRecords client _ _ _) as [[r|e] s1]; cbn.
    + destruct (LeadsService.noEarlierRecord r); intros H; inversion H; reflexivity.
    + intros H; inversion H; reflexivity.
  - intros H; inversion H; reflexivity.
Qed.

Lemma keepIfFresh_result today acc lead (w : World S) res w' :
  LeadsService.keepIfFresh client rt today acc lead w = (Return res, w') ->
  res = acc \/ res = acc ++ [lead].
Proof.
  unfold LeadsService.keepIfFresh, bind.
  destruct (LeadsService.normalizeUrl _ w) as [[u|e] w1]; [| discriminate].
  unfold callFetch, perform.
  destruct (fetchRecords client _ _ _) as [[r|e] s1]; cbn; [| discriminate].
  destruct (LeadsService.noEarlierRecord r); intros H; inversion H; auto.
Qed.

Lemma loop_clock today leads acc (w : World S) o w' :
  forOf leads acc (LeadsService.keepIfFresh client rt today) w = (o, w') ->
  clock w' = clock w.
Proof.
  revert acc w. induction leads as [|lead leads IH]; intros acc w; cbn.
  - intros H; inversion H; reflexivity.
  - unfold bind.
    destruct (LeadsService.keepIfFresh client rt today acc lead w) as [[acc'|e] w1] eqn:E;
      apply keepIfFresh_clock in E.
    + intros H. apply IH in H. congruence.
    + intros H; inversion H; subst. exact E.
Qed.

Lemma loop_console today leads acc (w : World S) o w' :
  forOf leads acc (LeadsService.keepIfFresh client rt today) w = (o, w') ->
  console w' = console w.
Proof.
  revert acc w. induction leads as [|lead leads IH]; intros acc w; cbn.
  - intros H; inversion H; reflexivity.
  - unfold bind.
    destruct (LeadsService.keepIfFresh client rt today acc lead w) as [[acc'|e] w1] eqn:E;
      apply keepIfFresh_console in E.
    + intros H. apply IH in H. congruence.
    + intros H; inversion H; subst. exact E.
Qed.

Lemma loop_result today leads acc (w : World S) res w' :
  forOf leads acc (LeadsService.keepIfFresh client rt today) w = (Return res, w') ->
  Forall (fun lead => In lead acc \/ In lead leads) res.
Proof.
  revert acc w. induction leads as [|lead leads IH]; intros acc w; cbn.
  - intros H; inversion H; subst. apply List.Forall_forall. auto.
  - unfold bind.
    destruct (LeadsService.keepIfFresh client rt today acc lead w) as [[acc'|e] w1] eqn:E;
      [| discriminate].
    intros H. apply IH in H. apply keepIfFresh_result in E.
    eapply Forall_impl; [exact H |]. cbn. intros x [Hx|Hx]; [| auto].
    destruct E as [->| ->]; [auto |].
    apply in_app_iff in Hx as [Hx|[<-|[]]]; auto.
Qed.

(** Whatever the store answers, only leads created today are returned. *)
Lemma getFreshLeadsOnly_today leadsArray (w : World S) :
  exists fresh w',
    LeadsService.getFreshLeadsOnly client rt leadsArray w = (Return fresh, w')
    /\ Forall (fun lead => In lead leadsArray
                           /\ LeadsService.createdOn rt (clock w) lead = true) fresh.
Proof.
  unfold LeadsService.getFreshLeadsOnly.
  rewrite (bind_Return _ _ w tt w) by reflexivity.
  unfold tryCatch, bind at 1, newDateNow at 1.
  destruct (forOf _ _ _ w) as [[res|e] w1] eqn:E.
  - exists res, w1. split; [reflexivity |].
    apply loop_result in E. eapply Forall_impl; [exact E |].
    cbn. intros lead [[]|Hin]. apply filter_In in Hin. exact Hin.
  - apply loop_clock in E. unfold bind, consoleError, newDateNow, ret. cbn.
    eexists _, _. split; [reflexivity |].
    rewrite E. apply List.Forall_forall. intros lead Hin.
    apply filter_In in Hin. exact Hin.
Qed.

End FreshLeads.

(** When every lookup is answered, and the store does not change. *)
Section FreshAnswered.
Context {S : Type} (client : Client S) (rt : DateRuntime).
Variable answer : Params -> Response (list Rec).
Variable s0 : S.
Hypothesis answered :
  forall p, fetchRecords client "lead_c" p s0 = (Return (answer p), s0).

Lemma normalizeUrl_plain lead (w : World S) :
  Spec.plainUrl lead ->
  exists u, LeadsService.normalizeUrl (LeadsService.urlOf lead) w = (Return u, w).
Proof.
  unfold Spec.plainUrl, LeadsService.normalizeUrl, LeadsService.urlOf.
  destruct (jsOr _ _) as [| |b|n| |s|f]; cbn; intros H; try rewrite H;
    try discriminate; try (eexists; reflexivity).
  destruct (String.eqb s ""); cbn; eexists; reflexivity.
Qed.

Lemma freshBy_lookup today lead :
  LeadsService.noEarlierRecord
    (answer (LeadsService.earlierQuery rt today (LeadsService.urlOf lead)))
  = Spec.freshBy answer rt today lead.
Proof.
  unfold Spec.freshBy, Spec.foundNothing, LeadsService.noEarlierRecord, hasRows.
  change (LeadsService.earlierQuery rt today (LeadsService.urlOf lead))
    with (Spec.earlierLookup rt today lead).
  destruct (data (answer (Spec.earlierLookup rt today lead))) as [[|r l]|]; reflexivity.
Qed.

Lemma loop_answered today leads acc (w : World S) :
  backend w = s0 ->
  Forall Spec.plainUrl leads ->
  exists w',
    forOf leads acc (LeadsService.keepIfFresh client rt today) w
      = (Return (acc ++ List.filter (Spec.freshBy answer rt today) leads), w')
    /\ console w' = console w.
Proof using answered.
  intros Hb Hleads. revert acc w Hb.
  induction Hleads as [|lead leads Hlead _ IH]; intros acc w Hb; cbn.
  - rewrite app_nil_r. eexists. split; reflexivity.
  - destruct (normalizeUrl_plain lead w Hlead) as (u & Hu).
    unfold LeadsService.keepIfFresh at 1.
    unfold bind at 1. unfold bind at 1. rewrite Hu.
    unfold bind at 1. unfold callFetch, perform. rewrite Hb, answered.
    rewrite freshBy_lookup.
    destruct (Spec.freshBy answer rt today lead) eqn:F; cbn.
    + destruct (IH (acc ++ [lead])
                   {| backend := s0; clock := clock w; console := console w;
                      history := history w
                                 ++ [CFetch "lead_c"
                                       (LeadsService.earlierQuery rt today
                                          (LeadsService.urlOf lead))] |}
                   eq_refl) as (w' & Hrun & Hc).
      exists w'. rewrite Hrun, <- app_assoc. split; [reflexivity | exact Hc].
    + destruct (IH acc
                   {| backend := s0; clock := clock w; console := console w;
                      history := history w
                                 ++ [CFetch "lead_c"
                                       (LeadsService.earlierQuery rt today
                                          (LeadsService.urlOf lead))] |}
                   eq_refl) as (w' & Hrun & Hc).
      exists w'. rewrite Hrun. split; [reflexivity | exact Hc].
Qed.

Lemma filter_filter_and {A} (p q : A -> bool) (l : list A) :
  List.filter q (List.filter p l) = List.filter (fun x => p x && q x) l.
Proof.
  induction l as [|x l IH]; cbn; [reflexivity |].
  destruct (p x); cbn; [destruct (q x); rewrite IH; reflexivity | exact IH].
Qed.

Lemma getFreshLeadsOnly_answered leadsArray (w : World S) :
  backend w = s0 ->
  Forall Spec.plainUrl (List.filter (LeadsService.createdOn rt (clock w)) leadsArray) ->
  exists w',
    LeadsService.getFreshLeadsOnly client rt leadsArray w
      = (Return
           (List.filter
              (fun lead => LeadsService.createdOn rt (clock w) lead
                           && Spec.freshBy answer rt (clock w) lead)
              leadsArray), w')
    /\ console w' = console w.
Proof using answered.
  intros Hb Hplain. unfold LeadsService.getFreshLeadsOnly.
  rewrite (bind_Return _ _ w tt w) by reflexivity.
  unfold tryCatch, bind at 1, newDateNow at 1.
  destruct (loop_answered (clock w)
              (List.filter (LeadsService.createdOn rt (clock w)) leadsArray) [] w Hb
              Hplain) as (w' & Hrun & Hc).
  rewrite Hrun. cbn [app]. rewrite filter_filter_and.
  exists w'. split; [reflexivity | exact Hc].
Qed.
End FreshAnswered.

Section FreshThrown.
Context {S : Type} (client : Client S) (rt : DateRuntime).

Lemma normalizeUrl_throws lead (w : World S) :
  ~ Spec.plainUrl lead ->
  exists e, LeadsService.normalizeUrl (LeadsService.urlOf lead) w = (Throw e, w).
Proof.
  unfold Spec.plainUrl, LeadsService.normalizeUrl, LeadsService.urlOf.
  destruct (jsOr _ _) as [| |b|n| |s|f]; cbn; intros H;
    try (exfalso; apply H; reflexivity); try (exfalso; apply H; exact I).
  - destruct b; [eexists; reflexivity | exfalso; apply H; reflexivity].
  - destruct (n =? 0); cbn; [exfalso; apply H; reflexivity |].
    eexists. reflexivity.
  - eexists. reflexivity.
Qed.

(** The loop throws as soon as it meets a URL that is no string, if it
    has not thrown before. *)
Lemma loop_throws today leads acc (w : World S) :
  Exists (fun lead => ~ Spec.plainUrl lead) leads ->
  exists e w', forOf leads acc (LeadsService.keepIfFresh client rt today) w = (Throw e, w').
Proof.
  intros Hleads. revert acc w.
  induction Hleads as [lead leads Hbad|lead leads _ IH]; intros acc w; cbn.
  - unfold bind at 1. unfold LeadsService.keepIfFresh at 1. unfold bind at 1.
    destruct (normalizeUrl_throws lead w Hbad) as (e & ->). eauto.
  - unfold bind at 1.
    destruct (LeadsService.keepIfFresh client rt today acc lead w) as [[acc'|e] w1];
      [apply IH | eauto].
Qed.

Lemma getFreshLeadsOnly_thrown leadsArray (w : World S) :
  Exists (fun lead => ~ Spec.plainUrl lead)
    (List.filter (LeadsService.createdOn rt (clock w)) leadsArray) ->
  exists w' line,
    LeadsService.getFreshLeadsOnly client rt leadsArray w
      = (Return (List.filter (LeadsService.createdOn rt (clock w)) leadsArray), w')
    /\ console w' = console w ++ [line].
Proof.
  intros Hbad. unfold LeadsService.getFreshLeadsOnly.
  rewrite (bind_Return _ _ w tt w) by reflexivity.
  unfold tryCatch, bind at 1, newDateNow at 1.
  destruct (loop_throws (clock w) _ [] w Hbad) as (e & w1 & Hrun).
  rewrite Hrun.
  assert (Hc := loop_clock client rt _ _ _ _ _ _ Hrun).
  assert (Hq := loop_console client rt _ _ _ _ _ _ Hrun).
  unfold bind, consoleError, newDateNow, ret. cbn. rewrite Hc, Hq.
  eexists _, _. split; reflexivity.
Qed.
End FreshThrown.

Lemma store_answers st p :
  fetchRecords Store.client "lead_c" p st = (Return (Store.leadsAnswer st p), st).
Proof. cbn. unfold Store.fetch, Store.leadsAnswer. destruct (Store.down st); reflexivity. Qed.




(** ** Failed responses *)

Import Operations.

Ltac unfold_js :=
  unfold as_, bind, tryCatch, ret, throw, consoleError, newDateNow, simulateAPICall,
    required, callFetch, callGet, callCreate, callUpdate, callDelete, perform,
    stringMethod, isoOf in *.

(** One call to a client whose every answer has [success: false]. *)
Ltac failed_call Hf :=
  let r := fresh "r" in let s' := fresh "s'" in
  let Hcall := fresh "Hcall" in let Hs := fresh "Hs" in
  match goal with
  | |- context [fetchRecords ?c ?e ?p ?s] =>
      destruct (proj1 Hf e p s) as (r & s' & Hcall & Hs)
  | |- context [getRecordById ?c ?e ?i ?p ?s] =>
      destruct (proj1 (proj2 Hf) e i p s) as (r & s' & Hcall & Hs)
  | |- context [createRecord ?c ?e ?rs ?s] =>
      destruct (proj1 (proj2 (proj2 Hf)) e rs s) as (r & s' & Hcall & Hs)
  | |- context [updateRecord ?c ?e ?rs ?s] =>
      destruct (proj1 (proj2 (proj2 (proj2 Hf))) e rs s) as (r & s' & Hcall & Hs)
  | |- context [deleteRecord ?c ?e ?ids ?s] =>
      destruct (proj2 (proj2 (proj2 (proj2 Hf))) e ids s) as (r & s' & Hcall & Hs)
  end;
  rewrite Hcall; cbn; rewrite ?Hs; cbn.

Ltac finish :=
  cbn;
  first
    [ eexists _, _; split; [reflexivity |]; cbn;
      first [ reflexivity
            | split; reflexivity
            | split; [reflexivity | eexists; reflexivity]
            | eexists; reflexivity ] ].

Section Quiet.
Context {S : Type}.

Lemma quiet_bind {A B} (m : M S A) (k : A -> M S B) :
  quiet m -> (forall a, quiet (k a)) -> quiet (bind m k).
Proof.
  intros Hm Hk w o w'. unfold bind.
  destruct (m w) as [[a|e] w1] eqn:E; apply Hm in E.
  - intros H. apply Hk in H. congruence.
  - intros H. inversion H; subst. exact E.
Qed.

Lemma quiet_ret {A} (a : A) : quiet (ret (S:=S) a).
Proof. intros w o w' H. inversion H. reflexivity. Qed.

Lemma quiet_throw {A} e : quiet (throw (S:=S) (A:=A) e).
Proof. intros w o w' H. inversion H. reflexivity. Qed.

Lemma quiet_isoOf rt d : quiet (isoOf (S:=S) rt d).
Proof.
  destruct d as [t|]; [| apply quiet_throw].
  unfold isoOf. destruct (timeClip t); [apply quiet_ret | apply quiet_throw].
Qed.

Lemma quiet_stringMethod m f v : quiet (stringMethod (S:=S) m f v).
Proof. destruct v; first [apply quiet_ret | apply quiet_throw]. Qed.

Lemma quiet_if {A} (b : bool) (m1 m2 : M S A) :
  quiet m1 -> quiet m2 -> quiet (if b then m1 else m2).
Proof. destruct b; auto. Qed.

Lemma quiet_mapM {A B} (f : A -> M S B) l :
  (forall x, quiet (f x)) -> quiet (mapM f l).
Proof.
  intros Hf. induction l as [|x l IH]; cbn.
  - apply quiet_ret.
  - apply quiet_bind; [apply Hf |]. intros y.
    apply quiet_bind; [exact IH |]. intros ys. apply quiet_ret.
Qed.

Lemma failsSoftly_bind {A B} (dflt : B) (m : M S A) (k : A -> M S B) :
  quiet m -> (forall a, failsSoftly dflt (k a)) -> failsSoftly dflt (bind m k).
Proof.
  intros Hm Hk w. unfold bind.
  destruct (m w) as [[a|e] w1] eqn:E; apply Hm in E.
  - destruct (Hk a w1) as (o & w' & Hrun & H). exists o, w'.
    split; [exact Hrun |]. rewrite <- E. exact H.
  - exists (Throw e), w1. split; [reflexivity |]. right. eauto.
Qed.

(** The handler of a read: it logs and returns the default. *)
Lemma tryCatch_failsSoftly {A} (dflt : A) (body : M S A) label w :
  failsSoftly dflt body ->
  exists w',
    tryCatch body
      (fun error => bind (consoleError label (JStr (errMessage error)))
                      (fun _ => ret dflt)) w
    = (Return dflt, w')
    /\ exists line, console w' = console w ++ [line].
Proof.
  intros Hbody. unfold tryCatch.
  destruct (Hbody w) as (o & w1 & Hrun & [[-> Hline]|[[e ->] Hc]]); rewrite Hrun.
  - eauto.
  - unfold bind, consoleError, ret. cbn. eexists. split; [reflexivity |].
    rewrite Hc. eauto.
Qed.

Lemma throws_throw {A} e : throws (throw (S:=S) (A:=A) e).
Proof. intros w. eexists _, _. reflexivity. Qed.

(** A computation throws when whatever follows its first step throws. *)
Lemma throws_bind {A B} (m : M S A) (k : A -> M S B) :
  (forall a, throws (k a)) -> throws (bind m k).
Proof.
  intros Hk w. unfold bind. destruct (m w) as [[a|e] w1].
  - apply Hk.
  - eexists _, _. reflexivity.
Qed.

Lemma throws_if {A} (b : bool) (m1 m2 : M S A) :
  throws m1 -> throws m2 -> throws (if b then m1 else m2).
Proof. destruct b; auto. Qed.

(** The handler of a mutation: it logs and throws the error again. *)
Lemma throws_tryCatch {A} (body : M S A) label :
  throws body ->
  throws (tryCatch body
            (fun error => bind (consoleError label (JStr (errMessage error)))
                            (fun _ => throw error))).
Proof.
  intros Hbody w. unfold tryCatch.
  destruct (Hbody w) as (e & w1 & ->). eexists _, _. reflexivity.
Qed.
End Quiet.

Section Failing.
Context {S : Type} (client : Client S) (rt : DateRuntime)
  (js : TeamService.JsonRuntime).
Hypothesis Hf : failing client.

Lemma quiet_rangeFilters filters : quiet (ReportService.rangeFilters (S:=S) rt filters).
Proof.
  unfold ReportService.rangeFilters.
  apply quiet_if; [| apply quiet_ret].
  apply quiet_bind; [apply quiet_isoOf |]. intros a.
  apply quiet_bind; [apply quiet_isoOf |]. intros b. apply quiet_ret.
Qed.

Lemma quiet_dayFilters date : quiet (ReportService.dayFilters (S:=S) rt date).
Proof.
  unfold ReportService.dayFilters.
  apply quiet_bind; [apply quiet_isoOf |]. intros a.
  apply quiet_bind; [apply quiet_isoOf |]. intros b. apply quiet_ret.
Qed.

Lemma failing_getWebsiteUrlActivity filters (w : World S) :
  exists w',
    ReportService.getWebsiteUrlActivity client rt filters w
      = (Return ReportService.emptyActivity, w')
    /\ exists line, console w' = console w ++ [line].
Proof using Hf.
  unfold ReportService.getWebsiteUrlActivity.
  rewrite (bind_Return _ _ w tt w) by reflexivity.
  apply tryCatch_failsSoftly.
  apply failsSoftly_bind; [apply quiet_rangeFilters |]. intros byRange.
  apply failsSoftly_bind;
    [apply quiet_if; [apply quiet_dayFilters | apply quiet_ret] |]. intros byDay.
  apply failsSoftly_bind.
  { apply quiet_if; [| apply quiet_ret].
    apply quiet_bind; [apply quiet_stringMethod |]. intros t. apply quiet_ret. }
  intros bySearch w0. unfold_js. failed_call Hf.
  eexists _, _. split; [reflexivity |]. left. split; [reflexivity | eauto].
Qed.

Lemma failing_getDailyWebsiteUrls salesRepId date (w : World S) :
  exists w',
    ReportService.getDailyWebsiteUrls client rt salesRepId date w = (Return [], w')
    /\ exists line, console w' = console w ++ [line].
Proof using Hf.
  unfold ReportService.getDailyWebsiteUrls.
  rewrite (bind_Return _ _ w tt w) by reflexivity.
  apply tryCatch_failsSoftly.
  apply failsSoftly_bind; [apply quiet_dayFilters |]. intros byDay.
  intros w0. unfold_js. failed_call Hf.
  eexists _, _. split; [reflexivity |]. left. split; [reflexivity | eauto].
Qed.

Lemma failing_createLead leadData (w : World S) :
  exists e w', LeadsService.createLead client rt leadData w = (Throw e, w').
Proof using Hf.
  destruct (url_cases (prop leadData "websiteUrl")) as [Hb|[Hv|[Ht Hs]]].
  - destruct (createLead_blank client rt leadData w Hb) as (w' & Hrun & _). eauto.
  - unfold LeadsService.createLead, tryCatch.
    rewrite (bind_Return _ _ w tt w) by reflexivity.
    rewrite (bind_Return _ _ _ _ _ (isBlank_valid _ w Hv)).
    destruct (normalizeUrl_valid _ w Hv) as (u & Hu).
    rewrite (bind_Return _ _ _ _ _ Hu).
    destruct Hv as (s & Hs & Ht).
    unfold LeadsService.insertLead. rewrite Hs. unfold_js. cbn.
    failed_call Hf. failed_call Hf. eauto.
  - destruct (createLead_not_string client rt leadData w Ht Hs) as (e & w' & Hrun & _).
    eauto.
Qed.

(** With failed lookups every lead of the loop is kept. *)
Lemma loop_failing today leads acc (w : World S) :
  exists o w',
    forOf leads acc (LeadsService.keepIfFresh client rt today) w = (o, w')
    /\ (o = Return (acc ++ leads) \/ exists e, o = Throw e).
Proof using Hf.
  revert acc w. induction leads as [|lead leads IH]; intros acc w; cbn.
  - rewrite app_nil_r. eexists _, _. split; [reflexivity | auto].
  - unfold bind at 1. unfold LeadsService.keepIfFresh at 1. unfold bind at 1.
    destruct (LeadsService.normalizeUrl (LeadsService.urlOf lead) w) as [[u|e] w1].
    + unfold bind at 1. unfold callFetch, perform.
      match goal with
      | |- context [fetchRecords client ?e ?p ?s] =>
          destruct (proj1 Hf e p s) as (r & s' & Hcall & Hs)
      end.
      rewrite Hcall. unfold LeadsService.noEarlierRecord. rewrite Hs. cbn.
      match goal with
      | |- context [forOf leads (acc ++ [lead]) ?body ?w2] =>
          destruct (IH (acc ++ [lead]) w2) as (o & w' & Hrun & Ho)
      end.
      rewrite <- app_assoc in Ho. eauto.
    + eexists _, _. split; [reflexivity |]. eauto.
Qed.

Lemma failing_getFreshLeadsOnly leadsArray (w : World S) :
  exists w',
    LeadsService.getFreshLeadsOnly client rt leadsArray w
    = (Return (List.filter (LeadsService.createdOn rt (clock w)) leadsArray), w').
Proof using Hf.
  unfold LeadsService.getFreshLeadsOnly.
  rewrite (bind_Return _ _ w tt w) by reflexivity.
  unfold tryCatch, bind at 1, newDateNow at 1.
  destruct (loop_failing (clock w)
              (List.filter (LeadsService.createdOn rt (clock w)) leadsArray) [] w)
    as (o & w1 & Hrun & Ho).
  rewrite Hrun. destruct Ho as [-> | [e ->]].
  - eauto.
  - apply loop_clock in Hrun. unfold bind, consoleError, newDateNow, ret. cbn.
    rewrite Hrun. eauto.
Qed.

(** A failed create, update or delete is logged and thrown. *)
Lemma throws_failed_mutation {A} label (response : Response unit) (k : M S A) :
  success response = false ->
  throws (if negb (success response)
          then bind (consoleError label (message response))
                 (fun _ => throw (newError (message response)))
          else k).
Proof.
  intros ->. cbn. apply throws_bind. intros _. apply throws_throw.
Qed.

Lemma throws_callFetch {A} entity p (k : Response (list Rec) -> M S A) :
  (forall r, success r = false -> throws (k r)) -> throws (bind (callFetch client entity p) k).
Proof using Hf.
  intros Hk w. unfold bind, callFetch, perform.
  destruct (proj1 Hf entity p (backend w)) as (r & s' & -> & Hs). apply (Hk r Hs).
Qed.

Lemma throws_callCreate {A} entity records (k : Response unit -> M S A) :
  (forall r, success r = false -> throws (k r)) ->
  throws (bind (callCreate client entity records) k).
Proof using Hf.
  intros Hk w. unfold bind, callCreate, perform.
  destruct (proj1 (proj2 (proj2 Hf)) entity records (backend w)) as (r & s' & -> & Hs).
  apply (Hk r Hs).
Qed.

Lemma throws_callUpdate {A} entity records (k : Response unit -> M S A) :
  (forall r, success r = false -> throws (k r)) ->
  throws (bind (callUpdate client entity records) k).
Proof using Hf.
  intros Hk w. unfold bind, callUpdate, perform.
  destruct (proj1 (proj2 (proj2 (proj2 Hf))) entity records (backend w))
    as (r & s' & -> & Hs).
  apply (Hk r Hs).
Qed.

Lemma failing_inviteTeamMember memberData :
  throws (TeamService.inviteTeamMember client rt js memberData).
Proof using Hf.
  unfold TeamService.inviteTeamMember.
  apply throws_bind. intros _. apply throws_tryCatch.
  apply throws_bind. intros noName. apply throws_if; [apply throws_throw |].
  apply throws_bind. intros noEmail. apply throws_if; [apply throws_throw |].
  apply throws_bind. intros lowered.
  apply throws_callFetch. intros existing Hex. rewrite Hex. cbn [andb].
  do 3 (apply throws_bind; intro).
  apply throws_callCreate. intros response Hr.
  apply throws_failed_mutation. exact Hr.
Qed.

Lemma failing_updateTeamMember id updates :
  throws (TeamService.updateTeamMember client rt js id updates).
Proof using Hf.
  unfold TeamService.updateTeamMember.
  apply throws_bind. intros _. apply throws_tryCatch.
  do 3 (apply throws_bind; intro).
  apply throws_callUpdate. intros response Hr.
  apply throws_failed_mutation. exact Hr.
Qed.

Lemma failing_activateTeamMember id :
  throws (TeamService.activateTeamMember client rt js id).
Proof using Hf.
  unfold TeamService.activateTeamMember.
  apply throws_bind. intros _. apply throws_tryCatch.
  apply throws_bind. intros now. apply failing_updateTeamMember.
Qed.

Lemma failing_deactivateTeamMember id :
  throws (TeamService.deactivateTeamMember client rt js id).
Proof using Hf.
  unfold TeamService.deactivateTeamMember.
  apply throws_bind. intros _. apply throws_tryCatch.
  apply failing_updateTeamMember.
Qed.

(** An operation whose service function throws. *)
Lemma throws_run {A} (f : A -> Result) (m : M S A) (w : World S) :
  throws m -> exists o w', as_ f m w = (o, w') /\ exists e, o = Throw e.
Proof.
  intros Hm. destruct (Hm w) as (e & w' & Hrun).
  unfold as_. rewrite (bind_Throw _ _ _ _ _ Hrun). eauto.
Qed.

Ltac simple_op Hf :=
  unfold run,
    LeadsService.getLeads, LeadsService.getLeadById, LeadsService.updateLead,
    LeadsService.deleteLead, LeadsService.getDailyLeadsReport,
    LeadsService.getPendingFollowUps,
    AnalyticsService.getLeadsAnalytics, AnalyticsService.getDailyLeadsChart,
    AnalyticsService.getLeadsMetrics, AnalyticsService.fetchPeriod,
    AnalyticsService.getUserPerformance,
    SalesRepService.getSalesReps, SalesRepService.getSalesRepById,
    SalesRepService.createSalesRep, SalesRepService.updateSalesRep,
    SalesRepService.deleteSalesRep, ReportService.getSalesRepsForFilter,
    DealsService.getDeals, DealsService.getDealById, DealsService.createDeal,
    DealsService.updateDeal, DealsService.deleteDeal,
    ContactsService.getContacts, ContactsService.getContactById,
    ContactsService.createContact, ContactsService.updateContact,
    ContactsService.deleteContact,
    TeamService.getTeamMembers, TeamService.getTeamMemberById,
    TeamService.removeTeamMember, TeamService.getTeamMemberPerformance, rowsOrEmpty;
  unfold_js; cbn; repeat failed_call Hf; finish.

Lemma failing_run op (w : World S) :
  exists o w',
    run client rt js op w = (o, w') /\ meets (onFailure rt (clock w) op) o w w'.
Proof using Hf.
  destruct op; try solve [simple_op Hf].
  - destruct (failing_createLead leadData w) as (e & w' & Hrun).
    unfold run, as_. rewrite (bind_Throw _ _ _ _ _ Hrun).
    eexists _, _. split; [reflexivity |]. cbn. eauto.
  - destruct (failing_getFreshLeadsOnly leadsArray w) as (w' & Hrun).
    unfold run, as_. rewrite (bind_Return _ _ _ _ _ Hrun).
    eexists _, _. split; reflexivity.
  - destruct (failing_getWebsiteUrlActivity filters w) as (w' & Hrun & Hline).
    unfold run, as_. rewrite (bind_Return _ _ _ _ _ Hrun).
    eexists _, _. split; [reflexivity |]. split; [reflexivity | exact Hline].
  - destruct (failing_getWebsiteUrlActivity [("date", date)] w) as (w' & Hrun & Hline).
    unfold run, as_, ReportService.getActivityByDate. rewrite (bind_Return _ _ _ _ _ Hrun).
    eexists _, _. split; [reflexivity |]. split; [reflexivity | exact Hline].
  - destruct (failing_getWebsiteUrlActivity [("addedBy", userId)] w) as (w' & Hrun & Hline).
    unfold run, as_, ReportService.getActivityByUser. rewrite (bind_Return _ _ _ _ _ Hrun).
    eexists _, _. split; [reflexivity |]. split; [reflexivity | exact Hline].
  - destruct (failing_getDailyWebsiteUrls salesRepId date w) as (w' & Hrun & Hline).
    unfold run, as_. rewrite (bind_Return _ _ _ _ _ Hrun).
    eexists _, _. split; [reflexivity |]. split; [reflexivity | exact Hline].
  - destruct (failing_getWebsiteUrlActivity filters w) as (w' & Hrun & Hline).
    unfold run, as_, ReportService.exportWebsiteUrlData.
    rewrite (bind_Return _ _ w [] w').
    + eexists _, _. split; [reflexivity |]. split; [reflexivity | exact Hline].
    + rewrite (bind_Return _ _ _ _ _ Hrun). reflexivity.
  - apply throws_run, failing_inviteTeamMember.
  - apply throws_run, failing_updateTeamMember.
  - apply throws_run, failing_activateTeamMember.
  - apply throws_run, failing_deactivateTeamMember.
Qed.
End Failing.

(** The sample runtime reads back the permissions it writes. *)
Example sample_permissions_round_trip :
  TeamService.jsonParse Examples.json
    (toStr (TeamService.jsonStringify Examples.json TeamService.defaultPermissions))
  = Return TeamService.defaultPermissions.
Proof. vm_compute. reflexivity. Qed.

(** An invitation on the sample store: the name is trimmed, the email is
    put in lower case, the role and the permissions get their defaults. *)
Example sample_invitation :
  fst (TeamService.inviteTeamMember Store.client utcRuntime Examples.json
         [("name", JStr " Dana "); ("email", JStr "Dana@Apex.io")] Examples.world)
  = Return [ ("Id", JNum 1000); ("name", JStr "Dana"); ("email", JStr "dana@apex.io");
             ("role", JStr "viewer"); ("permissions", TeamService.defaultPermissions);
             ("status", JStr "pending");
             ("createdAt", JStr "2024-01-02T05:00:00.000Z");
             ("updatedAt", JStr "2024-01-02T05:00:00.000Z");
             ("lastLogin", JNull) ].
Proof. vm_compute. reflexivity. Qed.

(** The ARR column of the export: 0.15 and 0.25 are both printed by the
    double that stands for them, 0.25 is a tie. *)
Example sample_millions :
  map millions [JNum 150000; JNum 250000; JNum 1250000; JNum 5000000; JStr "n/a"]
  = ["0.1"; "0.3"; "1.3"; "5.0"; "NaN"].
Proof. vm_compute. reflexivity. Qed.

Lemma offline_failing : failing Store.offline.
Proof. repeat split; intros; eexists _, _; split; reflexivity. Qed.




(** ** Reads that never throw *)

Import Effects Behaviour.

Section NeverThrows.
Context {S : Type}.

Lemma neverThrows_tryCatch {A} (body : M S A) handler :
  (forall e, neverThrows (handler e)) -> neverThrows (tryCatch body handler).
Proof.
  intros Hh w. unfold tryCatch. destruct (body w) as [[a|e] w1]; [eauto | apply Hh].
Qed.

(** The handler of a list read or of a report. *)
Lemma neverThrows_log_ret {A} label v (dflt : A) :
  neverThrows (S:=S) (bind (consoleError label v) (fun _ => ret dflt)).
Proof. intros w. eexists _, _. reflexivity. Qed.

Lemma neverThrows_as {A} (f : A -> Result) (m : M S A) :
  neverThrows m -> neverThrows (as_ f m).
Proof.
  intros Hm w. destruct (Hm w) as (a & w' & Hrun).
  unfold as_. rewrite (bind_Return _ _ _ _ _ Hrun). eexists _, _. reflexivity.
Qed.

Lemma neverThrows_after_delay {A} delay (m : M S A) :
  neverThrows m -> neverThrows (bind (simulateAPICall delay) (fun _ => m)).
Proof. intros Hm w. apply Hm. Qed.
End NeverThrows.

Ltac guarded_read :=
  apply neverThrows_as; apply neverThrows_after_delay; apply neverThrows_tryCatch;
  intros e; first [apply neverThrows_log_ret | intros w; eexists _, _; reflexivity].


(** ** The URL column of the activity report *)

Section ActivityUrls.
Context {S : Type} (client : Client S) (rt : DateRuntime).

(** [cleanWebsiteUrl(x || '')] returns a string whenever it returns. *)
Lemma cleanWebsiteUrl_string x (w : World S) v w' :
  ReportService.cleanWebsiteUrl (jsOr x (JStr "")) w = (Return v, w') ->
  w' = w /\ exists s, v = JStr s.
Proof.
  unfold ReportService.cleanWebsiteUrl, jsOr.
  destruct (truthy x) eqn:E.
  - rewrite E. destruct x; cbn; intros H; inversion H; eauto.
  - cbn. intros H. inversion H. eauto.
Qed.

Lemma activityLead_string nowIso lead (w : World S) r w' :
  ReportService.activityLead nowIso lead w = (Return r, w') ->
  w' = w /\ exists s, prop r "websiteUrl" = JStr s.
Proof.
  unfold ReportService.activityLead. intros H.
  apply bind_Return_inv in H as (url & w1 & Hurl & H).
  apply cleanWebsiteUrl_string in Hurl as (-> & s & ->).
  inversion H; subst. split; [reflexivity |]. exists s. reflexivity.
Qed.

Lemma mapM_Forall {A B} (f : A -> M S B) (P : B -> Prop) l (w : World S) ys w' :
  (forall x w0 y w1, f x w0 = (Return y, w1) -> w1 = w0 /\ P y) ->
  mapM f l w = (Return ys, w') -> w' = w /\ Forall P ys /\ length ys = length l.
Proof.
  intros Hf. revert w ys w'. induction l as [|x l IH]; intros w ys w' H; cbn in H.
  - inversion H. auto.
  - apply bind_Return_inv in H as (y & w1 & Hy & H).
    apply bind_Return_inv in H as (ys' & w2 & Hys & H).
    inversion H; subst. apply Hf in Hy as (-> & Py).
    apply IH in Hys as (-> & Hall & Hlen). cbn. auto.
Qed.

(** Every lead of the activity report has a string for its URL. *)
Lemma activity_urls filters (w : World S) a w' :
  ReportService.getWebsiteUrlActivity client rt filters w = (Return a, w') ->
  Forall (fun lead => exists s, prop lead "websiteUrl" = JStr s)
    (ReportService.activityData a).
Proof.
  unfold ReportService.getWebsiteUrlActivity. intros H.
  apply bind_Return_inv in H as (u & w0 & _ & H).
  unfold tryCatch in H.
  match type of H with
  | (match ?body ?w with _ => _ end) = _ => destruct (body w) as [[a0|e] w1] eqn:E
  end.
  - inversion H; subst. clear H.
    apply bind_Return_inv in E as (byRange & w2 & _ & E).
    apply bind_Return_inv in E as (byDay & w3 & _ & E).
    apply bind_Return_inv in E as (bySearch & w4 & _ & E).
    apply bind_Return_inv in E as (response & w5 & _ & E).
    destruct (negb (success response)).
    + apply bind_Return_inv in E as (? & w6 & _ & E). inversion E. constructor.
    + apply bind_Return_inv in E as (now & w6 & _ & E).
      apply bind_Return_inv in E as (leads & w7 & Hleads & E).
      inversion E; subst. cbn.
      eapply (mapM_Forall _ (fun lead => exists s, prop lead "websiteUrl" = JStr s))
        in Hleads as (_ & Hall & _); [exact Hall |].
      intros x w8 y w9 Hy. apply activityLead_string in Hy. exact Hy.
  - apply bind_Return_inv in H as (? & w2 & _ & H). inversion H. constructor.
Qed.

Lemma exportRow_returns lead (w : World S) :
  (exists s, prop lead "websiteUrl" = JStr s) ->
  exists row, ReportService.exportRow rt lead w = (Return row, w).
Proof.
  intros (s & Hs). unfold ReportService.exportRow, ReportService.cleanWebsiteUrl.
  rewrite Hs. destruct (negb (truthy (JStr s))); cbn; eauto.
Qed.

Lemma mapM_returns {A B} (f : A -> M S B) (P : A -> Prop) l (w : World S) :
  (forall x w0, P x -> exists y, f x w0 = (Return y, w0)) ->
  Forall P l ->
  exists ys, mapM f l w = (Return ys, w) /\ length ys = length l.
Proof.
  intros Hf Hall. induction Hall as [|x l Px _ IH]; cbn.
  - eexists. split; reflexivity.
  - destruct (Hf x w Px) as (y & Hy). destruct IH as (ys & Hys & Hlen).
    rewrite (bind_Return _ _ _ _ _ Hy). rewrite (bind_Return _ _ _ _ _ Hys).
    eexists. split; [reflexivity |]. cbn. congruence.
Qed.
End ActivityUrls.


(** ** Runs that are silent when they return, and the calls they make *)

Section Silent.
Context {S : Type}.

Lemma silentReturn_ret {A} (a : A) : silentReturn (ret (S:=S) a).
Proof. intros w a' w' H. inversion H. reflexivity. Qed.

Lemma silentReturn_throw {A} e : silentReturn (throw (S:=S) (A:=A) e).
Proof. intros w a w' H. discriminate. Qed.

Lemma silentReturn_bind {A B} (m : M S A) (k : A -> M S B) :
  silentReturn m -> (forall a, silentReturn (k a)) -> silentReturn (bind m k).
Proof.
  intros Hm Hk w b w' H. apply bind_Return_inv in H as (a & w1 & Ha & H).
  apply Hm in Ha. apply Hk in H. congruence.
Qed.

(** A failure branch: the line is written and the error is thrown. *)
Lemma silentReturn_log_throw {A} label v e :
  silentReturn (S:=S) (A:=A) (bind (consoleError label v) (fun _ => throw e)).
Proof. intros w a w' H. discriminate. Qed.

Lemma silentReturn_perform {A} c (f : S -> Outcome A * S) : silentReturn (perform c f).
Proof.
  intros w a w' H. unfold perform in H. destruct (f (backend w)) as [o s'].
  inversion H. reflexivity.
Qed.

Lemma silentReturn_newDateNow : silentReturn (newDateNow (S:=S)).
Proof. intros w a w' H. inversion H. reflexivity. Qed.

Lemma silentReturn_quiet {A} (m : M S A) : quiet m -> silentReturn m.
Proof. intros Hq w a w' H. exact (Hq _ _ _ H). Qed.

Lemma silentReturn_required {A} what (o : option A) : silentReturn (required (S:=S) what o).
Proof. destruct o; [apply silentReturn_ret | apply silentReturn_throw]. Qed.

Lemma silentReturn_mapM {A B} (f : A -> M S B) l :
  (forall x, silentReturn (f x)) -> silentReturn (mapM f l).
Proof.
  intros Hf. induction l as [|x l IH]; cbn.
  - apply silentReturn_ret.
  - apply silentReturn_bind; [apply Hf |]. intros y.
    apply silentReturn_bind; [exact IH |]. intros ys. apply silentReturn_ret.
Qed.

(** The handler of a mutation never returns. *)
Lemma silentReturn_rethrow {A} (body : M S A) (handler : JsError -> M S A) :
  silentReturn body -> (forall e, throws (handler e)) ->
  silentReturn (tryCatch body handler).
Proof.
  intros Hb Hh w a w' H. unfold tryCatch in H.
  destruct (body w) as [[a0|e] w1] eqn:E.
  - inversion H; subst. exact (Hb _ _ _ E).
  - destruct (Hh e w1) as (e' & w2 & Hrun). congruence.
Qed.

Lemma throws_log_throw {A} label v e :
  throws (S:=S) (A:=A) (bind (consoleError label v) (fun _ => throw e)).
Proof. intros w. eexists _, _. reflexivity. Qed.

(** What the handler of a mutation leaves on the console. *)
Lemma rethrow_lastLine {A} (body : M S A) label (w : World S) e w' :
  tryCatch body
    (fun error => bind (consoleError label (JStr (errMessage error)))
                    (fun _ => throw error)) w = (Throw e, w') ->
  lastLine w' = Some (label, JStr (errMessage e)).
Proof.
  unfold tryCatch. destruct (body w) as [[a|e0] w1]; [discriminate |].
  cbn. intros H. inversion H; subst. unfold lastLine. cbn. apply last_snoc.
Qed.
End Silent.

Section Calls.
Context {S : Type}.

Lemma onlyCalls_ret {A} P (a : A) : onlyCalls P (ret (S:=S) a).
Proof.
  intros w o w' H. inversion H; subst. exists []. rewrite app_nil_r. auto.
Qed.

Lemma onlyCalls_throw {A} P e : onlyCalls P (throw (S:=S) (A:=A) e).
Proof.
  intros w o w' H. inversion H; subst. exists []. rewrite app_nil_r. auto.
Qed.

Lemma onlyCalls_consoleError P label v : onlyCalls P (consoleError (S:=S) label v).
Proof.
  intros w o w' H. inversion H; subst. exists []. cbn. rewrite app_nil_r. auto.
Qed.

Lemma onlyCalls_newDateNow P : onlyCalls P (newDateNow (S:=S)).
Proof.
  intros w o w' H. inversion H; subst. exists []. rewrite app_nil_r. auto.
Qed.

Lemma onlyCalls_bind {A B} P (m : M S A) (k : A -> M S B) :
  onlyCalls P m -> (forall a, onlyCalls P (k a)) -> onlyCalls P (bind m k).
Proof.
  intros Hm Hk w o w' H. unfold bind in H.
  destruct (m w) as [[a|e] w1] eqn:E; apply Hm in E as (c1 & H1 & P1).
  - apply Hk in H as (c2 & H2 & P2). exists (c1 ++ c2).
    rewrite H2, H1, app_assoc. split; [reflexivity |].
    rewrite forallb_app, P1, P2. reflexivity.
  - inversion H; subst. eauto.
Qed.

Lemma onlyCalls_tryCatch {A} P (body : M S A) handler :
  onlyCalls P body -> (forall e, onlyCalls P (handler e)) ->
  onlyCalls P (tryCatch body handler).
Proof.
  intros Hb Hh w o w' H. unfold tryCatch in H.
  destruct (body w) as [[a|e] w1] eqn:E; apply Hb in E as (c1 & H1 & P1).
  - inversion H; subst. eauto.
  - apply Hh in H as (c2 & H2 & P2). exists (c1 ++ c2).
    rewrite H2, H1, app_assoc. split; [reflexivity |].
    rewrite forallb_app, P1, P2. reflexivity.
Qed.

Lemma onlyCalls_perform {A} (P : Call -> bool) c (f : S -> Outcome A * S) :
  P c = true -> onlyCalls P (perform c f).
Proof.
  intros Pc w o w' H. unfold perform in H. destruct (f (backend w)) as [o' s'].
  inversion H; subst. exists [c]. cbn. rewrite Pc. auto.
Qed.

Lemma onlyCalls_required {A} P what (o : option A) : onlyCalls P (required (S:=S) what o).
Proof. destruct o; [apply onlyCalls_ret | apply onlyCalls_throw]. Qed.

Lemma onlyCalls_isoOf P rt d : onlyCalls P (isoOf (S:=S) rt d).
Proof.
  destruct d as [t|]; [| apply onlyCalls_throw].
  unfold isoOf. destruct (timeClip t); [apply onlyCalls_ret | apply onlyCalls_throw].
Qed.

Lemma onlyCalls_stringMethod P m f v : onlyCalls P (stringMethod (S:=S) m f v).
Proof. destruct v; first [apply onlyCalls_ret | apply onlyCalls_throw]. Qed.

Lemma onlyCalls_mapM {A B} P (f : A -> M S B) l :
  (forall x, onlyCalls P (f x)) -> onlyCalls P (mapM f l).
Proof.
  intros Hf. induction l as [|x l IH]; cbn.
  - apply onlyCalls_ret.
  - apply onlyCalls_bind; [apply Hf |]. intros y.
    apply onlyCalls_bind; [exact IH |]. intros ys. apply onlyCalls_ret.
Qed.

Lemma onlyCalls_forOf {A B} P (body : B -> A -> M S B) l acc :
  (forall acc x, onlyCalls P (body acc x)) -> onlyCalls P (forOf l acc body).
Proof.
  intros Hb. revert acc. induction l as [|x l IH]; intros acc; cbn.
  - apply onlyCalls_ret.
  - apply onlyCalls_bind; [apply Hb | intros acc'; apply IH].
Qed.

Lemma onlyCalls_callsSince {A} P (m : M S A) w o w' :
  onlyCalls P m -> m w = (o, w') -> forallb P (callsSince w w') = true.
Proof.
  intros Hm H. apply Hm in H as (calls & Hh & HP).
  rewrite (callsSince_app _ _ _ Hh). exact HP.
Qed.
End Calls.

Section ChartCalls.
Context {S : Type} (rt : DateRuntime).

Lemma onlyCalls_dayLeadsOf P dateStr leads :
  onlyCalls P (AnalyticsService.dayLeadsOf (S:=S) dateStr leads).
Proof.
  induction leads as [|lead leads IH]; cbn.
  - apply onlyCalls_ret.
  - apply onlyCalls_bind.
    + unfold AnalyticsService.leadDateOf.
      destruct (truthy _); [| apply onlyCalls_ret].
      apply onlyCalls_bind; [apply onlyCalls_stringMethod | intros d; apply onlyCalls_ret].
    + intros d. apply onlyCalls_bind; [exact IH | intros kept; apply onlyCalls_ret].
Qed.

Lemma onlyCalls_chartLoop P now leads n chartData :
  onlyCalls P (AnalyticsService.chartLoop (S:=S) rt now leads n chartData).
Proof.
  revert chartData. induction n as [|i IH]; intros chartData; cbn.
  - apply onlyCalls_ret.
  - destruct (timeClip _); [| apply onlyCalls_throw].
    apply onlyCalls_bind; [apply onlyCalls_dayLeadsOf | intros dayLeads; apply IH].
Qed.
End ChartCalls.

Ltac head_of t :=
  match t with
  | ?f _ => head_of f
  | _ => t
  end.

(** Takes a computation apart along its binds, branches and calls. *)
Ltac calls_step :=
  match goal with
  | |- onlyCalls _ (ret _) => apply onlyCalls_ret
  | |- onlyCalls _ (throw _) => apply onlyCalls_throw
  | |- onlyCalls _ (consoleError _ _) => apply onlyCalls_consoleError
  | |- onlyCalls _ newDateNow => apply onlyCalls_newDateNow
  | |- onlyCalls _ (simulateAPICall _) => apply onlyCalls_ret
  | |- onlyCalls _ (required _ _) => apply onlyCalls_required
  | |- onlyCalls _ (isoOf _ _) => apply onlyCalls_isoOf
  | |- onlyCalls _ (stringMethod _ _ _) => apply onlyCalls_stringMethod
  | |- onlyCalls _ (AnalyticsService.chartLoop _ _ _ _ _) => apply onlyCalls_chartLoop
  | |- onlyCalls _ (perform _ _) => apply onlyCalls_perform; reflexivity
  | |- onlyCalls _ (mapM _ _) => apply onlyCalls_mapM; intros ?
  | |- onlyCalls _ (forOf _ _ _) => apply onlyCalls_forOf; intros ? ?
  | |- onlyCalls _ (tryCatch _ _) => apply onlyCalls_tryCatch; [| intros ?]
  | |- onlyCalls _ (bind _ _) => apply onlyCalls_bind; [| intros ?]
  | |- onlyCalls _ (if ?b then ?x else ?y) =>
      let b' := eval cbn in b in
      match b' with
      | true => change (if b then x else y) with x
      | false => change (if b then x else y) with y
      end
  | |- onlyCalls _ (if ?b then _ else _) => destruct b
  | |- onlyCalls _ (match ?x with _ => _ end) => destruct x
  | |- onlyCalls _ ?m => let h := head_of m in progress unfold h
  end.

Ltac calls := repeat calls_step.

Ltac silent_step :=
  match goal with
  | |- silentReturn (ret _) => apply silentReturn_ret
  | |- silentReturn (throw _) => apply silentReturn_throw
  | |- silentReturn (bind (consoleError _ _) (fun _ => throw _)) =>
      apply silentReturn_log_throw
  | |- silentReturn newDateNow => apply silentReturn_newDateNow
  | |- silentReturn (simulateAPICall _) => apply silentReturn_ret
  | |- silentReturn (required _ _) => apply silentReturn_required
  | |- silentReturn (stringMethod _ _ _) => apply silentReturn_quiet, quiet_stringMethod
  | |- silentReturn (perform _ _) => apply silentReturn_perform
  | |- silentReturn (mapM _ _) => apply silentReturn_mapM; intros ?
  | |- silentReturn (tryCatch _ _) =>
      apply silentReturn_rethrow; [| intros ?; apply throws_log_throw]
  | |- silentReturn (bind _ _) => apply silentReturn_bind; [| intros ?]
  | |- silentReturn (if ?b then _ else _) => destruct b
  | |- silentReturn (match ?x with _ => _ end) => destruct x
  | |- silentReturn ?m => let h := head_of m in progress unfold h
  end.

Ltac silent := repeat silent_step.


(** ** What every operation does and never does *)

Lemma as_Throw_inv {S A} (f : A -> Result) (m : M S A) (w : World S) e w' :
  as_ f m w = (Throw e, w') -> m w = (Throw e, w').
Proof.
  unfold as_, bind, ret. destruct (m w) as [[a|e0] w1]; intros H; [discriminate | inversion H; reflexivity].
Qed.

Lemma as_Return_inv {S A} (f : A -> Result) (m : M S A) (w : World S) r w' :
  as_ f m w = (Return r, w') -> exists a, m w = (Return a, w') /\ r = f a.
Proof.
  unfold as_, bind, ret. destruct (m w) as [[a|e0] w1]; intros H; [| discriminate].
  inversion H. eauto.
Qed.

(** What the handler of a get-by-id read leaves behind. *)
Lemma notFound_lastLine {S A} (body : M S A) label m (w : World S) e w' :
  tryCatch body
    (fun error => bind (consoleError label (JStr (errMessage error)))
                    (fun _ => throw (Error m))) w = (Throw e, w') ->
  e = Error m /\ exists cause, lastLine w' = Some (label, JStr cause).
Proof.
  unfold tryCatch. destruct (body w) as [[a|e0] w1]; [discriminate |].
  cbn. intros H. inversion H; subst. split; [reflexivity |].
  eexists. unfold lastLine. cbn. apply last_snoc.
Qed.



(** X2.  A get-by-id read hides the cause of its failure: whatever the
    client does, it either returns a record without writing to the console,
    or it throws the one error "... not found" of its entity, after a line
    with the message of the cause. *)
Theorem get_by_id_throws_only_not_found {S} (client : Client S) (rt : DateRuntime)
    (js : TeamService.JsonRuntime) (op : Operation) (w : World S) o w' m label :
  notFound op = Some (m, label) ->
  run client rt js op w = (o, w') ->
  (exists r, o = Return (OneRecord r) /\ console w' = console w)
  \/ (o = Throw (Error m) /\ exists cause, lastLine w' = Some (label, JStr cause)).
Proof.
  intros Hnf Hrun.
  assert (Hs : silentReturn (run client rt js op))
    by (destruct op; try discriminate; unfold run; silent).
  destruct o as [r|e].
  - left. pose proof (Hs _ _ _ Hrun) as Hc.
    destruct op; try discriminate; cbn in Hrun;
      apply as_Return_inv in Hrun as (a & _ & ->); eauto.
  - right. destruct op; try discriminate; inversion Hnf; subst; cbn in Hrun;
      apply as_Throw_inv in Hrun; apply notFound_lastLine in Hrun as (-> & Hline);
      (split; [reflexivity | exact Hline]).
Qed.

(** With a store that cannot be reached, [getDealById] throws "Deal not
    found" and logs the cause. *)
Lemma get_by_id_throws_only_not_found_witness :
  exists w',
    run unreachable utcRuntime Examples.json (GetDealById (JNum 7))
      (initialWorld tt Examples.now) = (Throw (Error "Deal not found"), w')
    /\ lastLine w' = Some ("Error fetching deal by ID:", JStr "Failed to fetch").
Proof.
  eexists. split; [reflexivity |].
  destruct (get_by_id_throws_only_not_found unreachable utcRuntime Examples.json
              (GetDealById (JNum 7)) (initialWorld tt Examples.now) _ _ _ _
              eq_refl eq_refl) as [(r & Hr & _) | (_ & cause & Hline)].
  - discriminate.
  - reflexivity.
Defined.

(** X3.  A mutation reports every failure and nothing else: whatever the
    client does, when it returns it has written nothing to the console, and
    when it throws, the last line of the console carries the message of the
    very error it throws. *)
Theorem mutations_log_what_they_throw {S} (client : Client S) (rt : DateRuntime)
    (js : TeamService.JsonRuntime) (op : Operation) (w : World S) o w' :
  kind op = Mutation ->
  run client rt js op w = (o, w') ->
  match o with
  | Return _ => console w' = console w
  | Throw e => exists label, lastLine w' = Some (label, JStr (errMessage e))
  end.
Proof.
  intros Hk Hrun. destruct o as [r|e].
  - assert (Hs : silentReturn (run client rt js op))
      by (destruct op; try discriminate; unfold run; silent).
    exact (Hs _ _ _ Hrun).
  - destruct op; try discriminate; cbn in Hrun;
      apply as_Throw_inv in Hrun; apply rethrow_lastLine in Hrun; eauto.
Qed.

(** With a store that cannot be reached, [deleteContact] throws the error
    of the client and logs its message. *)
Lemma mutations_log_what_they_throw_witness :
  exists w' label,
    run unreachable utcRuntime Examples.json (DeleteContact (JNum 7))
      (initialWorld tt Examples.now) = (Throw (TypeError "Failed to fetch"), w')
    /\ lastLine w' = Some (label, JStr "Failed to fetch").
Proof.
  eexists.
  pose proof (mutations_log_what_they_throw unreachable utcRuntime Examples.json
                (DeleteContact (JNum 7)) (initialWorld tt Examples.now) _ _
                eq_refl eq_refl) as (label & Hline).
  exists label. split; [reflexivity | exact Hline].
Defined.

(** X4.  No operation makes a call that is not its own: whatever the client
    answers, a read calls only [fetchRecords] and [getRecordById], and a
    mutation makes only its own kind of write ([createRecord],
    [updateRecord] or [deleteRecord]) on its own entity, with a lookup of
    that entity only for [createLead], [inviteTeamMember] and
    [updateTeamMember]. *)
Theorem operations_make_only_their_calls {S} (client : Client S) (rt : DateRuntime)
    (js : TeamService.JsonRuntime) (op : Operation) (w : World S) :
  forallb (permitted op) (callsSince w (snd (run client rt js op w))) = true.
Proof.
  destruct (run client rt js op w) as [o w'] eqn:Hrun. revert Hrun.
  apply onlyCalls_callsSince. destruct op; unfold run; calls.
Qed.

(** ** Deleting and updating *)

(** X5.  A delete operation makes one [deleteRecord] call for its id and
    nothing else, and it succeeds exactly when the response has [success]
    set and its first result, if it has one, has [success] set: a response
    without results counts as a success; every other response makes it
    throw. *)
Theorem delete_succeeds_iff_accepted {S} (client : Client S) (rt : DateRuntime)
    (js : TeamService.JsonRuntime) (op : Operation) (w : World S) entity id r s' :
  deletion op = Some (entity, id) ->
  deleteRecord client entity [id] (backend w) = (Return r, s') ->
  exists o w',
    run client rt js op w = (o, w')
    /\ callsSince w w' = [CDelete entity [id]]
    /\ backend w' = s'
    /\ (accepted r = true -> o = Return Done)
    /\ (accepted r = false -> exists e, o = Throw e).
Proof.
  intros Hop Hcall.
  destruct op; try discriminate; inversion Hop; subst; clear Hop;
    unfold run, LeadsService.deleteLead, SalesRepService.deleteSalesRep,
      DealsService.deleteDeal, ContactsService.deleteContact, TeamService.removeTeamMember;
    unfold_js; cbn; rewrite Hcall; unfold accepted;
    (destruct (success r); cbn;
     [ destruct (results r) as [[|result l]|]; cbn;
       [ | destruct (r_success result); cbn | ] | ]);
    (eexists _, _; split; [reflexivity |]; cbn;
     split; [unfold callsSince; cbn; rewrite drop_app_length; reflexivity |];
     split; [reflexivity |];
     split; [intros H; first [reflexivity | discriminate H]
            | intros H; first [discriminate H | eauto]]).
Qed.

(** The reference store, holding the lead 11: [deleteLead] succeeds. *)
Lemma delete_succeeds_iff_accepted_witness :
  exists w',
    run Store.client utcRuntime Examples.json (DeleteLead (JNum 11)) Examples.world
      = (Return Done, w')
    /\ callsSince Examples.world w' = [CDelete "lead_c" [JNum 11]].
Proof.
  destruct (delete_succeeds_iff_accepted Store.client utcRuntime Examples.json
              (DeleteLead (JNum 11)) Examples.world "lead_c" (JNum 11) _ _
              eq_refl eq_refl) as (o & w' & Hrun & Hcalls & _ & Hok & _).
  exists w'. rewrite Hrun, (Hok eq_refl). split; [reflexivity | exact Hcalls].
Defined.

Section Sent.
Variable updates : Rec.

Lemma prop_app (r1 r2 : Rec) k :
  prop (r1 ++ r2) k = if hasKey r1 k then prop r1 k else prop r2 k.
Proof.
  induction r1 as [|[k' v] r1 IH]; [reflexivity |].
  cbn. destruct (String.eqb k' k); [reflexivity | exact IH].
Qed.

Lemma hasKey_app (r1 r2 : Rec) k : hasKey (r1 ++ r2) k = hasKey r1 k || hasKey r2 k.
Proof. unfold hasKey. apply existsb_app. Qed.

Lemma hasKey_whenDefined k c c' :
  hasKey (whenDefined updates k c) c' = true ->
  c = c' /\ prop updates k <> JUndef.
Proof.
  unfold whenDefined.
  destruct (prop updates k) eqn:E; cbn; try discriminate;
    rewrite orb_false_r; intros H; apply String.eqb_eq in H; (split; [exact H | discriminate]).
Qed.

Lemma prop_whenDefined k c : prop (whenDefined updates k c) c = prop updates k.
Proof.
  unfold whenDefined. destruct (prop updates k) eqn:E; cbn;
    rewrite ?String.eqb_refl; reflexivity.
Qed.

(** A field is written only for an update that is not [undefined]. *)
Lemma sent_keys columns c :
  hasKey (sent updates columns) c = true ->
  exists k, In (k, c) columns /\ prop updates k <> JUndef.
Proof.
  induction columns as [|[k0 c0] columns IH]; [discriminate |].
  unfold sent. cbn [flat_map fst snd]. fold (sent updates columns).
  rewrite hasKey_app. intros H. apply orb_true_iff in H as [H|H].
  - apply hasKey_whenDefined in H as (<- & Hd). exists k0. split; [left; reflexivity | exact Hd].
  - destruct (IH H) as (k & Hin & Hd). exists k. split; [right; exact Hin | exact Hd].
Qed.

(** The field of an update holds the value given, [undefined] included. *)
Lemma sent_values columns k c :
  List.NoDup (map snd columns) -> In (k, c) columns ->
  prop (sent updates columns) c = prop updates k.
Proof.
  induction columns as [|[k0 c0] columns IH]; [cbn; tauto |].
  unfold sent. cbn [flat_map fst snd map]. fold (sent updates columns).
  intros Hnd [Heq|Hin]; rewrite prop_app; inversion Hnd as [|? ? Hnotin Hnd']; subst.
  - inversion Heq; subst. destruct (hasKey (whenDefined updates k c) c) eqn:E.
    + apply prop_whenDefined.
    + destruct (prop updates k) eqn:Ek;
        try (unfold whenDefined, hasKey in E; rewrite Ek in E; cbn in E;
             rewrite String.eqb_refl in E; discriminate).
      destruct (hasKey (sent updates columns) c) eqn:E2.
      * apply sent_keys in E2 as (k' & Hin & _). exfalso. apply Hnotin.
        apply List.in_map_iff. exists (k', c). auto.
      * clear -E2. induction (sent updates columns) as [|[k' v] r IHr]; [reflexivity |].
        cbn in *. apply orb_false_iff in E2 as [E1 E2]. rewrite E1. auto.
  - destruct (hasKey (whenDefined updates k0 c0) c) eqn:E.
    + apply hasKey_whenDefined in E as (-> & _). exfalso. apply Hnotin.
      apply List.in_map_iff. exists (k, c). auto.
    + apply IH; assumption.
Qed.
End Sent.

(** X6.  An update of a lead, a sales rep, a deal or a contact writes the
    fields given and no other: it makes one [updateRecord] call with one
    record, whose [Id] is the id, in which the field of every update holds
    the value given ([null] included), and which has no key besides [Id]
    other than the field of an update that is not [undefined]. *)
Theorem update_sends_only_given_fields {S} (client : Client S) (rt : DateRuntime)
    (js : TeamService.JsonRuntime) (op : Operation) (w : World S)
    entity id updates columns :
  partialUpdate op = Some (entity, id, updates, columns) ->
  exists record,
    callsSince w (snd (run client rt js op w)) = [CUpdate entity [record]]
    /\ prop record "Id" = id
    /\ (forall k c, In (k, c) columns -> prop record c = prop updates k)
    /\ (forall c, hasKey record c = true ->
          c = "Id" \/ exists k, In (k, c) columns /\ prop updates k <> JUndef).
Proof.
  intros Hop. exists (("Id", id) :: sent updates columns).
  assert (Hnd : List.NoDup (map snd columns) /\ ~ In "Id" (map snd columns)).
  { destruct op; try discriminate; inversion Hop; subst; cbn;
      (split; [repeat (constructor; [cbn; intuition discriminate |]); constructor
              | intuition discriminate]). }
  destruct Hnd as [Hnd Hid].
  split; [| split; [reflexivity | split]].
  - destruct op; try discriminate; inversion Hop; subst; clear Hop;
      unfold sent, leadColumns, salesRepColumns, dealColumns, contactColumns;
      cbn [flat_map fst snd]; rewrite app_nil_r;
      unfold run, LeadsService.updateLead, SalesRepService.updateSalesRep,
        DealsService.updateDeal, ContactsService.updateContact;
      unfold_js; cbn;
      (match goal with
       | |- context [updateRecord client ?e ?rs ?s] =>
           destruct (updateRecord client e rs s) as [[r|e0] s1]
       end; cbn;
       [ destruct (success r); cbn;
         [ destruct (results r) as [[|result l]|]; cbn;
           [ | destruct (r_success result); cbn; [destruct (r_data result); cbn |] | ] | ]
       | ];
       unfold callsSince; cbn; rewrite drop_app_length; reflexivity).
  - intros k c Hin. cbn [prop].
    destruct (String.eqb "Id" c) eqn:E.
    + apply String.eqb_eq in E. subst c. exfalso. apply Hid.
      apply List.in_map_iff. exists (k, "Id"). auto.
    + apply sent_values; assumption.
  - intros c Hc. cbn in Hc. apply orb_true_iff in Hc as [Hc|Hc].
    + left. symmetry. apply String.eqb_eq. exact Hc.
    + right. apply sent_keys. exact Hc.
Qed.

(** An update of the stage and of the value of a deal: the name is not
    written. *)
Lemma update_sends_only_given_fields_witness :
  exists record,
    callsSince Examples.world
      (snd (run Store.client utcRuntime Examples.json
              (UpdateDeal (JNum 5) [("stage", JStr "Won"); ("value", JNull)])
              Examples.world))
    = [CUpdate "deal_c" [record]]
    /\ prop record "Id" = JNum 5
    /\ prop record "stage_c" = JStr "Won"
    /\ prop record "value_c" = JNull
    /\ hasKey record "Name" = false.
Proof.
  destruct (update_sends_only_given_fields Store.client utcRuntime Examples.json
              (UpdateDeal (JNum 5) [("stage", JStr "Won"); ("value", JNull)])
              Examples.world "deal_c" (JNum 5)
              [("stage", JStr "Won"); ("value", JNull)] dealColumns eq_refl)
    as (record & Hcalls & Hid & Hvals & Hkeys).
  exists record. split; [exact Hcalls |]. split; [exact Hid |].
  split; [| split].
  - apply (Hvals "stage" "stage_c"). unfold dealColumns. cbn. tauto.
  - apply (Hvals "value" "value_c"). unfold dealColumns. cbn. tauto.
  - destruct (hasKey record "Name") eqn:E; [| reflexivity].
    exfalso. destruct (Hkeys "Name" E) as [H | (k & Hin & Hk)]; [discriminate |].
    unfold dealColumns in Hin. cbn in Hin.
    repeat (destruct Hin as [Hin | Hin];
            [inversion Hin; subst; apply Hk; reflexivity || discriminate |]).
    contradiction.
Defined.

(** ** Analytics *)

Lemma prop_dictSet (o : Rec) k v k' :
  prop (dictSet o k v) k' = if String.eqb k k' then v else prop o k'.
Proof.
  induction o as [|[k0 v0] o IH]; cbn.
  - destruct (String.eqb k k'); reflexivity.
  - destruct (String.eqb k0 k) eqn:E0; cbn.
    + apply String.eqb_eq in E0. subst k0. destruct (String.eqb k k'); reflexivity.
    + destruct (String.eqb k0 k') eqn:E1.
      * apply String.eqb_eq in E1. subst k0.
        rewrite String.eqb_sym, E0. reflexivity.
      * exact IH.
Qed.

(** The lead of [getLeadsAnalytics]: the fetched record with its fields
    copied as they are under the internal names. *)
Lemma analyticsLead_fields lead :
  (forall k c, In (k, c) analyticsColumns ->
     prop (AnalyticsService.analyticsLead lead) k = prop lead c)
  /\ (forall k, ~ In k analyticsNames ->
        prop (AnalyticsService.analyticsLead lead) k = prop lead k).
Proof.
  split.
  - intros k c Hin. unfold AnalyticsService.analyticsLead, AnalyticsService.spreadWith.
    cbn [fold_left fst snd]. rewrite !prop_dictSet.
    cbn in Hin. repeat (destruct Hin as [Hin|Hin]; [inversion Hin; subst; reflexivity |]).
    contradiction.
  - intros k Hk. unfold AnalyticsService.analyticsLead, AnalyticsService.spreadWith.
    cbn [fold_left fst snd]. rewrite !prop_dictSet.
    repeat match goal with
           | |- context [String.eqb ?n k] =>
               let E := fresh "E" in
               destruct (String.eqb n k) eqn:E;
               [ apply String.eqb_eq in E; subst k; exfalso; apply Hk; cbn; tauto |]
           end.
    reflexivity.
Qed.

(** X7.  [getLeadsAnalytics] always returns, with [totalCount] the number
    of its leads.  Its result is empty, or it comes from a successful fetch
    of leads: one lead per fetched record, in order, each with the fields of
    the record copied as they are under the internal names (a missing field
    stays [undefined]: no default is put in its place) and with every other
    property of the record kept. *)
Theorem analytics_copies_records_without_defaults {S} (client : Client S)
    (rt : DateRuntime) (period userId : JsVal) (w : World S) :
  exists r w',
    AnalyticsService.getLeadsAnalytics client rt period userId w = (Return r, w')
    /\ AnalyticsService.totalCount r = length (AnalyticsService.leads r)
    /\ (r = {| AnalyticsService.leads := []; AnalyticsService.totalCount := 0 |}
        \/ exists p response s1,
             fetchRecords client "lead_c" p (backend w) = (Return response, s1)
             /\ success response = true
             /\ Forall2
                  (fun lead out =>
                     (forall k c, In (k, c) analyticsColumns -> prop out k = prop lead c)
                     /\ (forall k, ~ In k analyticsNames -> prop out k = prop lead k))
                  (default [] (data response)) (AnalyticsService.leads r)).
Proof.
  unfold AnalyticsService.getLeadsAnalytics.
  rewrite (bind_Return _ _ w tt w) by reflexivity.
  apply tryCatch_returns.
  - intros r w' H.
    apply bind_Return_inv in H as (now & w1 & Hnow & H). inversion Hnow; subst.
    apply bind_Return_inv in H as (response & w2 & Hfetch & H).
    unfold callFetch, perform in Hfetch.
    destruct (fetchRecords client _ _ _) as [o s1] eqn:Hcall.
    inversion Hfetch; subst. clear Hfetch.
    destruct (success response) eqn:Hok; cbn in H.
    + apply bind_Return_inv in H as (reps & w3 & _ & H). inversion H; subst.
      cbn [AnalyticsService.leads AnalyticsService.totalCount].
      split; [rewrite length_map; reflexivity |].
      right. eexists _, response, s1. split; [exact Hcall |]. split; [exact Hok |].
      generalize (default [] (data response)) as l. clear.
      induction l as [|lead l IH]; cbn [map]; constructor;
        [apply analyticsLead_fields | exact IH].
    + invert_run H. cbn. auto.
  - intros e w1. eexists _, _. split; [reflexivity |]. cbn. auto.
Qed.



(** ** Period counts and date ranges *)

Lemma filter_length_mono {A} (p q : A -> bool) (l : list A) :
  (forall x, p x = true -> q x = true) ->
  (length (List.filter p l) <= length (List.filter q l))%nat.
Proof.
  intros Hpq. induction l as [|x l IH]; cbn; [lia |].
  destruct (p x) eqn:Ep.
  - rewrite (Hpq x Ep). cbn. lia.
  - destruct (q x); cbn; lia.
Qed.

Lemma dateGe_mono d a b : b <= a -> dateGe d a = true -> dateGe d b = true.
Proof.
  destruct d as [t|]; cbn; [| discriminate].
  intros Hle H. apply Z.leb_le in H. apply Z.leb_le. lia.
Qed.

(** The counts of one entry of [getUserPerformance] nest. *)
Lemma userStat_nested rt now leads rep :
  let s := AnalyticsService.userStat rt now leads rep in
  (AnalyticsService.todayLeads s <= AnalyticsService.weekLeads s)%nat
  /\ (AnalyticsService.weekLeads s <= AnalyticsService.monthLeads s)%nat
  /\ (AnalyticsService.monthLeads s <= AnalyticsService.us_totalLeads s)%nat.
Proof.
  cbn. split; [| split].
  - apply filter_length_mono. intros lead. apply dateGe_mono. lia.
  - apply filter_length_mono. intros lead. apply dateGe_mono. lia.
  - apply List.filter_length_le.
Qed.

(** X9.  The period counts of [getUserPerformance] nest: in every entry of
    every result, the leads of today are among those of the week, those of
    the week among those of the month, and those of the month among all the
    leads of the rep: [todayLeads <= weekLeads <= monthLeads <= totalLeads]. *)
Theorem user_performance_counts_nest {S} (client : Client S) (rt : DateRuntime)
    (w : World S) :
  exists stats w',
    AnalyticsService.getUserPerformance client rt w = (Return stats, w')
    /\ Forall
         (fun s =>
            (AnalyticsService.todayLeads s <= AnalyticsService.weekLeads s)%nat
            /\ (AnalyticsService.weekLeads s <= AnalyticsService.monthLeads s)%nat
            /\ (AnalyticsService.monthLeads s <= AnalyticsService.us_totalLeads s)%nat)
         stats.
Proof.
  unfold AnalyticsService.getUserPerformance.
  rewrite (bind_Return _ _ w tt w) by reflexivity.
  apply tryCatch_returns.
  - intros stats w' H.
    apply bind_Return_inv in H as (response & w1 & _ & H).
    destruct (success response); cbn in H.
    + apply bind_Return_inv in H as (leadsResponse & w2 & _ & H).
      apply bind_Return_inv in H as (now & w3 & _ & H).
      apply bind_Return_inv in H as (userStats & w4 & Hstats & H).
      inversion H; subst. clear H.
      eapply Permutation_Forall; [symmetry; apply jsSort_Permutation |].
      destruct (default [] (data response)) as [|rep reps].
      * inversion Hstats. constructor.
      * apply bind_Return_inv in Hstats as (leads & w5 & _ & Hstats).
        inversion Hstats; subst.
        apply List.Forall_forall. intros s Hin.
        apply (in_map_iff (AnalyticsService.userStat rt now leads) (rep :: reps))
          in Hin as (r & <- & _).
        apply userStat_nested.
    + invert_run H. constructor.
  - intros e w1. eexists _, _. split; [reflexivity | constructor].
Qed.

(** X10.  The date ranges of [getDateRange] fit together: the range of
    yesterday ends where the range of today starts; the ranges of today, of
    the week and of the month end together, one day after the start of
    today; the range of the week starts 7 days before today and so spans 8
    days, the range of the month starts 30 days before and spans 31 days;
    any other period gives the range from the epoch to now. *)
Theorem date_ranges_fit_together (rt : DateRuntime) (now : Instant) :
  let range p := AnalyticsService.getDateRange rt now (JStr p) in
  snd (range "yesterday") = fst (range "today")
  /\ fst (range "today") = localMidnight rt now
  /\ snd (range "today") - fst (range "today") = DAY
  /\ snd (range "yesterday") - fst (range "yesterday") = DAY
  /\ snd (range "week") = snd (range "today")
  /\ snd (range "month") = snd (range "today")
  /\ snd (range "week") - fst (range "week") = 8 * DAY
  /\ snd (range "month") - fst (range "month") = 31 * DAY
  /\ (forall period,
        ~ In period [JStr "today"; JStr "yesterday"; JStr "week"; JStr "month"] ->
        AnalyticsService.getDateRange rt now period = (0, now)).
Proof.
  cbn. unfold DAY. repeat (split; [lia |]).
  intros period Hp. unfold AnalyticsService.getDateRange.
  repeat match goal with
         | |- context [strictEq period (JStr ?p)] =>
             let E := fresh "E" in
             destruct (strictEq period (JStr p)) eqn:E;
             [ exfalso; apply Hp; destruct period; try discriminate;
               apply String.eqb_eq in E; subst; cbn; tauto |]
         end.
  reflexivity.
Qed.

(** ** The report service *)

(** X11.  A filter that is falsy is no filter: [getActivityByDate] with a
    date that is [undefined], [null] or [''], and [getActivityByUser] with
    a user id that is [undefined], [null], [''] or [0], do what
    [getWebsiteUrlActivity] does with no filters, and so report the
    activity of every date and of every user. *)
Theorem falsy_filter_reports_everything {S} (client : Client S) (rt : DateRuntime)
    (v : JsVal) (w : World S) :
  truthy v = false ->
  ReportService.getActivityByDate client rt v w
    = ReportService.getWebsiteUrlActivity client rt [] w
  /\ ReportService.getActivityByUser client rt v w
     = ReportService.getWebsiteUrlActivity client rt [] w.
Proof.
  intros Hv.
  unfold ReportService.getActivityByDate, ReportService.getActivityByUser,
    ReportService.getWebsiteUrlActivity, ReportService.rangeFilters.
  cbn [prop String.eqb Ascii.eqb Bool.eqb]. cbn. rewrite Hv. split; reflexivity.
Qed.

(** The activity of the user 0 is the activity of everyone. *)
Lemma falsy_filter_reports_everything_witness :
  ReportService.getActivityByUser Store.client utcRuntime (JNum 0) Examples.world
  = ReportService.getWebsiteUrlActivity Store.client utcRuntime [] Examples.world.
Proof.
  exact (proj2 (falsy_filter_reports_everything Store.client utcRuntime (JNum 0)
                  Examples.world eq_refl)).
Defined.

(** X12.  A date that cannot be read stops a report before any call to the
    store: [getDailyWebsiteUrls] with an invalid date (a missing date
    included) returns [[]], and [getActivityByDate] with a truthy invalid
    date returns the empty activity, each after the one line "Invalid time
    value" and without a call. *)
Theorem invalid_date_makes_no_call {S} (client : Client S) (rt : DateRuntime)
    (salesRepId date : JsVal) (w : World S) :
  newDate rt date = None ->
  (exists w',
     ReportService.getDailyWebsiteUrls client rt salesRepId date w = (Return [], w')
     /\ callsSince w w' = []
     /\ console w' = console w
                     ++ [("Error fetching daily website URLs:", JStr "Invalid time value")])
  /\ (truthy date = true ->
      exists w',
        ReportService.getActivityByDate client rt date w
          = (Return ReportService.emptyActivity, w')
        /\ callsSince w w' = []
        /\ console w' = console w
                        ++ [("Error fetching website URL activity:",
                             JStr "Invalid time value")]).
Proof.
  intros Hd. split.
  - unfold ReportService.getDailyWebsiteUrls, ReportService.dayFilters. rewrite Hd.
    eexists. split; [reflexivity |]. cbn.
    split; [unfold callsSince; cbn; apply drop_all | reflexivity].
  - intros Ht.
    unfold ReportService.getActivityByDate, ReportService.getWebsiteUrlActivity,
      ReportService.rangeFilters, ReportService.dayFilters.
    cbn [prop String.eqb Ascii.eqb Bool.eqb]. cbn. rewrite Ht, Hd.
    eexists. split; [reflexivity |]. cbn.
    split; [unfold callsSince; cbn; apply drop_all | reflexivity].
Qed.

(** No date at all: the daily URLs are empty, and the store is not asked. *)
Lemma invalid_date_makes_no_call_witness :
  exists w',
    ReportService.getDailyWebsiteUrls Store.client utcRuntime (JNum 1) JUndef Examples.world
      = (Return [], w')
    /\ callsSince Examples.world w' = [].
Proof.
  destruct (proj1 (invalid_date_makes_no_call Store.client utcRuntime (JNum 1) JUndef
                     Examples.world eq_refl)) as (w' & Hrun & Hcalls & _).
  exists w'. split; [exact Hrun | exact Hcalls].
Defined.

(** ** The export, the deals of a year and the two ways to strip a slash *)

Section ExportRows.
Context {S : Type} (client : Client S) (rt : DateRuntime).

Lemma exportRow_rowOf lead (w : World S) row w' :
  ReportService.exportRow rt lead w = (Return row, w') -> rowOf rt lead row.
Proof.
  unfold ReportService.exportRow. intros H.
  apply bind_Return_inv in H as (url & w1 & _ & H). inversion H; subst.
  repeat split.
Qed.

Lemma mapM_Forall2 {A B} (f : A -> M S B) (R : A -> B -> Prop) l (w : World S) ys w' :
  (forall x w0 y w1, f x w0 = (Return y, w1) -> R x y) ->
  mapM f l w = (Return ys, w') -> Forall2 R l ys.
Proof.
  intros Hf. revert w ys w'. induction l as [|x l IH]; intros w ys w' H; cbn in H.
  - inversion H. constructor.
  - apply bind_Return_inv in H as (y & w1 & Hy & H).
    apply bind_Return_inv in H as (ys' & w2 & Hys & H).
    inversion H; subst. constructor; eauto.
Qed.
End ExportRows.


Lemma append_assoc3 (s t u : string) : (s +:+ t) +:+ u = s +:+ (t +:+ u).
Proof.
  induction s as [|c s IH]; [reflexivity |].
  change (String c ((s +:+ t) +:+ u) = String c (s +:+ (t +:+ u))). rewrite IH. reflexivity.
Qed.


(** ** Stripping a slash *)

Lemma dropTrailingSlash_endsWith s :
  dropTrailingSlash s = if endsWithSlash s then dropLast s else s.
Proof.
  induction s as [|c s IH]; [reflexivity |].
  destruct s as [|d s]; [cbn; destruct (Ascii.eqb c "/"); reflexivity |].
  change (dropTrailingSlash (String c (String d s)))
    with (String c (dropTrailingSlash (String d s))).
  change (endsWithSlash (String c (String d s))) with (endsWithSlash (String d s)).
  change (dropLast (String c (String d s))) with (String c (dropLast (String d s))).
  rewrite IH. destruct (endsWithSlash (String d s)); reflexivity.
Qed.

Lemma lowerAscii_idempotent c : lowerAscii (lowerAscii c) = lowerAscii c.
Proof. destruct c as [[] [] [] [] [] [] [] []]; reflexivity. Qed.

Lemma toLowerCase_idempotent s : toLowerCase (toLowerCase s) = toLowerCase s.
Proof.
  induction s as [|c s IH]; [reflexivity |]. cbn. rewrite lowerAscii_idempotent, IH.
  reflexivity.
Qed.

Lemma toLowerCase_app s t : toLowerCase (s +:+ t) = toLowerCase s +:+ toLowerCase t.
Proof.
  induction s as [|c s IH]; [reflexivity |].
  change (String (lowerAscii c) (toLowerCase (s +:+ t))
          = String (lowerAscii c) (toLowerCase s +:+ toLowerCase t)).
  rewrite IH. reflexivity.
Qed.

Lemma dropTrailingSlash_slash s : dropTrailingSlash (s +:+ "/") = s.
Proof.
  induction s as [|c s IH]; [reflexivity |].
  change (dropTrailingSlash (String c (s +:+ "/")) = String c s).
  destruct (s +:+ "/") as [|d t] eqn:E.
  - destruct s; discriminate.
  - change (String c (dropTrailingSlash (String d t)) = String c s). rewrite IH.
    reflexivity.
Qed.

Lemma normalizeUrl_of_string {S} (s : string) (w : World S) :
  LeadsService.normalizeUrl (JStr s) w = (Return (dropTrailingSlash (toLowerCase s)), w).
Proof. destruct s; reflexivity. Qed.

Lemma cleanWebsiteUrl_of_string {S} (s : string) (w : World S) :
  ReportService.cleanWebsiteUrl (JStr s) w
  = (Return (JStr (if endsWithSlash s then dropLast s else s)), w).
Proof. destruct s; reflexivity. Qed.

(** X15.  [normalizeUrl] of the leads service and [cleanWebsiteUrl] of the
    report service strip a trailing slash alike: for every string,
    [normalizeUrl(s)] is [cleanWebsiteUrl(s.toLowerCase())].  [normalizeUrl]
    does not tell apart two URLs that differ in the case of their letters or
    in one trailing slash. *)
Theorem normalizeUrl_agrees_with_cleanWebsiteUrl {S} (s : string) (w : World S) :
  (exists u,
     LeadsService.normalizeUrl (JStr s) w = (Return u, w)
     /\ ReportService.cleanWebsiteUrl (JStr (toLowerCase s)) w = (Return (JStr u), w))
  /\ LeadsService.normalizeUrl (JStr (toLowerCase s)) w = LeadsService.normalizeUrl (JStr s) w
  /\ LeadsService.normalizeUrl (JStr (s +:+ "/")) w = (Return (toLowerCase s), w).
Proof.
  rewrite !normalizeUrl_of_string, cleanWebsiteUrl_of_string.
  split; [| split].
  - eexists. split; [reflexivity |]. rewrite dropTrailingSlash_endsWith. reflexivity.
  - rewrite toLowerCase_idempotent. reflexivity.
  - rewrite toLowerCase_app. change (toLowerCase "/") with "/".
    rewrite dropTrailingSlash_slash. reflexivity.
Qed.

(** ** Team members *)

Section Invite.
Context {S : Type} (client : Client S) (rt : DateRuntime) (js : TeamService.JsonRuntime).

Lemma team_isBlank_blank what v (w : World S) :
  blank v -> TeamService.isBlank what v w = (Return true, w).
Proof.
  intros [Hf | (s & -> & Ht)]; unfold TeamService.isBlank.
  - rewrite Hf. reflexivity.
  - destruct (truthy (JStr s)); cbn; [| reflexivity].
    unfold bind, stringMethod, ret. rewrite Ht. reflexivity.
Qed.

Lemma team_isBlank_filled what v s (w : World S) :
  filled v s -> TeamService.isBlank what v w = (Return false, w).
Proof.
  intros (-> & Ht). unfold TeamService.isBlank.
  assert (Hs : truthy (JStr s) = true).
  { cbn. destruct s; [exfalso; apply Ht; reflexivity | reflexivity]. }
  rewrite Hs. cbn. unfold bind, stringMethod, ret.
  destruct (trim s); [contradiction | reflexivity].
Qed.
End Invite.

(** X16.  [inviteTeamMember] checks before it writes: a name that is
    missing or blank throws "Member name is required" and a missing or
    blank email throws "Member email is required", both without a call to
    the store; when the lookup of the email, in lower case, succeeds and
    finds a record, it throws "A team member with this email already
    exists" and [createRecord] is not called (the lookup is stated for an
    email of ASCII characters). *)
Theorem invite_checks_before_it_writes {S} (client : Client S) (rt : DateRuntime)
    (js : TeamService.JsonRuntime) (memberData : Rec) (w : World S) :
  (blank (prop memberData "name") ->
   exists w',
     TeamService.inviteTeamMember client rt js memberData w
       = (Throw (Error "Member name is required"), w')
     /\ callsSince w w' = [])
  /\ (forall name, filled (prop memberData "name") name ->
      blank (prop memberData "email") ->
      exists w',
        TeamService.inviteTeamMember client rt js memberData w
          = (Throw (Error "Member email is required"), w')
        /\ callsSince w w' = [])
  /\ (forall name email response s1,
        filled (prop memberData "name") name ->
        filled (prop memberData "email") email ->
        isAscii email = true ->
        fetchRecords client "team_member_c"
          (TeamService.emailQuery (toLowerCase email) None) (backend w)
          = (Return response, s1) ->
        success response && hasRows (data response) = true ->
        exists w',
          TeamService.inviteTeamMember client rt js memberData w
            = (Throw (Error "A team member with this email already exists"), w')
          /\ callsSince w w'
             = [CFetch "team_member_c" (TeamService.emailQuery (toLowerCase email) None)]).
Proof.
  split; [| split].
  - intros Hb. unfold TeamService.inviteTeamMember, tryCatch.
    rewrite (bind_Return _ _ w tt w) by reflexivity.
    rewrite (bind_Return _ _ _ _ _ (team_isBlank_blank _ _ w Hb)).
    eexists. split; [reflexivity |]. unfold callsSince. cbn. apply drop_all.
  - intros name Hn Hb. unfold TeamService.inviteTeamMember, tryCatch.
    rewrite (bind_Return _ _ w tt w) by reflexivity.
    rewrite (bind_Return _ _ _ _ _ (team_isBlank_filled _ _ _ w Hn)).
    rewrite (bind_Return _ _ _ _ _ (team_isBlank_blank _ _ w Hb)).
    eexists. split; [reflexivity |]. unfold callsSince. cbn. apply drop_all.
  - intros name email response s1 Hn He _ Hfetch Hdup.
    unfold TeamService.inviteTeamMember, tryCatch.
    rewrite (bind_Return _ _ w tt w) by reflexivity.
    rewrite (bind_Return _ _ _ _ _ (team_isBlank_filled _ _ _ w Hn)).
    rewrite (bind_Return _ _ _ _ _ (team_isBlank_filled _ _ _ w He)).
    destruct He as (-> & He). unfold bind, stringMethod, ret, callFetch, perform.
    rewrite Hfetch. cbn. rewrite Hdup. cbn.
    eexists. split; [reflexivity |]. unfold callsSince. cbn.
    rewrite drop_app_length. reflexivity.
Qed.

(** An invitation whose name is one no-break space (U+00A0). *)
Lemma invite_checks_before_it_writes_witness :
  exists w',
    TeamService.inviteTeamMember Store.client utcRuntime Examples.json
      [("name", JStr (ofBytes [194; 160]%nat)); ("email", JStr "dana@apex.io")]
      Examples.world
      = (Throw (Error "Member name is required"), w')
    /\ callsSince Examples.world w' = [].
Proof.
  apply (proj1 (invite_checks_before_it_writes Store.client utcRuntime Examples.json
                  [("name", JStr (ofBytes [194; 160]%nat)); ("email", JStr "dana@apex.io")]
                  Examples.world)).
  right. exists (ofBytes [194; 160]%nat). split; reflexivity.
Defined.

(** X17.  [inviteTeamMember] looks one email up and stores another: for an
    email of ASCII characters, the lookup asks for the email in lower case
    as it was typed, and when no record is found the record written has the
    email trimmed and in lower case, the name trimmed (of all white space,
    also outside ASCII), the status "pending", no last login, the role
    "viewer" unless one is given and the permissions as JSON text. *)
Theorem invite_stores_the_trimmed_email {S} (client : Client S) (rt : DateRuntime)
    (js : TeamService.JsonRuntime) (memberData : Rec) (w : World S)
    name email response s1 :
  filled (prop memberData "name") name ->
  filled (prop memberData "email") email ->
  isAscii email = true ->
  fetchRecords client "team_member_c"
    (TeamService.emailQuery (toLowerCase email) None) (backend w)
    = (Return response, s1) ->
  success response && hasRows (data response) = false ->
  exists record,
    callsSince w (snd (TeamService.inviteTeamMember client rt js memberData w))
    = [ CFetch "team_member_c" (TeamService.emailQuery (toLowerCase email) None);
        CCreate "team_member_c" [record] ]
    /\ prop record "email_c" = JStr (toLowerCase (trim email))
    /\ prop record "Name" = JStr (trim name)
    /\ prop record "status_c" = JStr "pending"
    /\ prop record "last_login_c" = JNull
    /\ prop record "role_c" = jsOr (prop memberData "role") (JStr "viewer")
    /\ prop record "permissions_c"
       = TeamService.jsonStringify js
           (jsOr (prop memberData "permissions") TeamService.defaultPermissions)
    /\ prop record "created_at_c" = JStr (toISOString rt (clock w)).
Proof.
  intros Hn He _ Hfetch Hdup. eexists. split.
  - unfold TeamService.inviteTeamMember, tryCatch.
    rewrite (bind_Return _ _ w tt w) by reflexivity.
    rewrite (bind_Return _ _ _ _ _ (team_isBlank_filled _ _ _ w Hn)).
    rewrite (bind_Return _ _ _ _ _ (team_isBlank_filled _ _ _ w He)).
    destruct He as (-> & He). destruct Hn as (-> & Hn).
    unfold bind, stringMethod, ret, callFetch, callCreate, perform, newDateNow.
    rewrite Hfetch. cbn. rewrite Hdup. cbn.
    destruct (createRecord client _ _ _) as [[r|e0] s2]; cbn;
      [ destruct (success r); cbn;
        [ destruct (results r) as [[|result l]|]; cbn;
          [ | destruct (r_success result); cbn;
              [destruct (r_data result); cbn;
               [unfold TeamService.memberViewWith, TeamService.parsePermissions, bind, ret;
                destruct (truthy _); cbn;
                [destruct (TeamService.jsonParse js _); cbn |] |] |] | ] | ]
      | ];
      unfold callsSince; cbn; rewrite <- ?app_assoc; rewrite drop_app_length; reflexivity.
  - repeat split.
Qed.

(** An invitation typed with spaces and capitals on the reference store;
    the name ends with a no-break space. *)
Lemma invite_stores_the_trimmed_email_witness :
  exists record,
    callsSince Examples.world
      (snd (TeamService.inviteTeamMember Store.client utcRuntime Examples.json
              [("name", JStr ("Dana" +:+ ofBytes [194; 160]%nat));
               ("email", JStr " Dana@Apex.io ")] Examples.world))
    = [ CFetch "team_member_c" (TeamService.emailQuery " dana@apex.io " None);
        CCreate "team_member_c" [record] ]
    /\ prop record "email_c" = JStr "dana@apex.io"
    /\ prop record "Name" = JStr "Dana".
Proof.
  assert (Hn : filled (JStr ("Dana" +:+ ofBytes [194; 160]%nat))
                 ("Dana" +:+ ofBytes [194; 160]%nat))
    by (split; [reflexivity | vm_compute; discriminate]).
  assert (He : filled (JStr " Dana@Apex.io ") " Dana@Apex.io ")
    by (split; [reflexivity | vm_compute; discriminate]).
  destruct (invite_stores_the_trimmed_email Store.client utcRuntime Examples.json
              [("name", JStr ("Dana" +:+ ofBytes [194; 160]%nat));
               ("email", JStr " Dana@Apex.io ")] Examples.world
              ("Dana" +:+ ofBytes [194; 160]%nat) " Dana@Apex.io "
              {| success := true; data := Some []; results := None; message := JUndef |}
              (backend Examples.world) Hn He eq_refl eq_refl eq_refl)
    as (record & Hcalls & Hemail & Hname & _).
  exists record. split; [exact Hcalls |]. split; [exact Hemail | exact Hname].
Defined.

(** ** Updating, activating and listing team members *)

(** X18.  The email of an update is handled as a string even when it is
    none: [updateTeamMember] with an email that is given and is not a
    string ([null], a number, ...) throws a [TypeError] before any call to
    the store; with the empty string it skips the lookup for duplicates and
    writes the empty email. *)
Theorem update_email_edge_cases {S} (client : Client S) (rt : DateRuntime)
    (js : TeamService.JsonRuntime) (id : JsVal) (updates : Rec) (w : World S) :
  (prop updates "email" <> JUndef ->
   (forall s, prop updates "email" <> JStr s) ->
   exists message w',
     TeamService.updateTeamMember client rt js id updates w
       = (Throw (TypeError message), w')
     /\ callsSince w w' = [])
  /\ (prop updates "email" = JStr "" ->
      exists record,
        callsSince w (snd (TeamService.updateTeamMember client rt js id updates w))
        = [CUpdate "team_member_c" [record]]
        /\ prop record "email_c" = JStr "").
Proof.
  split.
  - intros Hd Hs.
    unfold TeamService.updateTeamMember, TeamService.checkNewEmail,
      TeamService.emailField, tryCatch, bind, simulateAPICall, ret, newDateNow,
      stringMethod, throw, consoleError.
    destruct (prop updates "email") as [| |b|n| |s|f]; cbn;
      try contradiction; try (exfalso; eapply Hs; reflexivity);
      try (eexists _, _; split; [reflexivity |]; unfold callsSince; cbn; apply drop_all).
    + destruct b; cbn;
        (eexists _, _; split; [reflexivity |]; unfold callsSince; cbn; apply drop_all).
    + destruct (n =? 0); cbn;
        (eexists _, _; split; [reflexivity |]; unfold callsSince; cbn; apply drop_all).
  - intros He. eexists. split.
    + unfold TeamService.updateTeamMember, TeamService.checkNewEmail,
        TeamService.emailField, tryCatch, bind, simulateAPICall, ret, newDateNow,
        stringMethod, callUpdate, perform.
      rewrite He. cbn.
      destruct (updateRecord client _ _ _) as [[r|e0] s2]; cbn;
        [ destruct (success r); cbn;
          [ destruct (results r) as [[|result l]|]; cbn;
            [ | destruct (r_success result); cbn;
                [destruct (r_data result); cbn;
                 [unfold TeamService.memberViewWith, TeamService.parsePermissions, bind, ret;
                  destruct (truthy _); cbn;
                  [destruct (TeamService.jsonParse js _); cbn |] |] |] | ] | ]
        | ];
        unfold callsSince; cbn; rewrite drop_app_length; reflexivity.
    + cbn [prop String.eqb Ascii.eqb Bool.eqb]. rewrite !prop_app.
      destruct (hasKey (whenDefined updates "name" "Name") "email_c") eqn:E;
        [apply hasKey_whenDefined in E as (E & _); discriminate E |].
      reflexivity.
Qed.

(** An update that sets the email to [null]. *)
Lemma update_email_edge_cases_witness :
  exists message w',
    TeamService.updateTeamMember Store.client utcRuntime Examples.json (JNum 21)
      [("email", JNull)] Examples.world = (Throw (TypeError message), w')
    /\ callsSince Examples.world w' = [].
Proof.
  apply (proj1 (update_email_edge_cases Store.client utcRuntime Examples.json (JNum 21)
                  [("email", JNull)] Examples.world)).
  - discriminate.
  - discriminate.
Defined.

(** X19.  [activateTeamMember] and [deactivateTeamMember] are
    [updateTeamMember] with the status "active" and the time of the call as
    last login, or with the status "inactive": they return what the update
    returns, and when the update throws they throw the same error after a
    line of their own, so that the failure is on the console twice. *)
Theorem activation_is_an_update {S} (client : Client S) (rt : DateRuntime)
    (js : TeamService.JsonRuntime) (id : JsVal) (w : World S) :
  let activation :=
    TeamService.updateTeamMember client rt js id
      [("status", JStr "active"); ("lastLogin", JStr (toISOString rt (clock w)))] w in
  let deactivation :=
    TeamService.updateTeamMember client rt js id [("status", JStr "inactive")] w in
  let wrapped label (run : Outcome Rec * World S) :=
    match run with
    | (Return r, w1) => (Return r, w1)
    | (Throw e, w1) => (Throw e, logged w1 label (errMessage e))
    end in
  TeamService.activateTeamMember client rt js id w
    = wrapped "Error activating team member:" activation
  /\ TeamService.deactivateTeamMember client rt js id w
     = wrapped "Error deactivating team member:" deactivation
  /\ (forall e w1, activation = (Throw e, w1) ->
        lastLine w1 = Some ("Error updating team member:", JStr (errMessage e)))
  /\ (forall e w1, deactivation = (Throw e, w1) ->
        lastLine w1 = Some ("Error updating team member:", JStr (errMessage e))).
Proof.
  cbv zeta. split; [| split; [| split]].
  - unfold TeamService.activateTeamMember.
    rewrite (bind_Return _ _ w tt w) by reflexivity.
    unfold tryCatch at 1. rewrite (bind_Return _ _ w (clock w) w) by reflexivity.
    destruct (TeamService.updateTeamMember client rt js id _ w) as [[r|e] w1]; reflexivity.
  - unfold TeamService.deactivateTeamMember.
    rewrite (bind_Return _ _ w tt w) by reflexivity.
    unfold tryCatch at 1.
    destruct (TeamService.updateTeamMember client rt js id _ w) as [[r|e] w1]; reflexivity.
  - intros e w1 H. unfold TeamService.updateTeamMember in H.
    rewrite (bind_Return _ _ w tt w) in H by reflexivity.
    apply rethrow_lastLine in H. exact H.
  - intros e w1 H. unfold TeamService.updateTeamMember in H.
    rewrite (bind_Return _ _ w tt w) in H by reflexivity.
    apply rethrow_lastLine in H. exact H.
Qed.

Section Permissions.
Context {S : Type}.

Lemma mapM_throws {A B} (f : A -> M S B) l x :
  In x l -> throws (f x) -> throws (mapM f l).
Proof.
  intros Hin Hx. induction l as [|y l IH]; [contradiction |].
  intros w. cbn. unfold bind at 1.
  destruct Hin as [-> | Hin].
  - destruct (Hx w) as (e & w' & ->). eauto.
  - destruct (f y w) as [[b|e] w1]; [| eauto].
    unfold bind at 1. destruct (IH Hin w1) as (e & w' & ->). eauto.
Qed.
End Permissions.

(** X20.  One team member whose stored permissions are not JSON empties the
    list: when [JSON.parse] throws on the [permissions_c] of a fetched
    member, [getTeamMembers] returns [[]] for all the members, after a line
    with the message of an error. *)
Theorem corrupt_permissions_empty_the_list {S} (client : Client S) (rt : DateRuntime)
    (js : TeamService.JsonRuntime) (w : World S) response member e :
  (forall p s, exists s1, fetchRecords client "team_member_c" p s = (Return response, s1)) ->
  success response = true ->
  In member (default [] (data response)) ->
  truthy (prop member "permissions_c") = true ->
  TeamService.jsonParse js (toStr (prop member "permissions_c")) = Throw e ->
  exists cause w',
    TeamService.getTeamMembers client rt js w = (Return [], w')
    /\ lastLine w' = Some ("Error fetching team members:", JStr cause).
Proof.
  intros Hfetch Hok Hin Ht Hparse.
  unfold TeamService.getTeamMembers.
  rewrite (bind_Return _ _ w tt w) by reflexivity.
  unfold tryCatch, bind at 1, callFetch, perform.
  match goal with
  | |- context [fetchRecords client "team_member_c" ?p ?s] =>
      destruct (Hfetch p s) as (s1 & ->)
  end.
  rewrite Hok. cbn [negb]. unfold bind at 1, newDateNow at 1.
  match goal with
  | |- context [mapM ?f ?l ?w0] =>
      destruct (mapM_throws f l member Hin) with (w := w0) as (e' & w' & ->)
  end.
  - intros w0. unfold TeamService.memberView, TeamService.memberViewWith,
      TeamService.parsePermissions, bind, throw. rewrite Ht, Hparse. eauto.
  - cbn. eexists _, _. split; [reflexivity |]. unfold lastLine. cbn. apply last_snoc.
Qed.

(** The permissions of Dana are the text "all": no member is listed. *)
Lemma corrupt_permissions_empty_the_list_witness :
  exists cause w',
    TeamService.getTeamMembers (answering "team_member_c" [erin; dana]) utcRuntime
      Examples.json (initialWorld tt Examples.now) = (Return [], w')
    /\ lastLine w' = Some ("Error fetching team members:", JStr cause).
Proof.
  apply (corrupt_permissions_empty_the_list (answering "team_member_c" [erin; dana])
           utcRuntime Examples.json (initialWorld tt Examples.now)
           {| success := true; data := Some [erin; dana]; results := None;
              message := JUndef |}
           dana (SyntaxError "Unexpected token in JSON")).
  - intros p s. exists s. reflexivity.
  - reflexivity.
  - cbn. tauto.
  - reflexivity.
  - reflexivity.
Defined.

(** X21.  The performance figures of a team member stay in their ranges
    when the draws do: for draws [Math.floor(Math.random() * n)] between 0
    and [n - 1], the result of [getTeamMemberPerformance] has 20 to 69
    leads, 5 to 14 deals, a revenue of 10000 to 59999, 10 to 29 meetings and
    a conversion rate of 5 to 19; the deals are never 0, so the average deal
    size is always the rounded quotient of the revenue by the deals. *)
Theorem performance_figures_in_range {S} (client : Client S)
    (js : TeamService.JsonRuntime) (id : JsVal) (w : World S) r w' :
  (forall i n, 0 < n -> 0 <= TeamService.randomBelow js i n < n) ->
  TeamService.getTeamMemberPerformance client js id w = (Return r, w') ->
  exists leads deals revenue meetings rate,
    r = [ ("totalLeads", JNum leads); ("totalDeals", JNum deals);
          ("totalRevenue", JNum revenue); ("totalMeetings", JNum meetings);
          ("conversionRate", JNum rate);
          ("avgDealSize", JNum (mathRound (quotient revenue deals))) ]
    /\ 20 <= leads <= 69 /\ 5 <= deals <= 14 /\ 10000 <= revenue <= 59999
    /\ 10 <= meetings <= 29 /\ 5 <= rate <= 19.
Proof.
  intros Hdraw Hrun.
  assert (Hr : r = TeamService.mockPerformance js).
  { unfold TeamService.getTeamMemberPerformance in Hrun.
    rewrite (bind_Return _ _ w tt w) in Hrun by reflexivity.
    unfold tryCatch in Hrun.
    match type of Hrun with
    | (match ?body ?w0 with _ => _ end) = _ => destruct (body w0) as [[a|e] w1] eqn:E
    end; [| discriminate].
    inversion Hrun; subst.
    apply bind_Return_inv in E as (response & w2 & _ & E).
    destruct (negb (success response)); [discriminate |]. inversion E. reflexivity. }
  subst r. unfold TeamService.mockPerformance.
  pose proof (Hdraw 0%nat 50 ltac:(lia)).
  pose proof (Hdraw 1%nat 10 ltac:(lia)).
  pose proof (Hdraw 2%nat 50000 ltac:(lia)).
  pose proof (Hdraw 3%nat 20 ltac:(lia)).
  pose proof (Hdraw 4%nat 15 ltac:(lia)).
  eexists _, _, _, _, _. split.
  - cbv zeta.
    destruct (0 <? TeamService.randomBelow js 1 10 + 5) eqn:E;
      [reflexivity | apply Z.ltb_ge in E; lia].
  - lia.
Qed.

(** The performance of Dana on the reference store, with the draws of the
    sample runtime. *)
Lemma performance_figures_in_range_witness :
  exists leads deals revenue meetings rate,
    fst (TeamService.getTeamMemberPerformance Store.client Examples.json (JNum 21)
           (initialWorld teamStore Examples.now))
    = Return [ ("totalLeads", JNum leads); ("totalDeals", JNum deals);
               ("totalRevenue", JNum revenue); ("totalMeetings", JNum meetings);
               ("conversionRate", JNum rate);
               ("avgDealSize", JNum (mathRound (quotient revenue deals))) ]
    /\ 20 <= leads <= 69 /\ 5 <= deals <= 14.
Proof.
  destruct (TeamService.getTeamMemberPerformance Store.client Examples.json (JNum 21)
              (initialWorld teamStore Examples.now)) as [o w'] eqn:Hrun.
  assert (Ho : exists r, o = Return r).
  { vm_compute in Hrun. inversion Hrun. eauto. }
  destruct Ho as (r & ->).
  destruct (performance_figures_in_range Store.client Examples.json (JNum 21)
              (initialWorld teamStore Examples.now) r w')
    as (leads & deals & revenue & meetings & rate & -> & Hl & Hd & _).
  - intros i n Hn. cbn. apply Z.mod_pos_bound. exact Hn.
  - exact Hrun.
  - exists leads, deals, revenue, meetings, rate. split; [reflexivity | split; assumption].
Defined.

(** ** A round trip through the reference store *)

Lemma find_none_app {A} (p : A -> bool) (l1 l2 : list A) :
  (forall x, In x l1 -> p x = false) -> List.find p (l1 ++ l2) = List.find p l2.
Proof.
  induction l1 as [|x l1 IH]; intros H; [reflexivity |].
  cbn. rewrite (H x (or_introl eq_refl)). apply IH. intros y Hy. apply H. right. exact Hy.
Qed.

Lemma find_filter_none {A} (p : A -> bool) (l : list A) :
  List.find p (List.filter (fun x => negb (p x)) l) = None.
Proof.
  induction l as [|x l IH]; [reflexivity |].
  cbn. destruct (p x) eqn:E; cbn; [exact IH | rewrite E; exact IH].
Qed.

Lemma table_dictSet (st : Store.State) entity rows next isDown :
  Store.table {| Store.tables := dictSet (Store.tables st) entity rows;
                 Store.nextId := next; Store.down := isDown |} entity = rows.
Proof. unfold Store.table. cbn. rewrite dictGet_dictSet, String.eqb_refl. reflexivity. Qed.

Lemma store_create_one (st : Store.State) entity (record : Rec) :
  Store.down st = false ->
  exists st',
    Store.create entity [record] st
    = (Return {| success := true; data := None;
                 results := Some [Store.okRow (dictSet record "Id" (JNum (Store.nextId st)))];
                 message := JUndef |}, st')
    /\ Store.down st' = false
    /\ Store.table st' entity
       = Store.table st entity ++ [dictSet record "Id" (JNum (Store.nextId st))].
Proof.
  intros Hup. unfold Store.create. rewrite Hup. eexists. split; [reflexivity |].
  split; [reflexivity | apply table_dictSet].
Qed.

Lemma store_getById_found (st : Store.State) entity id p r :
  Store.down st = false ->
  List.find (Store.hasId id) (Store.table st entity) = Some r ->
  Store.getById entity id p st
  = (Return {| success := true; data := Some r; results := None; message := JUndef |}, st).
Proof. intros Hup Hfind. unfold Store.getById. rewrite Hup, Hfind. reflexivity. Qed.

Lemma store_getById_missing (st : Store.State) entity id p :
  Store.down st = false ->
  List.find (Store.hasId id) (Store.table st entity) = None ->
  Store.getById entity id p st
  = (Return {| success := false; data := None; results := None;
               message := JStr "Record does not exist" |}, st).
Proof. intros Hup Hfind. unfold Store.getById. rewrite Hup, Hfind. reflexivity. Qed.

Lemma store_delete_one (st : Store.State) entity id :
  Store.down st = false ->
  existsb (Store.hasId id) (Store.table st entity) = true ->
  exists st',
    Store.delete entity [id] st
    = (Return {| success := true; data := None;
                 results := Some [{| r_success := true; r_data := None;
                                     r_message := JUndef |}];
                 message := JUndef |}, st')
    /\ Store.down st' = false
    /\ Store.table st' entity
       = List.filter (fun r => negb (Store.hasId id r)) (Store.table st entity).
Proof.
  intros Hup Hin. unfold Store.delete. rewrite Hup. cbn [map]. unfold Store.deleteRow.
  rewrite Hin. eexists. split; [reflexivity |]. split; [reflexivity |].
  rewrite table_dictSet. apply filter_ext. intros r. cbn. rewrite orb_false_r. reflexivity.
Qed.

Ltac store_call :=
  cbn [fetchRecords getRecordById createRecord updateRecord deleteRecord Store.client backend].

(** X22.  A sales rep goes through the reference store and comes back: on
    a store that answers and has not used its next id, [createSalesRep]
    returns the rep with that id and with 0 for each counter not given;
    [getSalesRepById] for the id then returns the same rep; and after
    [deleteSalesRep] for the id, [getSalesRepById] throws "Sales rep not
    found". *)
Theorem sales_rep_round_trip (repData : Rec) (w : World Store.State) :
  Store.down (backend w) = false ->
  (forall r, In r (Store.table (backend w) "sales_rep_c") ->
             Store.hasId (JNum (Store.nextId (backend w))) r = false) ->
  exists rep w1 w2 w3 w4,
    SalesRepService.createSalesRep Store.client repData w = (Return rep, w1)
    /\ prop rep "Id" = JNum (Store.nextId (backend w))
    /\ prop rep "name" = prop repData "name"
    /\ prop rep "dealsClosed" = jsOr (prop repData "dealsClosed") (JNum 0)
    /\ SalesRepService.getSalesRepById Store.client (prop rep "Id") w1 = (Return rep, w2)
    /\ SalesRepService.deleteSalesRep Store.client (prop rep "Id") w2 = (Return tt, w3)
    /\ SalesRepService.getSalesRepById Store.client (prop rep "Id") w3
       = (Throw (Error "Sales rep not found"), w4).
Proof.
  intros Hup Hfresh.
  set (id := JNum (Store.nextId (backend w))) in *.
  set (record := [ ("Name", prop repData "name");
                   ("leads_contacted_c", jsOr (prop repData "leadsContacted") (JNum 0));
                   ("meetings_booked_c", jsOr (prop repData "meetingsBooked") (JNum 0));
                   ("deals_closed_c", jsOr (prop repData "dealsClosed") (JNum 0));
                   ("total_revenue_c", jsOr (prop repData "totalRevenue") (JNum 0));
                   ("Id", id) ]).
  assert (Hid : Store.hasId id record = true).
  { unfold Store.hasId. cbn. apply Z.eqb_refl. }
  exists (SalesRepService.repView record).
  assert (Hcreate : exists w1,
             SalesRepService.createSalesRep Store.client repData w
               = (Return (SalesRepService.repView record), w1)
             /\ Store.down (backend w1) = false
             /\ Store.table (backend w1) "sales_rep_c"
                = Store.table (backend w) "sales_rep_c" ++ [record]).
  { unfold SalesRepService.createSalesRep, bind, tryCatch, simulateAPICall, ret,
      callCreate, perform. store_call.
    match goal with
    | |- context [Store.create ?e [?r] ?st] =>
        destruct (store_create_one st e r Hup) as (st' & -> & Hup' & Htable)
    end.
    cbn. eexists. split; [reflexivity |]. split; [exact Hup' | exact Htable]. }
  destruct Hcreate as (w1 & Hcreate & Hup1 & Htable1). exists w1.
  assert (Hget : exists w2,
             SalesRepService.getSalesRepById Store.client id w1
               = (Return (SalesRepService.repView record), w2)
             /\ backend w2 = backend w1).
  { unfold SalesRepService.getSalesRepById, bind, tryCatch, simulateAPICall, ret,
      callGet, perform. store_call.
    rewrite (store_getById_found _ _ _ _ record Hup1).
    - cbn. eexists. split; reflexivity.
    - rewrite Htable1, (find_none_app _ _ _ Hfresh). cbn [List.find]. rewrite Hid.
      reflexivity. }
  destruct Hget as (w2 & Hget & Hb2). exists w2.
  assert (Hdelete : exists w3,
             SalesRepService.deleteSalesRep Store.client id w2 = (Return tt, w3)
             /\ Store.down (backend w3) = false
             /\ Store.table (backend w3) "sales_rep_c"
                = List.filter (fun r => negb (Store.hasId id r))
                    (Store.table (backend w1) "sales_rep_c")).
  { unfold SalesRepService.deleteSalesRep, bind, tryCatch, simulateAPICall, ret,
      callDelete, perform. store_call. rewrite Hb2.
    destruct (store_delete_one (backend w1) "sales_rep_c" id Hup1)
      as (st' & -> & Hup' & Htable).
    - rewrite Htable1, existsb_app. cbn [existsb]. rewrite Hid, orb_true_r. reflexivity.
    - cbn. eexists. split; [reflexivity |]. split; [exact Hup' | exact Htable]. }
  destruct Hdelete as (w3 & Hdelete & Hup3 & Htable3). exists w3.
  assert (Hgone : exists w4,
             SalesRepService.getSalesRepById Store.client id w3
               = (Throw (Error "Sales rep not found"), w4)).
  { unfold SalesRepService.getSalesRepById, bind, tryCatch, simulateAPICall, ret,
      callGet, perform. store_call.
    rewrite (store_getById_missing _ _ _ _ Hup3).
    - cbn. eexists. reflexivity.
    - rewrite Htable3. apply find_filter_none. }
  destruct Hgone as (w4 & Hgone). exists w4.
  change (prop (SalesRepService.repView record) "Id") with id.
  repeat split; try assumption; try reflexivity.
  cbn. unfold jsOr. destruct (truthy (prop repData "dealsClosed")) eqn:E;
    [rewrite E |]; reflexivity.
Qed.

(** A new sales rep on the sample store. *)
Lemma sales_rep_round_trip_witness :
  exists rep w1 w2,
    SalesRepService.createSalesRep Store.client [("name", JStr "Carol")] Examples.world
      = (Return rep, w1)
    /\ prop rep "Id" = JNum 1000
    /\ SalesRepService.getSalesRepById Store.client (JNum 1000) w1 = (Return rep, w2).
Proof.
  destruct (sales_rep_round_trip [("name", JStr "Carol")] Examples.world eq_refl)
    as (rep & w1 & w2 & w3 & w4 & Hcreate & Hid & _ & _ & Hget & _).
  - intros r Hin. cbn in Hin.
    destruct Hin as [<- | [<- | []]]; reflexivity.
  - exists rep, w1, w2. rewrite Hid in Hget. auto.
Defined.

(** ** The groups of the daily report *)



(** ** Edge cases of the daily chart *)

Section ChartEdges.
Context {S : Type} (rt : DateRuntime).

Lemma leadDateOf_throws lead :
  truthy (prop lead "created_at_c") = true ->
  (forall s, prop lead "created_at_c" <> JStr s) ->
  throws (AnalyticsService.leadDateOf (S:=S) lead).
Proof.
  intros Ht Hs w. unfold AnalyticsService.leadDateOf. rewrite Ht.
  unfold bind, stringMethod, throw.
  destruct (prop lead "created_at_c"); try (eexists _, _; reflexivity).
  exfalso. eapply Hs. reflexivity.
Qed.

Lemma dayLeadsOf_throws dateStr leads lead :
  In lead leads -> throws (AnalyticsService.leadDateOf (S:=S) lead) ->
  throws (AnalyticsService.dayLeadsOf (S:=S) dateStr leads).
Proof.
  intros Hin Hx. induction leads as [|y l IH]; [contradiction |].
  intros w. cbn. unfold bind at 1.
  destruct Hin as [-> | Hin].
  - destruct (Hx w) as (e & w' & ->). eauto.
  - destruct (AnalyticsService.leadDateOf y w) as [[b|e] w1]; [| eauto].
    unfold bind at 1. destruct (IH Hin w1) as (e & w' & ->). eauto.
Qed.
End ChartEdges.



(** ** Answers without data *)



(** ** What is written for a new lead and read back for a new contact *)

Lemma substring_all s : String.substring 0 (String.length s) s = s.
Proof. induction s as [|c s IH]; [reflexivity |]. cbn. rewrite IH. reflexivity. Qed.

Lemma prefix_empty h : String.prefix "" h = true.
Proof. destruct h; reflexivity. Qed.

Lemma dropScheme_https h : dropScheme ("https://" +:+ h) = h.
Proof.
  unfold dropScheme.
  assert (E : String.prefix "https://" ("https://" +:+ h) = true)
    by (cbn; apply prefix_empty).
  rewrite E.
  change (String.length ("https://" +:+ h)) with (8 + String.length h)%nat.
  replace (8 + String.length h - 8)%nat with (String.length h) by lia.
  change (String.substring 8 (String.length h) ("https://" +:+ h))
    with (String.substring 0 (String.length h) h).
  apply substring_all.
Qed.

Lemma dropScheme_http h : dropScheme ("http://" +:+ h) = h.
Proof.
  unfold dropScheme.
  assert (E : String.prefix "https://" ("http://" +:+ h) = false) by reflexivity.
  assert (E' : String.prefix "http://" ("http://" +:+ h) = true)
    by (cbn; apply prefix_empty).
  rewrite E, E'.
  change (String.length ("http://" +:+ h)) with (7 + String.length h)%nat.
  replace (7 + String.length h - 7)%nat with (String.length h) by lia.
  change (String.substring 7 (String.length h) ("http://" +:+ h))
    with (String.substring 0 (String.length h) h).
  apply substring_all.
Qed.

(** X26.  [createLead] stores the URL as it was typed: when the URL is
    valid and the lookup finds no duplicate, the record written holds the
    raw [websiteUrl] (not the normalized one), a [Name] that is the URL
    without its scheme, in lower case [http://] or [https://], and without
    one trailing slash, the time of the call, and for each field left out
    its default: "1-3", 0, "Other", "Keep an Eye", "Bootstrapped",
    "Select Edition". *)
Theorem createLead_stores_the_url_as_typed {S} (client : Client S) (rt : DateRuntime)
    (leadData : Rec) (w : World S) url response s1 :
  filled (prop leadData "websiteUrl") url ->
  fetchRecords client "lead_c" (LeadsService.duplicateQuery (JStr url)) (backend w)
    = (Return response, s1) ->
  success response && hasRows (data response) = false ->
  (exists record,
     callsSince w (snd (LeadsService.createLead client rt leadData w))
     = [ CFetch "lead_c" (LeadsService.duplicateQuery (JStr url));
         CCreate "lead_c" [record] ]
     /\ prop record "website_url_c" = JStr url
     /\ prop record "Name" = JStr (dropTrailingSlash (dropScheme url))
     /\ prop record "created_at_c" = JStr (toISOString rt (clock w))
     /\ prop record "team_size_c" = jsOr (prop leadData "teamSize") (JStr "1-3")
     /\ prop record "arr_c" = jsOr (prop leadData "arr") (JNum 0)
     /\ prop record "category_c" = jsOr (prop leadData "category") (JStr "Other")
     /\ prop record "status_c" = jsOr (prop leadData "status") (JStr "Keep an Eye")
     /\ prop record "funding_type_c"
        = jsOr (prop leadData "fundingType") (JStr "Bootstrapped")
     /\ prop record "edition_c" = jsOr (prop leadData "edition") (JStr "Select Edition"))
  /\ (forall host, dropScheme ("https://" +:+ host) = host
                   /\ dropScheme ("http://" +:+ host) = host).
Proof.
  intros (Hurl & Ht) Hfetch Hdup. split.
  - assert (Hv : Spec.validUrl (prop leadData "websiteUrl")) by (exists url; auto).
    eexists. split.
    + unfold LeadsService.createLead, tryCatch.
      rewrite (bind_Return _ _ w tt w) by reflexivity.
      rewrite (bind_Return _ _ _ _ _ (isBlank_valid _ w Hv)).
      destruct (normalizeUrl_valid _ w Hv) as (u & Hu).
      rewrite (bind_Return _ _ _ _ _ Hu).
      unfold bind at 1. unfold callFetch, perform. rewrite Hurl, Hfetch, Hdup.
      unfold LeadsService.insertLead. rewrite Hurl.
      unfold bind, stringMethod, ret, newDateNow, callCreate, perform. cbn.
      destruct (createRecord client _ _ _) as [[r|e0] s2]; cbn;
        [ destruct (success r); cbn;
          [ destruct (results r) as [[|result l]|]; cbn;
            [ | destruct (r_success result); cbn; [destruct (r_data result); cbn |] | ] | ]
        | ];
        unfold callsSince; cbn; rewrite <- ?app_assoc; rewrite drop_app_length;
        reflexivity.
    + repeat split.
  - intros host. split; [apply dropScheme_https | apply dropScheme_http].
Qed.

(** A new lead typed in capitals with a trailing slash on the sample store. *)
Lemma createLead_stores_the_url_as_typed_witness :
  exists record,
    callsSince Examples.worldAcme
      (snd (LeadsService.createLead Store.client utcRuntime Examples.acmeVariant
              Examples.worldAcme))
    = [ CFetch "lead_c" (LeadsService.duplicateQuery (JStr "HTTPS://ACME.IO/"));
        CCreate "lead_c" [record] ]
    /\ prop record "website_url_c" = JStr "HTTPS://ACME.IO/"
    /\ prop record "Name" = JStr "HTTPS://ACME.IO".
Proof.
  assert (Hf : filled (prop Examples.acmeVariant "websiteUrl") "HTTPS://ACME.IO/")
    by (split; [reflexivity | vm_compute; discriminate]).
  destruct (proj1 (createLead_stores_the_url_as_typed Store.client utcRuntime
                     Examples.acmeVariant Examples.worldAcme "HTTPS://ACME.IO/"
                     {| success := true; data := Some []; results := None;
                        message := JUndef |}
                     (backend Examples.worldAcme) Hf eq_refl eq_refl))
    as (record & Hcalls & Hurl & Hname & _).
  exists record. split; [exact Hcalls |]. split; [exact Hurl | exact Hname].
Defined.

(** X27.  A contact is not read back as it was returned: on the reference
    store, for a contact created without an email, [createContact] returns
    the email [undefined] and [getContactById] for the new id returns the
    email [''], while the id, the name and the status are the same in
    both, the status "New" when none was given. *)
Theorem contact_read_back_differs (rt : DateRuntime) (contactData : Rec)
    (w : World Store.State) :
  Store.down (backend w) = false ->
  (forall r, In r (Store.table (backend w) "contact_c") ->
             Store.hasId (JNum (Store.nextId (backend w))) r = false) ->
  prop contactData "email" = JUndef ->
  exists created w1 read w2,
    ContactsService.createContact Store.client rt contactData w = (Return created, w1)
    /\ ContactsService.getContactById Store.client rt (prop created "Id") w1
       = (Return read, w2)
    /\ prop created "email" = JUndef
    /\ prop read "email" = JStr ""
    /\ prop read "Id" = prop created "Id"
    /\ prop read "name" = prop created "name"
    /\ prop read "status" = prop created "status"
    /\ prop read "status" = jsOr (prop contactData "status") (JStr "New").
Proof.
  intros Hup Hfresh Hemail.
  set (id := JNum (Store.nextId (backend w))) in *.
  set (record := [ ("Name", prop contactData "name");
                   ("email_c", prop contactData "email");
                   ("company_c", prop contactData "company");
                   ("assigned_rep_c", prop contactData "assignedRep");
                   ("status_c", jsOr (prop contactData "status") (JStr "New"));
                   ("created_at_c", JStr (toISOString rt (clock w)));
                   ("Id", id) ]).
  assert (Hid : Store.hasId id record = true).
  { unfold Store.hasId. cbn. apply Z.eqb_refl. }
  assert (Hcreate : exists w1,
             ContactsService.createContact Store.client rt contactData w
               = (Return (ContactsService.createdContactView (toISOString rt (clock w))
                            contactData record), w1)
             /\ Store.down (backend w1) = false
             /\ clock w1 = clock w
             /\ Store.table (backend w1) "contact_c"
                = Store.table (backend w) "contact_c" ++ [record]).
  { unfold ContactsService.createContact, bind, tryCatch, simulateAPICall, ret,
      newDateNow, callCreate, perform. store_call.
    match goal with
    | |- context [Store.create ?e [?r] ?st] =>
        destruct (store_create_one st e r Hup) as (st' & -> & Hup' & Htable)
    end.
    cbn. eexists. split; [reflexivity |]. split; [exact Hup' |].
    split; [reflexivity | exact Htable]. }
  destruct Hcreate as (w1 & Hcreate & Hup1 & Hclock & Htable1).
  assert (Hget : exists w2,
             ContactsService.getContactById Store.client rt id w1
               = (Return (ContactsService.contactView (toISOString rt (clock w)) record),
                  w2)).
  { unfold ContactsService.getContactById, bind, tryCatch, simulateAPICall, ret,
      newDateNow, callGet, perform. store_call.
    rewrite (store_getById_found _ _ _ _ record Hup1).
    - cbn. rewrite Hclock. eexists. reflexivity.
    - rewrite Htable1, (find_none_app _ _ _ Hfresh). cbn [List.find]. rewrite Hid.
      reflexivity. }
  destruct Hget as (w2 & Hget).
  eexists _, w1, _, w2. split; [exact Hcreate |].
  split; [exact Hget |].
  cbn. rewrite Hemail. cbn.
  repeat split.
  - unfold jsOr. destruct (truthy (prop contactData "status")) eqn:E; cbn.
    + rewrite E. destruct (truthy (prop contactData "status")); reflexivity.
    + reflexivity.
  - unfold jsOr. destruct (truthy (prop contactData "status")) eqn:E; cbn;
      [rewrite E |]; reflexivity.
Qed.

(** A contact with a name only, on the sample store. *)
Lemma contact_read_back_differs_witness :
  exists created w1 read w2,
    ContactsService.createContact Store.client utcRuntime [("name", JStr "Frank")]
      Examples.world = (Return created, w1)
    /\ ContactsService.getContactById Store.client utcRuntime (prop created "Id") w1
       = (Return read, w2)
    /\ prop created "email" = JUndef
    /\ prop read "email" = JStr "".
Proof.
  destruct (contact_read_back_differs utcRuntime [("name", JStr "Frank")] Examples.world
              eq_refl)
    as (created & w1 & read & w2 & Hcreate & Hget & He1 & He2 & _).
  - intros r Hin. cbn in Hin. contradiction.
  - reflexivity.
  - exists created, w1, read, w2. auto.
Defined.
